(** * hacking/module_formatter.py: the module documentation generator

    A shallow embedding of the markup translators ([rst_ify], [html_ify]),
    the helpers of the templates ([rst_fmt], [rst_xline]), the module
    discoverer ([list_modules]), the per-module and per-category processing
    ([process_module], [process_category]) and the command line driver
    ([main]), with the properties of the specification proved or refuted on
    it, and further properties that the code shows. *)

From Stdlib Require Import ZArith Ascii String.
From stdpp Require Import gmap strings list sorting.

Local Open Scope string_scope.
#[local] Arguments String.append !s1 s2 : simpl nomatch.

(** ** Byte strings *)

Module Str.

(** [c in s] for a one-character needle. *)
Fixpoint has (c : ascii) (s : string) : bool :=
  match s with
  | EmptyString => false
  | String d r => Ascii.eqb d c || has c r
  end.

(** [s[k:]] *)
Fixpoint drop (k : nat) (s : string) : string :=
  match k, s with
  | S k', String _ r => drop k' r
  | _, _ => s
  end.

(** [s.replace(old, new)] for a one-character [old]. *)
Fixpoint replace (old : ascii) (new : string) (s : string) : string :=
  match s with
  | EmptyString => EmptyString
  | String c r =>
      if Ascii.eqb c old then new +:+ replace old new r
      else String c (replace old new r)
  end.

(** The line feed, which a string literal cannot spell. *)
Definition LF : string := String "010"%char EmptyString.

(** [s.startswith(p)] *)
Fixpoint startswith (p s : string) : bool :=
  match p, s with
  | EmptyString, _ => true
  | String a p', String b s' => Ascii.eqb a b && startswith p' s'
  | String _ _, EmptyString => false
  end.

(** [s.startswith(c)] for a one-character prefix. *)
Definition starts (c : ascii) (s : string) : bool :=
  match s with
  | String d _ => Ascii.eqb d c
  | EmptyString => false
  end.

(** [s.split(sep)] for a one-character separator: one token more than
    there are separators. *)
Fixpoint split (sep : ascii) (s : string) : list string :=
  match s with
  | EmptyString => [EmptyString]
  | String c r =>
      if Ascii.eqb c sep then EmptyString :: split sep r
      else match split sep r with
           | t :: ts => String c t :: ts
           | [] => [String c EmptyString]
           end
  end.

(** [s.endswith(c)] for a one-character suffix. *)
Fixpoint ends (c : ascii) (s : string) : bool :=
  match s with
  | EmptyString => false
  | String d EmptyString => Ascii.eqb d c
  | String _ r => ends c r
  end.

(** [fmt % arg] for a format with one [%s] directive. *)
Fixpoint format (fmt : string) (arg : string) : string :=
  match fmt with
  | String "%" (String "s" r) => arg +:+ r
  | String c r => String c (format r arg)
  | EmptyString => EmptyString
  end.

Definition is_upper (c : ascii) : bool :=
  (65 <=? nat_of_ascii c)%nat && (nat_of_ascii c <=? 90)%nat.
Definition is_lower (c : ascii) : bool :=
  (97 <=? nat_of_ascii c)%nat && (nat_of_ascii c <=? 122)%nat.
Definition upper (c : ascii) : ascii :=
  if is_lower c then ascii_of_nat (nat_of_ascii c - 32) else c.
Definition lower (c : ascii) : ascii :=
  if is_upper c then ascii_of_nat (nat_of_ascii c + 32) else c.

(** [s.title()]: a letter that follows a letter is lowered, any other
    letter is raised. *)
Fixpoint title_from (after_letter : bool) (s : string) : string :=
  match s with
  | EmptyString => EmptyString
  | String c r =>
      if is_upper c || is_lower c
      then String (if after_letter then lower c else upper c) (title_from true r)
      else String c (title_from false r)
  end.
Definition title (s : string) : string := title_from false s.

(** [c * n] *)
Fixpoint repeat (c : ascii) (n : nat) : string :=
  match n with
  | O => EmptyString
  | S n' => String c (repeat c n')
  end.

(** [l[-1-i]] *)
Definition from_end {A : Type} (i : nat) (l : list A) : option A :=
  rev l !! i.

(** [os.path.basename(p)] *)
Definition basename (p : string) : string :=
  default EmptyString (from_end 0 (split "/" p)).

(** [os.path.join(a, b)] *)
Definition join (a b : string) : string :=
  if starts "/" b then b
  else if String.eqb a "" || ends "/" a then a +:+ b
  else a +:+ "/" +:+ b.

(** [sorted(l)] on byte strings. *)
Definition le (a b : string) : Prop := String.leb a b = true.
#[export] Instance le_dec (a b : string) : Decision (le a b) :=
  bool_eq_dec (String.leb a b) true.
Definition sorted (l : list string) : list string := merge_sort le l.

End Str.

(** ** The inline markup patterns and [re.sub] *)

Module Markup.

(** A compiled pattern [L\(([^)]+)\)] is determined by its prefix letter. *)
Definition pattern := ascii.

Definition _ITALIC : pattern := "I"%char.
Definition _BOLD   : pattern := "B"%char.
Definition _MODULE : pattern := "M"%char.
Definition _URL    : pattern := "U"%char.
Definition _CONST  : pattern := "C"%char.

(** A replacement template: literal text and back-references [\1]. *)
Inductive piece := Lit (s : string) | Group1.
Definition template := list piece.

Fixpoint expand (t : template) (x : string) : string :=
  match t with
  | [] => ""
  | Lit s :: t' => s +:+ expand t' x
  | Group1 :: t' => x +:+ expand t' x
  end.

(** The group and the closing parenthesis of a pattern, tried on the
    text after ["L("]: [group s] reads the characters up to the first [")"]
    and returns them with the text after that [")"].  The class [[^)]] also
    accepts newlines, and a run that meets the end of the text before a
    [")"] cannot match however it is shortened. *)
Fixpoint group (s : string) : option (string * string) :=
  match s with
  | EmptyString => None
  | String c r =>
      if Ascii.eqb c ")" then Some (EmptyString, r)
      else match group r with
           | Some (x, a) => Some (String c x, a)
           | None => None
           end
  end.

(** The pattern anchored at the head of [s]: the captured group (one
    character at least) and the text after the match. *)
Definition match_at (p : pattern) (s : string) : option (string * string) :=
  match s with
  | String c (String o r) =>
      if Ascii.eqb c p && Ascii.eqb o "("
      then match group r with
           | Some (String x0 x, a) => Some (String x0 x, a)
           | _ => None
           end
      else None
  | _ => None
  end.

(** [p.sub(repl, text)]: the text is scanned from the left; the leftmost
    match at each position not covered by an earlier match is replaced by
    the expanded template, and scanning resumes after the match.  [skip]
    counts the characters of the current match still to pass over. *)
Fixpoint sub_from (p : pattern) (repl : template) (skip : nat) (s : string)
  : string :=
  match s with
  | EmptyString => EmptyString
  | String c rest =>
      match skip with
      | S k => sub_from p repl k rest
      | O =>
          match match_at p s with
          | Some (x, _) =>
              expand repl x +:+ sub_from p repl (2 + String.length x) rest
          | None => String c (sub_from p repl 0 rest)
          end
      end
  end.

Definition sub (p : pattern) (repl : template) (text : string) : string :=
  sub_from p repl 0 text.

(** [rst_ify]: convert symbols like I(this is in italics) to valid
    restructured text. *)
Definition rst_ify (text : string) : string :=
  let t := sub _ITALIC [Lit "*"; Group1; Lit "*"] text in
  let t := sub _BOLD [Lit "**"; Group1; Lit "**"] t in
  let t := sub _MODULE [Lit "``"; Group1; Lit "``"] t in
  let t := sub _URL [Group1] t in
  let t := sub _CONST [Lit "``"; Group1; Lit "``"] t in
  t.

(** [cgi.escape(s)] without [quote]: ampersands first, then the angle
    brackets. *)
Definition cgi_escape (s : string) : string :=
  let s := Str.replace "&" "&amp;" s in
  let s := Str.replace "<" "&lt;" s in
  let s := Str.replace ">" "&gt;" s in
  s.

(** [html_ify]: convert symbols like I(this is in italics) to valid HTML. *)
Definition html_ify (text : string) : string :=
  let t := cgi_escape text in
  let t := sub _ITALIC [Lit "<em>"; Group1; Lit "</em>"] t in
  let t := sub _BOLD [Lit "<b>"; Group1; Lit "</b>"] t in
  let t := sub _MODULE [Lit "<span class='module'>"; Group1; Lit "</span>"] t in
  let t := sub _URL [Lit "<a href='"; Group1; Lit "'>"; Group1; Lit "</a>"] t in
  let t := sub _CONST [Lit "<code>"; Group1; Lit "</code>"] t in
  t.

End Markup.

(** ** Simultaneous substitution

    [scan f text] replaces, in one pass from the left, every match of a
    pattern listed in the table [f] by that pattern's template.  It is the
    yardstick against which the passes of [rst_ify], run one after the
    other, are compared. *)

Module OnePass.
Import Markup.

Definition table := list (pattern * template).

Fixpoint tlookup (f : table) (c : ascii) : option template :=
  match f with
  | [] => None
  | (p, r) :: f' => if Ascii.eqb c p then Some r else tlookup f' c
  end.

Fixpoint scan_from (f : table) (skip : nat) (s : string) : string :=
  match s with
  | EmptyString => EmptyString
  | String c rest =>
      match skip with
      | S k => scan_from f k rest
      | O =>
          match tlookup f c with
          | Some r =>
              match match_at c s with
              | Some (x, _) =>
                  expand r x +:+ scan_from f (2 + String.length x) rest
              | None => String c (scan_from f 0 rest)
              end
          | None => String c (scan_from f 0 rest)
          end
      end
  end.

Definition scan (f : table) (text : string) : string := scan_from f 0 text.

(** The passes of a table, the head of the list last. *)
Fixpoint passes (f : table) (text : string) : string :=
  match f with
  | [] => text
  | (p, r) :: f' => sub p r (passes f' text)
  end.

(** The passes of [rst_ify], the last one first. *)
Definition rst_table : table :=
  [ (_CONST, [Lit "``"; Group1; Lit "``"]);
    (_URL, [Group1]);
    (_MODULE, [Lit "``"; Group1; Lit "``"]);
    (_BOLD, [Lit "**"; Group1; Lit "**"]);
    (_ITALIC, [Lit "*"; Group1; Lit "*"]) ].

(** The passes of [html_ify] after the escaping, the last one first. *)
Definition html_table : table :=
  [ (_CONST, [Lit "<code>"; Group1; Lit "</code>"]);
    (_URL, [Lit "<a href='"; Group1; Lit "'>"; Group1; Lit "</a>"]);
    (_MODULE, [Lit "<span class='module'>"; Group1; Lit "</span>"]);
    (_BOLD, [Lit "<b>"; Group1; Lit "</b>"]);
    (_ITALIC, [Lit "<em>"; Group1; Lit "</em>"]) ].

(** Escaped text: no angle bracket, and every ampersand opens one of the
    entities [&amp;], [&lt;], [&gt;]. *)
Fixpoint escaped (s : string) : bool :=
  match s with
  | EmptyString => true
  | String c r =>
      if Ascii.eqb c "<" || Ascii.eqb c ">" then false
      else if Ascii.eqb c "&"
      then (Str.startswith "amp;" r || Str.startswith "lt;" r
            || Str.startswith "gt;" r) && escaped r
      else escaped r
  end.

(** What [cgi_escape] makes of one character. *)
Definition escape_char (c : ascii) : string :=
  if Ascii.eqb c "&" then "&amp;"
  else if Ascii.eqb c "<" then "&lt;"
  else if Ascii.eqb c ">" then "&gt;"
  else String c "".

(** A template that writes no opening parenthesis of its own. *)
Definition closed_tpl (t : template) : bool :=
  forallb (fun q => match q with Lit s => negb (Str.has "(" s) | Group1 => true end) t.

(** A table of marker letters: no parenthesis as a letter, no letter
    twice, closed templates. *)
Fixpoint table_ok (f : table) : bool :=
  match f with
  | [] => true
  | (p, r) :: f' =>
      negb (Ascii.eqb p "(") && negb (Ascii.eqb p ")") &&
      match tlookup f' p with None => true | Some _ => false end &&
      closed_tpl r && table_ok f'
  end.

(** Where the scan stands with respect to the parentheses read so far:
    outside a parenthesised run (and whether the last character was a
    closing parenthesis), or inside one. *)
Inductive mode := Out (after_close : bool) | In.

(** Flat text: no ["("] inside a parenthesised run, and no ["("] directly
    after a [")"]. *)
Fixpoint flat_from (m : mode) (s : string) : bool :=
  match s with
  | EmptyString => true
  | String c r =>
      if Ascii.eqb c "(" then
        match m with Out false => flat_from In r | _ => false end
      else if Ascii.eqb c ")" then flat_from (Out true) r
      else match m with In => flat_from In r | Out _ => flat_from (Out false) r end
  end.

Definition flat (s : string) : bool := flat_from (Out false) s.

(** Where a reader of the markers stands: outside a marker, and then
    whether the last character was a marker letter, the parenthesis that
    closed a marker, or anything else; or inside the parentheses of a
    marker. *)
Inductive last := Letter | Closed | Other.
Inductive place := Outside (l : last) | Inside.

(** Tidy text, for a set of marker letters: no ["("] between the ["("]
    that follows a marker letter and the next [")"], and no ["("] directly
    after that [")"].  Parentheses that follow no marker letter are free. *)
Fixpoint tidy_from (letter : ascii -> bool) (st : place) (s : string) : bool :=
  match s with
  | EmptyString => true
  | String c r =>
      if Ascii.eqb c "(" then
        match st with
        | Outside Letter => tidy_from letter Inside r
        | Outside Other => tidy_from letter (Outside Other) r
        | _ => false
        end
      else if Ascii.eqb c ")" then
        match st with
        | Inside => tidy_from letter (Outside Closed) r
        | Outside _ => tidy_from letter (Outside Other) r
        end
      else
        match st with
        | Inside => tidy_from letter Inside r
        | Outside _ =>
            tidy_from letter (Outside (if letter c then Letter else Other)) r
        end
  end.

(** The letters of the five markers. *)
Definition marker_letter (c : ascii) : bool :=
  match tlookup rst_table c with Some _ => true | None => false end.

Definition tidy (s : string) : bool :=
  tidy_from marker_letter (Outside Other) s.

End OnePass.

(** ** Floats

    [float(s)] and [<] on the binary64 numbers the interpreter computes
    with. *)

Module Float.

(** A float: not-a-number, an infinity, or [(-1)^neg * q * 2^k]. *)
Inductive float := Nan | Inf (neg : bool) | Fin (neg : bool) (q k : Z).

(** The integer nearest to [n / d], ties to the even one. *)
Definition round_div (n d : Z) : Z :=
  let q := (n / d)%Z in
  let r := (n mod d)%Z in
  if (2 * r <? d)%Z then q
  else if (d <? 2 * r)%Z then (q + 1)%Z
  else if Z.even q then q else (q + 1)%Z.

(** The binary64 number nearest to [n / d] for [0 <= n] and [0 < d], as
    [q * 2^k] with [q < 2^53] and [-1074 <= k]; [None] when it overflows. *)
Definition binary64 (n d : Z) : option (Z * Z) :=
  if (n =? 0)%Z then Some (0, -1074)%Z
  else
    let e0 := (Z.log2 n - Z.log2 d)%Z in
    let ge := if (0 <=? e0)%Z then (d * 2 ^ e0 <=? n)%Z
              else (d <=? n * 2 ^ (- e0))%Z in
    let fl := if ge then e0 else (e0 - 1)%Z in
    let k := Z.max (fl - 52) (-1074) in
    let q := if (0 <=? k)%Z then round_div n (d * 2 ^ k)
             else round_div (n * 2 ^ (- k)) d in
    let '(q, k) := if (q =? 2 ^ 53)%Z then (2 ^ 52, k + 1)%Z else (q, k) in
    if (971 <? k)%Z then None else Some (q, k).

(** The float written [m * 10^e] in decimal, with its sign. *)
Definition of_decimal (neg : bool) (m e : Z) : float :=
  let r := if (0 <=? e)%Z then binary64 (m * 10 ^ e) 1
           else binary64 m (10 ^ (- e)) in
  match r with
  | Some (q, k) => Fin neg q k
  | None => Inf neg
  end.

Definition signed (neg : bool) (q : Z) : Z := if neg then (- q)%Z else q.

(** [a < b] *)
Definition ltb (a b : float) : bool :=
  match a, b with
  | Nan, _ | _, Nan => false
  | Inf true, Inf true => false
  | Inf true, _ => true
  | _, Inf true => false
  | Inf false, _ => false
  | Fin _ _ _, Inf false => true
  | Fin n1 q1 k1, Fin n2 q2 k2 =>
      let k := Z.min k1 k2 in
      (signed n1 q1 * 2 ^ (k1 - k) <? signed n2 q2 * 2 ^ (k2 - k))%Z
  end.

Definition is_space (c : ascii) : bool :=
  Ascii.eqb c " " || ((9 <=? nat_of_ascii c)%nat && (nat_of_ascii c <=? 13)%nat).

Fixpoint lstrip (s : string) : string :=
  match s with
  | String c r => if is_space c then lstrip r else s
  | EmptyString => EmptyString
  end.

Fixpoint rstrip (s : string) : string :=
  match s with
  | String c r =>
      let r' := rstrip r in
      if is_space c && String.eqb r' "" then EmptyString else String c r'
  | EmptyString => EmptyString
  end.

Definition digit (c : ascii) : option Z :=
  if (48 <=? nat_of_ascii c)%nat && (nat_of_ascii c <=? 57)%nat
  then Some (Z.of_nat (nat_of_ascii c - 48)) else None.

(** The leading digits of [s], added to [acc]: the number read, how many
    digits it took, and the rest of the text. *)
Fixpoint digits (acc : Z) (n : nat) (s : string) : Z * nat * string :=
  match s with
  | String c r =>
      match digit c with
      | Some d => digits (10 * acc + d) (S n) r
      | None => (acc, n, s)
      end
  | EmptyString => (acc, n, EmptyString)
  end.

Definition sign (s : string) : bool * string :=
  match s with
  | String "+" r => (false, r)
  | String "-" r => (true, r)
  | _ => (false, s)
  end.

(** A decimal literal: digits, an optional point and more digits (one
    digit at least in all), an optional exponent. *)
Definition decimal (s : string) : option (Z * Z) :=
  let '(m1, n1, r1) := digits 0 0 s in
  let '(m2, n2, r2) :=
    match r1 with
    | String "." r => digits m1 0 r
    | _ => (m1, 0, r1)
    end in
  if (n1 + n2 =? 0)%nat then None
  else match r2 with
       | EmptyString => Some (m2, - Z.of_nat n2)%Z
       | String c r3 =>
           if Ascii.eqb c "e" || Ascii.eqb c "E" then
             let '(eneg, r4) := sign r3 in
             let '(x, nx, r5) := digits 0 0 r4 in
             if (nx =? 0)%nat || negb (String.eqb r5 "") then None
             else Some (m2, signed eneg x - Z.of_nat n2)%Z
           else None
       end.

Definition lowercase (s : string) : string :=
  string_of_list_ascii (map Str.lower (list_ascii_of_string s)).

(** [float(s)]: [None] stands for the [ValueError]. *)
Definition float_of_string (s : string) : option float :=
  let '(neg, body) := sign (rstrip (lstrip s)) in
  let word := lowercase body in
  if String.eqb word "inf" || String.eqb word "infinity" then Some (Inf neg)
  else if String.eqb word "nan" then Some Nan
  else match decimal body with
       | Some (m, e) => Some (of_decimal neg m e)
       | None => None
       end.

End Float.

(** ** The interpreter: values, outcomes, effects *)

Module Py.

(** The values of a documentation block as the program observes them: a
    string, or another object (a number, [None], a list, a dict...), known
    by its truth value, by its [str()] and, for a dict, by its keys. *)
Inductive value :=
  | Str (s : string)
  | Obj (truth : bool) (text : string) (keys : option (list string)).

Definition PyNone : value := Obj false "None" None.
Definition PyInt0 : value := Obj false "0" None.

(** [bool(v)] *)
Definition truth (v : value) : bool :=
  match v with
  | Str s => negb (String.eqb s "")
  | Obj t _ _ => t
  end.

(** [str(v)] *)
Definition str (v : value) : string :=
  match v with
  | Str s => s
  | Obj _ text _ => text
  end.

(** [v == s] for a string literal [s] *)
Definition eq_str (v : value) (s : string) : bool :=
  match v with
  | Str s' => String.eqb s' s
  | Obj _ _ _ => false
  end.

Inductive exn :=
  | KeyError (key : string)
  | IndexError
  | ValueError
  | AttributeError
  | IOError (path : string)
  | TemplateNotFound (name : string)
  | Exception (msg : string).

(** How a call ends: it returns, the interpreter exits ([sys.exit]), or an
    exception nobody handles comes out of it. *)
Inductive outcome (A : Type) :=
  | Return (a : A)
  | Exit (code : Z)
  | Raise (e : exn).
Arguments Return {A} a.
Arguments Exit {A} code.
Arguments Raise {A} e.

(** What a run leaves behind: the texts written to the two streams, the
    files opened for writing (in the order of opening, each with the texts
    written through its handle), and the files handed to the metadata
    extractor. *)
Record world := World {
  stdout : list string;
  stderr : list string;
  files : list (string * list string);
  extracted : list string;
}.

Definition start : world :=
  {| stdout := []; stderr := []; files := []; extracted := [] |}.

Definition M (A : Type) : Type := world -> world * outcome A.

Definition ret {A} (a : A) : M A := fun w => (w, Return a).
Definition bind {A B} (m : M A) (k : A -> M B) : M B :=
  fun w =>
    match m w with
    | (w', Return a) => k a w'
    | (w', Exit c) => (w', Exit c)
    | (w', Raise e) => (w', Raise e)
    end.
Definition exit {A} (code : Z) : M A := fun w => (w, Exit code).
Definition raise {A} (e : exn) : M A := fun w => (w, Raise e).
Definition lift {A} (o : outcome A) : M A := fun w => (w, o).

(** The world after a text went to the standard output, after one went
    to the error stream, after the extractor read a file, after a file was
    opened and after a text was written through a handle.  A file handle
    is the rank of its file among the files opened. *)
Abbreviation handle := nat.

Definition printed (text : string) (w : world) : world :=
  {| stdout := (stdout w ++ [text])%list; stderr := stderr w;
     files := files w; extracted := extracted w |}.

Definition complained (text : string) (w : world) : world :=
  {| stdout := stdout w; stderr := (stderr w ++ [text])%list;
     files := files w; extracted := extracted w |}.

Definition read (fname : string) (w : world) : world :=
  {| stdout := stdout w; stderr := stderr w; files := files w;
     extracted := (extracted w ++ [fname])%list |}.

Definition opened (path : string) (w : world) : world :=
  {| stdout := stdout w; stderr := stderr w;
     files := (files w ++ [(path, [])])%list; extracted := extracted w |}.

Definition written (h : handle) (text : string) (w : world) : world :=
  {| stdout := stdout w; stderr := stderr w;
     files := alter (fun f => (f.1, (f.2 ++ [text])%list)) h (files w);
     extracted := extracted w |}.

(** [print text] *)
Definition print (text : string) : M unit := fun w =>
  (printed (text +:+ Str.LF) w, Return tt).

(** [sys.stderr.write(text)] *)
Definition stderr_write (text : string) : M unit := fun w =>
  (complained text w, Return tt).

(** [f.write(text)] *)
Definition write (h : handle) (text : string) : M unit := fun w =>
  (written h text w, Return tt).

(** [d[k]] *)
Definition getitem {A} (d : gmap string A) (k : string) : M A :=
  match d !! k with
  | Some a => ret a
  | None => raise (KeyError k)
  end.

(** [del d[k]] *)
Definition delitem {A} (d : gmap string A) (k : string) : M (gmap string A) :=
  match d !! k with
  | Some _ => ret (delete k d)
  | None => raise (KeyError k)
  end.

(** [l[i]] *)
Definition index {A} (l : list A) (i : nat) : M A :=
  match l !! i with
  | Some a => ret a
  | None => raise IndexError
  end.

End Py.

Notation "x <- c1 ;; c2" := (Py.bind c1 (fun x => c2))
  (at level 100, c1 at next level, right associativity).
Notation "c1 ;; c2" := (Py.bind c1 (fun _ => c2))
  (at level 100, right associativity).

(** ** The program *)

Module Formatter.
Import Str Py.

(** A documentation block: field name to value. *)
Abbreviation doc := (gmap string value).

(** What the template receives: the fields of the block, the sorted
    option names, and the texts the program adds. *)
Inductive field :=
  | Given (v : value)
  | Keys (l : list string).
Abbreviation context := (gmap string field).

(** A compiled template: [template.render(context)]. *)
Definition template := context -> string.

(** The jinja2 environment, by the directory of its loader. *)
Record environment := { loader : string }.

(** The operating system: [glob.glob], [os.path.isdir], [os.path.exists]. *)
Record os := {
  glob : string -> list string;
  isdir : string -> bool;
  exists_ : string -> bool;
}.

(** What the program calls and does not define: the metadata extractor
    and the exempt list of [ansible.utils.module_docs], the template loader
    of jinja2, the date, the boilerplate file and whether a file can be
    opened for writing. *)
Record externals := {
  get_docstring : string -> bool -> option doc * option string;
  BLACKLIST_MODULES : list string;
  get_template : string -> string -> option template;
  today : string;
  EXAMPLE_YAML : string;
  read_file : string -> option string;
  can_open : string -> bool;
  system : os;
  MODULEDIR : string;
}.

(** The options, as [parse_args] returns them. *)
Record options := {
  ansible_version : string;
  module_dir : string;
  template_dir : string;
  type : string;
  verbose : bool;
  output_dir : option string;
  includes_file : option string;
  do_boilerplate : bool;
}.

(** if a module is added in a version of Ansible older than this, don't
    print the version added information *)
Definition TO_OLD_TO_BE_NOTABLE : Float.float :=
  Eval vm_compute in Float.of_decimal false 10 (-1).

Section Program.
Variable ext : externals.

(** [open(path, 'w')]: the handle of the new, empty file. *)
Definition open_w (path : string) : M handle := fun w =>
  if can_open ext path
  then (opened path w, Return (length (files w)))
  else (w, Raise (IOError path)).

(** The call of the metadata extractor, which reads the file. *)
Definition call_get_docstring (fname : string) (verbose : bool)
  : M (option doc * option string) := fun w =>
  (read fname w, Return (get_docstring ext fname verbose)).

(** [os.path.join(options.output_dir, name)] *)
Definition join_output_dir (o : options) (name : string) : M string :=
  match output_dir o with
  | Some dir => ret (join dir name)
  | None => if starts "/" name then ret name else raise AttributeError
  end.

(** [write_data]: dumps module output to a file or the screen, as
    requested *)
Definition write_data (text : string) (o : options) (outputname : string)
    (module : string) : M unit :=
  match output_dir o with
  | Some dir =>
      f <- open_w (join dir (format outputname module)) ;;
      write f text
  | None => print text
  end.

(** [float(added)] *)
Definition float (s : string) : M Float.float :=
  match Float.float_of_string s with
  | Some x => ret x
  | None => raise ValueError
  end.

(** [doc['options'].iteritems()], by the keys. *)
Definition iteritems (v : value) : M (list string) :=
  match v with
  | Obj _ _ (Some keys) => ret keys
  | _ => raise AttributeError
  end.

(** [doc['module'].replace('_', '-')] *)
Definition replace_method (v : value) (old : ascii) (new : string) : M string :=
  match v with
  | Str s => ret (replace old new s)
  | Obj _ _ _ => raise AttributeError
  end.

Definition field_of_text (t : option string) : field :=
  match t with
  | Some s => Given (Str s)
  | None => Given PyNone
  end.

(** The version test of [process_module]: the block without the version
    field when the version is "historical" or too old to be notable. *)
Definition strip_version (d : doc) : M doc :=
  v <- getitem d "version_added" ;;
  p <- (if eq_str v "historical"
        then (d' <- delitem d "version_added" ;; ret (d', PyInt0))
        else ret (d, v)) ;;
  let d := p.1 in
  let added := p.2 in
  (* don't show version added information if it's too old to be called out *)
  if truth added then
    let added_tokens := split "." (str added) in
    t0 <- index added_tokens 0 ;;
    t1 <- index added_tokens 1 ;;
    let added := t0 +:+ "." +:+ t1 in
    added_float <- float added ;;
    if truth (Str added) && Float.ltb added_float TO_OLD_TO_BE_NOTABLE
    then delitem d "version_added"
    else ret d
  else ret d.

(** The context handed to the template. *)
Definition build_context (d : doc) (o : options) (fname : string)
    (examples : option string) : M context :=
  opts <- getitem d "options" ;;
  all_keys <- iteritems opts ;;
  let all_keys := sorted all_keys in
  let c : context := Given <$> d in
  let c := <["option_keys" := Keys all_keys]> c in
  let c := <["filename" := Given (Str fname)]> c in
  m <- getitem d "module" ;;
  docuri <- replace_method m "_" "-" ;;
  let c := <["docuri" := Given (Str docuri)]> c in
  let c := <["now_date" := Given (Str (today ext))]> c in
  let c := <["ansible_version" := Given (Str (ansible_version o))]> c in
  let c := <["plainexamples" := field_of_text examples]> c in
  ret c.

Definition process_module (module : string) (o : options) (env : environment)
    (tpl : template) (outputname : string) (module_map : gmap string string)
  : M (option string) :=
  print ("rendering: " +:+ module) ;;
  fname <- getitem module_map module ;;
  (* ignore files with extensions *)
  if has "." (basename fname) then ret None
  else
    (* use ansible core library to parse out doc metadata YAML and
       plaintext examples *)
    r <- call_get_docstring fname (verbose o) ;;
    match r with
    | (None, _) =>
        (* crash if module is missing documentation and not explicitly
           hidden from docs index *)
        if negb (bool_decide (module ∈ BLACKLIST_MODULES ext)) then
          stderr_write ("*** ERROR: CORE MODULE MISSING DOCUMENTATION: "
                        +:+ fname +:+ ", " +:+ module +:+ " ***" +:+ LF) ;;
          exit 1
        else ret (Some "SKIPPED")
    | (Some d, examples) =>
        match d !! "version_added" with
        | None =>
            stderr_write ("*** ERROR: missing version_added in: "
                          +:+ module +:+ " ***" +:+ LF) ;;
            exit 1
        | Some _ =>
            d <- strip_version d ;;
            c <- build_context d o fname examples ;;
            (* here is where we build the table of contents... *)
            let text := tpl c in
            write_data text o outputname module ;;
            ret None
        end
    end.

(** The line of a module in the listing of its category. *)
Definition toctree_entry (module : string) : string :=
  "    " +:+ module +:+ "_module" +:+ LF.

(** The loop of [process_category] over the sorted modules. *)
Fixpoint process_modules (modules : list string) (category_file : handle)
    (o : options) (env : environment) (tpl : template) (outputname : string)
    (module_map : gmap string string) : M unit :=
  match modules with
  | [] => ret tt
  | module :: rest =>
      result <- process_module module o env tpl outputname module_map ;;
      (if bool_decide (result <> Some "SKIPPED")
       then write category_file (toctree_entry module)
       else ret tt) ;;
      process_modules rest category_file o env tpl outputname module_map
  end.

Definition process_category (category : string)
    (categories : gmap string (gmap string string)) (o : options)
    (env : environment) (tpl : template) (outputname : string) : M unit :=
  module_map <- getitem categories category ;;
  category_file_path <-
    join_output_dir o ("list_of_" +:+ category +:+ "_modules.rst") ;;
  category_file <- open_w category_file_path ;;
  print ("*** recording category " +:+ category +:+ " in "
         +:+ category_file_path +:+ " ***") ;;
  let category := replace "_" " " category in
  let category := title category in
  let modules := sorted (map_to_list module_map).*1 in
  let category_header := title category +:+ " Modules" in
  let underscores := repeat "`" (String.length category_header) in
  write category_file category_header ;;
  write category_file LF ;;
  write category_file underscores ;;
  write category_file LF ;;
  write category_file (".. toctree::" +:+ LF) ;;
  process_modules modules category_file o env tpl outputname module_map.

(** [list_modules]: returns a hash of categories, each category being a
    hash of module names to file paths *)
Fixpoint index_files (files2 : list string)
    (categories : gmap string (gmap string string))
  : outcome (gmap string (gmap string string)) :=
  match files2 with
  | [] => Return categories
  | f :: rest =>
      let tokens := split "/" f in
      match from_end 0 tokens, from_end 1 tokens with
      | Some module, Some category =>
          let categories :=
            match categories !! category with
            | None => <[category := ∅]> categories
            | Some _ => categories
            end in
          let categories :=
            <[category := <[module := f]> (default ∅ (categories !! category))]>
              categories in
          index_files rest categories
      | _, _ => Raise IndexError
      end
  end.

Fixpoint index_dirs (files : list string)
    (categories : gmap string (gmap string string))
  : outcome (gmap string (gmap string string)) :=
  match files with
  | [] => Return categories
  | d :: rest =>
      if isdir (system ext) d then
        let files2 := glob (system ext) (d +:+ "/*") in
        match index_files files2 categories with
        | Return categories => index_dirs rest categories
        | other => other
        end
      else index_dirs rest categories
  end.

Definition list_modules (module_dir : string)
  : outcome (gmap string (gmap string string)) :=
  let categories := ∅ in
  let files := glob (system ext) (module_dir +:+ "/*") in
  index_dirs files categories.

(** [generate_parser]: the defaults of the options and the choices of
    [--type]. *)
Record parser := { defaults : options; choices : list string }.

Definition generate_parser : parser :=
  {| defaults :=
       {| ansible_version := "unknown";
          module_dir := MODULEDIR ext;
          template_dir := "hacking/templates";
          type := "latex";
          verbose := false;
          output_dir := None;
          includes_file := None;
          do_boilerplate := false |};
     choices := ["html"; "latex"; "man"; "rst"; "json"; "markdown"; "js"] |}.

Definition jinja2_environment (template_dir : string) (typ : string)
  : M (environment * template * string) :=
  let env := {| loader := template_dir |} in
  if String.eqb typ "rst" then
    match get_template ext template_dir "rst.j2" with
    | Some tpl => ret (env, tpl, "%s_module.rst")
    | None => raise (TemplateNotFound "rst.j2")
    end
  else raise (Exception ("unknown module format type: " +:+ typ)).

(** [print >>sys.stderr, text] *)
Definition print_stderr (text : string) : M unit :=
  stderr_write (text +:+ LF).

(** [boilerplate]: prints the boilerplate for module docs *)
Definition boilerplate : M unit :=
  (if negb (exists_ (system ext) (EXAMPLE_YAML ext))
   then print_stderr ("Missing example boiler plate: " +:+ EXAMPLE_YAML ext)
   else ret tt) ;;
  print "DOCUMENTATION = '''" ;;
  text <- match read_file ext (EXAMPLE_YAML ext) with
          | Some text => ret text
          | None => raise (IOError (EXAMPLE_YAML ext))
          end ;;
  print text ;;
  print "'''" ;;
  print "" ;;
  print "" ;;
  print "EXAMPLES = '''" ;;
  print "# example of doing ___ from a playbook" ;;
  print "your_module: some_arg=1 other_arg=2" ;;
  print "'''" ;;
  print "".

(** [validate_options]: validate option parser options *)
Definition validate_options (o : options) : M unit :=
  (if do_boilerplate o then boilerplate ;; exit 0 else ret tt) ;;
  (if String.eqb (module_dir o) ""
   then print_stderr "--module-dir is required" ;; exit 1 else ret tt) ;;
  (if negb (exists_ (system ext) (module_dir o))
   then print_stderr ("--module-dir does not exist: " +:+ module_dir o) ;;
        exit 1
   else ret tt) ;;
  (if String.eqb (template_dir o) ""
   then print "--template-dir must be specified" ;; exit 1 else ret tt).

(** The loop of [main] over the sorted categories. *)
Fixpoint process_categories (category_names : list string)
    (category_list_file : handle)
    (categories : gmap string (gmap string string)) (o : options)
    (env : environment) (tpl : template) (outputname : string) : M unit :=
  match category_names with
  | [] => ret tt
  | category :: rest =>
      write category_list_file
        ("    list_of_" +:+ category +:+ "_modules" +:+ LF) ;;
      process_category category categories o env tpl outputname ;;
      process_categories rest category_list_file categories o env tpl
        outputname
  end.

(** [main], from the options that [parse_args] returns. *)
Definition main (o : options) : M unit :=
  validate_options o ;;
  r <- jinja2_environment (template_dir o) (type o) ;;
  let env := r.1.1 in
  let tpl := r.1.2 in
  let outputname := r.2 in
  categories <- lift (list_modules (module_dir o)) ;;
  let category_names := sorted (map_to_list categories).*1 in
  category_list_path <- join_output_dir o "modules_by_category.rst" ;;
  category_list_file <- open_w category_list_path ;;
  write category_list_file ("Module Index" +:+ LF) ;;
  write category_list_file ("============" +:+ LF) ;;
  write category_list_file (LF +:+ LF) ;;
  write category_list_file (".. toctree::" +:+ LF) ;;
  process_categories category_names category_list_file categories o env tpl
    outputname.

End Program.

End Formatter.

(** ** How a computation treats the world *)

Module Effects.
Import Py.

(** [w'] has the files of [w], as they were, and maybe further ones. *)
Definition extends (w w' : world) : Prop :=
  exists extra, files w' = (files w ++ extra)%list.

(** A computation that leaves the files it finds as they are. *)
Definition grows {A} (m : M A) : Prop := forall w, extends w (m w).1.

(** A computation that leaves the world as it is and ends the same way
    in every world. *)
Definition pure {A} (m : M A) : Prop := exists r, forall w, m w = (w, r).

(** A computation that opens no file and calls no extractor. *)
Definition quiet {A} (m : M A) : Prop :=
  forall w, files (m w).1 = files w /\ extracted (m w).1 = extracted w.

(** A module whose line can be in the listing of its category: its
    processing returned, and not the mark of the skipped. *)
Definition listable (ext : Formatter.externals) (o : Formatter.options)
    (env : Formatter.environment) (tpl : Formatter.template)
    (outputname : string) (module_map : gmap string string) (m : string)
  : Prop :=
  exists w r,
    (Formatter.process_module ext m o env tpl outputname module_map w).2
      = Return r /\
    r <> Some "SKIPPED".

End Effects.

(** ** A directory tree as the operating system *)

Module Tree.
Import Str Formatter.

#[warnings="-register-all"]
Inductive node := File | Dir (entries : list (string * node)).

(** The entry of a name in a directory listing. *)
Fixpoint entry (name : string) (entries : list (string * node)) : option node :=
  match entries with
  | [] => None
  | (n, x) :: rest => if String.eqb n name then Some x else entry name rest
  end.

(** The node that the components of a path lead to, from the node [n]
    below the directories [up] (the nearest first).  An empty component (a
    doubled slash, a slash at the end) and ["."] stay in the directory,
    [".."] goes up one directory; what lies above the tree is not known. *)
Fixpoint walk (comps : list string) (up : list node) (n : node) : option node :=
  match comps with
  | [] => Some n
  | c :: cs =>
      match n with
      | Dir entries =>
          if String.eqb c "" || String.eqb c "." then walk cs up n
          else if String.eqb c ".." then
            match up with
            | parent :: up' => walk cs up' parent
            | [] => None
            end
          else
            match entry c entries with
            | Some n' => walk cs (n :: up) n'
            | None => None
            end
      | File => None
      end
  end.

(** [s] without the prefix [p]. *)
Fixpoint chop_prefix (p s : string) : option string :=
  match p, s with
  | EmptyString, _ => Some s
  | String a p', String b s' =>
      if Ascii.eqb a b then chop_prefix p' s' else None
  | String _ _, EmptyString => None
  end.

(** [s] without the suffix ["/*"]. *)
Fixpoint chop_star (s : string) : option string :=
  match s with
  | EmptyString => None
  | String c r =>
      if String.eqb s "/*" then Some EmptyString
      else option_map (String c) (chop_star r)
  end.

(** The node at a path, in the tree mounted at [root]: the path is the
    root itself, or the root, a slash and the components that lead to the
    node.  The empty path names nothing. *)
Definition resolve (root : string) (tree : node) (path : string) : option node :=
  if String.eqb path "" then None
  else if String.eqb path root then Some tree
  else match chop_prefix (root +:+ "/") path with
       | Some rest => walk (split "/" rest) [] tree
       | None => None
       end.

(** The names that the pattern [*] matches: all but the hidden ones. *)
Definition visible (name : string) : bool := negb (starts "." name).

(** The characters that make [glob] read a path as a pattern. *)
Definition has_magic (s : string) : bool := has "*" s || has "?" s || has "[" s.

(** A name of a directory entry: it holds no slash, is not empty, and is
    neither of the two names that every directory keeps for itself and for
    its parent. *)
Definition plain_name (name : string) : bool :=
  negb (has "/" name) && negb (String.eqb name "") &&
  negb (String.eqb name ".") && negb (String.eqb name "..").

(** [s == "/" * len(s)] *)
Fixpoint all_slashes (s : string) : bool :=
  match s with
  | EmptyString => true
  | String c r => Ascii.eqb c "/" && all_slashes r
  end.

(** [s.rstrip("/")] *)
Fixpoint rstrip_slashes (s : string) : string :=
  match s with
  | EmptyString => EmptyString
  | String c r => if all_slashes s then EmptyString else String c (rstrip_slashes r)
  end.

(** The head of [os.path.split(dir + "/*")], which is the directory that
    [glob] lists for the pattern: [dir] and its slash, without the slashes
    at the end unless there is nothing else. *)
Definition split_head (dir : string) : string :=
  let head := dir +:+ "/" in
  if all_slashes head then head else rstrip_slashes head.

(** The trees on which [tree_os] is the operating system: a directory at
    a path without magic characters and without a slash at its end, whose
    entries have different names, whose categories have names without magic
    characters, and names of directory entries on the first two levels. *)
Definition mountable (root : string) (tree : node) : bool :=
  negb (has_magic root) && negb (ends "/" root) &&
  match tree with
  | File => false
  | Dir top =>
      forallb plain_name top.*1 && bool_decide (NoDup top.*1) &&
      forallb (fun e => match e.2 with
                        | Dir entries =>
                            negb (has_magic e.1) && forallb plain_name entries.*1
                        | File => true
                        end) top
  end.

(** The names of a listing that [*] matches. *)
Definition visible_names (entries : list (string * node)) : list string :=
  filter (fun name => visible name = true) entries.*1.

(** How the paths of the entries of the root begin, when the root is
    given with [k] slashes at its end: [glob] drops these slashes, unless the
    root is the root of the file system, which slashes alone spell. *)
Definition shown (root : string) (k : nat) : string :=
  if String.eqb root "" then repeat "/" k else root.

(** The modules [ms] of the directory [d], added to a category. *)
Definition add_modules (d : string) (ms : list string)
    (mm : gmap string string) : gmap string string :=
  foldl (fun mm m => <[m := d +:+ "/" +:+ m]> mm) mm ms.

(** The category [c] of the tree, added to the categories. *)
Definition add_category (root : string) (top : list (string * node))
    (cats : gmap string (gmap string string)) (c : string)
  : gmap string (gmap string string) :=
  match entry c top with
  | Some (Dir entries) =>
      match visible_names entries with
      | [] => cats
      | ms => <[c := add_modules (root +:+ "/" +:+ c) ms (default ∅ (cats !! c))]> cats
      end
  | _ => cats
  end.

(** The system calls on a tree mounted at [root].  [glob] is given for
    the patterns [dir/*] with a literal [dir], as the program builds them
    from a directory without a magic character in its path: it lists the
    head of the pattern and joins the head to the names that are not hidden.
    A magic character in [dir] makes [glob.glob] expand [dir] as a pattern
    of its own; that is not modelled, and [mounted] asks nothing of the
    system there. *)
Definition tree_os (root : string) (tree : node) : os :=
  {| glob := fun pattern =>
       match chop_star pattern with
       | Some dir =>
           let head := split_head dir in
           match resolve root tree head with
           | Some (Dir entries) => map (join head) (visible_names entries)
           | _ => []
           end
       | None =>
           if bool_decide (is_Some (resolve root tree pattern))
           then [pattern] else []
       end;
     isdir := fun path =>
       match resolve root tree path with
       | Some (Dir _) => true
       | _ => false
       end;
     exists_ := fun path => bool_decide (is_Some (resolve root tree path)) |}.

(** The paths that stay in the tree mounted at [root]: the root, or the
    root, a slash and components that do not go up. *)
Definition below (root path : string) : bool :=
  String.eqb path root ||
  match chop_prefix (root +:+ "/") path with
  | Some rest => negb (bool_decide (".." ∈ split "/" rest))
  | None => false
  end.

(** A system on which the directory [root] is the tree: it tells the
    directories of the tree as the tree has them, and lists them as the tree
    has them when asked with a pattern [dir/*] whose [dir] is literal. *)
Definition mounted (sys : os) (root : string) (tree : node) : Prop :=
  (forall path, below root path = true ->
     isdir sys path = isdir (tree_os root tree) path) /\
  (forall dir, below root dir = true -> has_magic dir = false ->
     glob sys (dir +:+ "/*") = glob (tree_os root tree) (dir +:+ "/*")).

End Tree.

(** ** A small library, to run the program on *)

Module Example.
Import Str Py Formatter Tree.

(** Two categories of two modules each, as in the specification. *)
Definition library_top : list (string * node) :=
  [ ("net", Dir [("a", File); ("b", File)]);
    ("db", Dir [("a", File); ("b", File)]) ].
Definition library : node := Dir library_top.

(** The same library with a file at the root, a file three levels down,
    and two hidden entries. *)
Definition cluttered_top : list (string * node) :=
  [ ("net", Dir [("a", File); ("b", File); (".cache", File);
                 ("old", Dir [("c", File)])]);
    ("README", File);
    ("db", Dir [("a", File); ("b", File)]);
    (".git", Dir [("config", File)]) ].
Definition cluttered : node := Dir cluttered_top.

(** The documentation block of [lib/net/a]. *)
Definition block : doc :=
  <["version_added" := Str "1.0"]>
    (<["options" := Obj true "{'port': {}, 'host': {}}" (Some ["port"; "host"])]>
       (<["module" := Str "a"]> ∅)).

(** The extractor: [lib/net/a] is documented, [lib/net/b] has a block
    without version, [lib/db/a] has the version "2", nothing else has a
    block. *)
Definition extractor (fname : string) (verbose : bool)
  : option doc * option string :=
  if String.eqb fname "lib/net/a" then (Some block, Some "a: host=x")
  else if String.eqb fname "lib/net/b" then (Some {["module" := Str "b"]}, None)
  else if String.eqb fname "lib/db/a"
  then (Some {["version_added" := Str "2"]}, None)
  else (None, None).

(** The externals over a tree mounted at [lib], with or without the
    boilerplate file. *)
Definition mount (tree : node) (boilerplate : option string) : externals :=
  {| get_docstring := extractor;
     BLACKLIST_MODULES := ["async_wrapper"; "accelerate"; "async_status"];
     get_template := fun _ name =>
       if String.eqb name "rst.j2" then Some (fun _ => "") else None;
     today := "2014-01-01";
     EXAMPLE_YAML := "examples/DOCUMENTATION.yml";
     read_file := fun path =>
       if String.eqb path "examples/DOCUMENTATION.yml"
       then boilerplate else None;
     can_open := fun _ => true;
     system :=
       {| glob := glob (tree_os "lib" tree);
          isdir := isdir (tree_os "lib" tree);
          exists_ := fun path =>
            exists_ (tree_os "lib" tree) path
            || (String.eqb path "examples/DOCUMENTATION.yml"
                && bool_decide (is_Some boilerplate)) |};
     MODULEDIR := "lib" |}.

Definition ext : externals := mount library (Some "module: name").

Definition env : environment := {| loader := "hacking/templates" |}.

(** The options of a run for restructured text into [out]. *)
Definition opts : options :=
  {| ansible_version := "1.5";
     module_dir := "lib";
     template_dir := "hacking/templates";
     type := "rst";
     verbose := false;
     output_dir := Some "out";
     includes_file := None;
     do_boilerplate := false |}.

End Example.

(** ** The helpers handed to the templates *)

Module Filters.

(** [n] copies of [s], end to end. *)
Fixpoint copies (n : nat) (s : string) : string :=
  match n with
  | O => EmptyString
  | S n' => s +:+ copies n' s
  end.

(** How [char * width] ends: with a string, or with one of the errors of
    the interpreter. *)
Inductive repeated :=
  | Line (s : string)
  | OverflowError (msg : string)
  | MemoryError.

Section Machine.

(** The machine of the interpreter: [sys.maxsize], the largest size of a
    string and the largest index, and whether it obtains the memory for a
    new string of a given length. *)
Variable maxsize : Z.
Variable allocates : Z -> bool.

(** [s * n] for a byte string and an integer: the count has to fit an
    index; a negative count is read as zero; the length of the result has
    to fit a size; a result as long as [s] is [s] itself; any other result
    takes new memory. *)
Definition times (s : string) (n : Z) : repeated :=
  if (n <? - maxsize - 1)%Z || (maxsize <? n)%Z
  then OverflowError "cannot fit 'long' into an index-sized integer"
  else
    let n := Z.max 0 n in
    let size := (Z.of_nat (String.length s) * n)%Z in
    if (maxsize <? size)%Z then OverflowError "repeated string is too long"
    else if (size =? Z.of_nat (String.length s))%Z then Line s
    else if allocates size then Line (copies (Z.to_nat n) s)
    else MemoryError.

(** [rst_xline]: return a restructured text line of a given length.  The
    pencil [char] is ["="] when the caller gives none. *)
Definition rst_xline (width : Z) (char : option string) : repeated :=
  times (default "=" char) width.

End Machine.

(** How [fmt % text] ends. *)
Inductive formatted :=
  | Formatted (s : string)
  | TypeError (msg : string)
  | ValueError (msg : string)
  | Beyond.

Definition prepend (s : string) (r : formatted) : formatted :=
  match r with
  | Formatted t => Formatted (s +:+ t)
  | other => other
  end.

(** [fmt % arg] for one string argument, read from the left as the
    interpreter reads it; [used] tells whether a directive has taken the
    argument.  The directives [%s] and [%%] are interpreted; a format that
    comes to any other directive (a flag, a width, a mapping key, another
    conversion) is beyond this reading, which says so. *)
Fixpoint percent (fmt : string) (arg : string) (used : bool) : formatted :=
  match fmt with
  | EmptyString =>
      if used then Formatted EmptyString
      else TypeError "not all arguments converted during string formatting"
  | String "%" EmptyString => ValueError "incomplete format"
  | String "%" (String "%" r) => prepend "%" (percent r arg used)
  | String "%" (String "s" r) =>
      if used then TypeError "not enough arguments for format string"
      else prepend arg (percent r arg true)
  | String "%" (String _ _) => Beyond
  | String c r => prepend (String c EmptyString) (percent r arg used)
  end.

(** [rst_fmt]: helper for Jinja2 to do format strings *)
Definition rst_fmt (text : string) (fmt : string) : formatted :=
  percent fmt text false.

End Filters.

(** ** The listing of a category *)

Module Toctree.
Import Str Py Formatter.

(** The modules for which [process_module] returns the mark of the
    skipped: a file without extension, no documentation block, and a name
    on the exempt list. *)
Definition skipped (ext : externals) (o : options)
    (module_map : gmap string string) (module : string) : bool :=
  match module_map !! module with
  | Some fname =>
      negb (has "." (basename fname)) &&
      match (get_docstring ext fname (verbose o)).1 with
      | None => true
      | Some _ => false
      end &&
      bool_decide (module ∈ BLACKLIST_MODULES ext)
  | None => false
  end.

(** The lines that [process_category] writes before the loop. *)
Definition heading (category : string) : list string :=
  let category := replace "_" " " category in
  let category := title category in
  let category_header := title category +:+ " Modules" in
  let underscores := repeat "`" (String.length category_header) in
  [category_header; LF; underscores; LF; ".. toctree::" +:+ LF].

(** The listing of a category that was processed to its end: the
    heading, and the lines of its modules that were not skipped, in the
    order of [sorted]. *)
Definition listing_of (ext : externals) (o : options) (category : string)
    (module_map : gmap string string) : list string :=
  (heading category ++
   (toctree_entry <$>
      filter (fun m => skipped ext o module_map m = false)
        (sorted (map_to_list module_map).*1)))%list.

End Toctree.

(** ** What the discoverer records *)

Module Discovery.
Import Str Formatter.

(** A path recorded under the names that it shows: the module is its last
    component, the category the one before; [found] tells where the path
    comes from. *)
Definition recorded (found : string -> Prop) (category module p : string)
  : Prop :=
  from_end 0 (split "/" p) = Some module /\
  from_end 1 (split "/" p) = Some category /\ found p.

(** A mapping of recorded paths, without an empty category. *)
Definition sound (found : string -> Prop)
    (categories : gmap string (gmap string string)) : Prop :=
  forall category module_map,
    categories !! category = Some module_map ->
    module_map <> ∅ /\
    forall module p,
      module_map !! module = Some p -> recorded found category module p.

End Discovery.

(** ** Numerals *)

Module Numerals.

(** A numeral is a string of digits: the float reader reads it to its
    end. *)
Definition numeral (s : string) : Prop := (Float.digits 0 0 s).2 = "".

(** The number that the float reader makes of the digits of [s]. *)
Definition number (s : string) : Z := (Float.digits 0 0 s).1.1.

End Numerals.

(** ** More to run the program on *)

Module Sample.
Import Str Py Formatter Tree.

(** The context of the page of [lib/net/a]. *)
Definition page : context :=
  <["plainexamples" := Given (Str "a: host=x")]>
    (<["ansible_version" := Given (Str "1.5")]>
       (<["now_date" := Given (Str "2014-01-01")]>
          (<["docuri" := Given (Str "a")]>
             (<["filename" := Given (Str "lib/net/a")]>
                (<["option_keys" := Keys ["host"; "port"]]>
                   (Given <$> Example.block)))))).

(** A block with a version and nothing else, and an extractor that finds
    it in every file. *)
Definition bare : doc := {["version_added" := Str "1.2"]}.

Definition bare_ext : externals :=
  {| get_docstring := fun _ _ => (Some bare, None);
     BLACKLIST_MODULES := BLACKLIST_MODULES Example.ext;
     get_template := get_template Example.ext;
     today := today Example.ext;
     EXAMPLE_YAML := EXAMPLE_YAML Example.ext;
     read_file := read_file Example.ext;
     can_open := can_open Example.ext;
     system := system Example.ext;
     MODULEDIR := MODULEDIR Example.ext |}.

(** A library of one category: a documented module, a file with an
    extension, and a module of the exempt list without documentation. *)
Definition shelf : node :=
  Dir [("net", Dir [("a", File); ("ping.ps1", File); ("async_wrapper", File)])].

Definition shelf_ext : externals := Example.mount shelf None.

(** A library whose one category has a name that [glob] reads as a
    pattern: the module [lib/a[b]/m]. *)
Definition brackets : node := Dir [("a[b]", Dir [("m", File)])].

(** The system calls on that library, written down as the interpreter
    answers them: [glob.glob("lib/*")] lists the category; for
    [glob.glob("lib/a[b]/*")] the directory part is expanded first, to the
    entries of [lib] that the pattern [a[b]] matches, which would be an entry
    [ab], and there is none. *)
Definition brackets_os : os :=
  {| glob := fun pattern =>
       if String.eqb pattern "lib/*" then ["lib/a[b]"] else [];
     isdir := fun path =>
       String.eqb path "lib" || String.eqb path "lib/a[b]";
     exists_ := fun path =>
       String.eqb path "lib" || String.eqb path "lib/a[b]"
       || String.eqb path "lib/a[b]/m" |}.

Definition brackets_ext : externals :=
  {| get_docstring := get_docstring Example.ext;
     BLACKLIST_MODULES := BLACKLIST_MODULES Example.ext;
     get_template := get_template Example.ext;
     today := today Example.ext;
     EXAMPLE_YAML := EXAMPLE_YAML Example.ext;
     read_file := read_file Example.ext;
     can_open := can_open Example.ext;
     system := brackets_os;
     MODULEDIR := MODULEDIR Example.ext |}.

End Sample.

(** * Properties *)

(** ** Facts on byte strings *)

Module StrFacts.
Import Str.

Lemma append_nil_r (s : string) : s +:+ "" = s.
Proof. induction s as [|c s IH]; simpl; [done | by f_equal]. Qed.

Lemma append_assoc (a b c : string) : (a +:+ b) +:+ c = a +:+ (b +:+ c).
Proof. induction a as [|x a IH]; simpl; [done | by f_equal]. Qed.

Lemma length_append (a b : string) :
  String.length (a +:+ b) = String.length a + String.length b.
Proof. induction a as [|x a IH]; simpl; [done | by f_equal]. Qed.

Lemma drop_app (a b : string) : drop (String.length a) (a +:+ b) = b.
Proof. induction a as [|x a IH]; simpl; [by destruct b | done]. Qed.

Lemma drop_app_S (a : string) (c : ascii) (b : string) :
  drop (S (String.length a)) (a +:+ String c b) = b.
Proof. induction a as [|x a IH]; simpl; [by destruct b | done]. Qed.

Lemma has_app (c : ascii) (a b : string) :
  has c (a +:+ b) = has c a || has c b.
Proof.
  induction a as [|x a IH]; simpl; [done |].
  by rewrite IH, orb_assoc.
Qed.

Lemma replace_app (o : ascii) (n a b : string) :
  replace o n (a +:+ b) = replace o n a +:+ replace o n b.
Proof.
  induction a as [|x a IH]; simpl; [done |].
  destruct (Ascii.eqb x o); simpl; rewrite IH; [by rewrite append_assoc | done].
Qed.

Lemma replace_absent (o : ascii) (n s : string) :
  has o s = false -> replace o n s = s.
Proof.
  induction s as [|x s IH]; simpl; [done |].
  intros [Hx Hs]%orb_false_elim. rewrite Hx. by rewrite IH.
Qed.

Lemma split_absent (sep : ascii) (s : string) :
  has sep s = false -> split sep s = [s].
Proof.
  induction s as [|c s IH]; [done |]. simpl.
  intros [-> Hs]%orb_false_elim. by rewrite (IH Hs).
Qed.

Lemma split_present (sep : ascii) (s : string) :
  has sep s = true ->
  exists t0 t1 ts, split sep s = t0 :: t1 :: ts.
Proof.
  induction s as [|c s IH]; [done |]. simpl.
  destruct (Ascii.eqb c sep); simpl.
  - intros _. destruct (split sep s) as [|t ts] eqn:Hs; [|by eauto].
    by destruct s; simpl in Hs; [|destruct (Ascii.eqb _ _), (split sep _)].
  - intros Hs. destruct (IH Hs) as (t0 & t1 & ts & ->). by eauto.
Qed.

End StrFacts.

(** ** Facts on the scanner *)

Module MarkupFacts.
Import Str StrFacts Markup.

Lemma group_sound (s x a : string) :
  group s = Some (x, a) -> s = x +:+ String ")" a /\ has ")" x = false.
Proof.
  revert x a. induction s as [|c s IH]; intros x a; simpl; [done |].
  destruct (Ascii.eqb_spec c ")") as [->|Hc].
  - intros [= <- <-]. done.
  - destruct (group s) as [[x' a']|]; [|done].
    intros [= <- <-]. destruct (IH _ _ eq_refl) as [-> Hx].
    split; [done |]. simpl. rewrite Hx.
    by apply Ascii.eqb_neq in Hc as ->.
Qed.

Lemma group_complete (x a : string) :
  has ")" x = false -> group (x +:+ String ")" a) = Some (x, a).
Proof.
  induction x as [|c x IH]; simpl; [done |].
  intros [Hc Hx]%orb_false_elim. rewrite Hc, (IH Hx). done.
Qed.

Lemma group_unclosed (s : string) : has ")" s = false -> group s = None.
Proof.
  induction s as [|c s IH]; simpl; [done |].
  intros [Hc Hs]%orb_false_elim. by rewrite Hc, (IH Hs).
Qed.

Lemma match_at_sound (p : pattern) (s x a : string) :
  match_at p s = Some (x, a) ->
  s = String p (String "(" (x +:+ String ")" a)) /\
  x <> "" /\ has ")" x = false.
Proof.
  destruct s as [|c [|o r]]; simpl; try done.
  destruct (Ascii.eqb_spec c p) as [->|]; [|done].
  destruct (Ascii.eqb_spec o "(") as [->|]; [|done]. simpl.
  destruct (group r) as [[[|x0 x'] a']|] eqn:Hg; try done.
  intros [= <- <-]. apply group_sound in Hg as [-> Hx]. done.
Qed.

Lemma match_at_complete (p : pattern) (x a : string) :
  x <> "" -> has ")" x = false ->
  match_at p (String p (String "(" (x +:+ String ")" a))) = Some (x, a).
Proof.
  intros Hne Hx. simpl. rewrite Ascii.eqb_refl. simpl.
  rewrite (group_complete _ _ Hx). by destruct x.
Qed.

Lemma sub_from_skip (p : pattern) (r : template) (k : nat) (s : string) :
  sub_from p r k s = sub p r (drop k s).
Proof.
  revert k. induction s as [|c s IH]; intros [|k]; try done.
  simpl. by rewrite IH.
Qed.

Lemma group_none_has (s : string) : group s = None -> has ")" s = false.
Proof.
  induction s as [|c s IH]; simpl; [done |].
  destruct (Ascii.eqb c ")"); [done |]. simpl.
  destruct (group s) as [[? ?]|]; [done | auto].
Qed.

Lemma match_at_open_none (p : pattern) (r : string) :
  match_at p (String p (String "(" r)) = None <->
  group r = None \/ exists a, r = String ")" a.
Proof.
  simpl. rewrite Ascii.eqb_refl. simpl.
  destruct (group r) as [[[|x0 x] a]|] eqn:Hg.
  - apply group_sound in Hg as [-> _]. simpl. split; eauto.
  - apply group_sound in Hg as [-> Hx]. simpl in *.
    split; [done |]. intros [|[b [= -> _]]]; [done |].
    by rewrite Ascii.eqb_refl in Hx.
  - split; eauto.
Qed.

(** The scan, one position at a time. *)
Lemma sub_nil (p : pattern) (r : template) : sub p r "" = "".
Proof. done. Qed.

Lemma sub_cons (p : pattern) (r : template) (c : ascii) (rest : string) :
  sub p r (String c rest) =
  match match_at p (String c rest) with
  | Some (x, a) => expand r x +:+ sub p r a
  | None => String c (sub p r rest)
  end.
Proof.
  unfold sub at 1. cbn [sub_from].
  destruct (match_at p (String c rest)) as [[x a]|] eqn:Hm; [|done].
  rewrite sub_from_skip. do 2 f_equal.
  apply match_at_sound in Hm as ([= _ ->] & _ & _).
  apply (drop_app_S x ")" a).
Qed.

End MarkupFacts.

(** ** Facts on simultaneous substitution *)

Module OnePassFacts.
Import Str StrFacts Markup MarkupFacts OnePass.

Lemma scan_from_skip (f : table) (k : nat) (s : string) :
  scan_from f k s = scan f (drop k s).
Proof.
  revert k. induction s as [|c s IH]; intros [|k]; try done.
  simpl. by rewrite IH.
Qed.

Lemma scan_cons (f : table) (c : ascii) (rest : string) :
  scan f (String c rest) =
  match tlookup f c, match_at c (String c rest) with
  | Some r, Some (x, a) => expand r x +:+ scan f a
  | _, _ => String c (scan f rest)
  end.
Proof.
  unfold scan at 1. cbn [scan_from].
  destruct (tlookup f c) as [r|]; [|done].
  destruct (match_at c (String c rest)) as [[x a]|] eqn:Hm; [|done].
  rewrite scan_from_skip. do 2 f_equal.
  apply match_at_sound in Hm as ([= ->] & _ & _).
  apply (drop_app_S x ")" a).
Qed.

Lemma match_at_letter (p c : ascii) (rest : string) :
  c <> p -> match_at p (String c rest) = None.
Proof.
  intros Hc. destruct rest as [|o r]; simpl; [done |].
  by apply Ascii.eqb_neq in Hc as ->.
Qed.

Lemma match_at_starts (p c : ascii) (rest : string) :
  starts "(" rest = false -> match_at p (String c rest) = None.
Proof.
  destruct rest as [|o r]; simpl; [done |].
  intros ->. by rewrite andb_false_r.
Qed.

(** A single pass is the scan of a one-line table. *)
Lemma sub_scan (p : pattern) (r : template) (s : string) :
  sub p r s = scan [(p, r)] s.
Proof.
  unfold sub, scan. generalize 0.
  induction s as [|c s IH]; intros k; [done |].
  cbn [sub_from scan_from tlookup]. destruct k as [|k]; [|apply IH].
  destruct (Ascii.eqb_spec c p) as [->|Hc].
  - destruct (match_at p (String p s)) as [[x a]|]; by rewrite IH.
  - rewrite (match_at_letter _ _ _ Hc). by rewrite IH.
Qed.

Lemma scan_plain (f : table) (s : string) :
  has "(" s = false -> scan f s = s.
Proof.
  induction s as [|c s IH]; [done |].
  cbn [has]. intros [Hc Hs]%orb_false_elim.
  rewrite scan_cons, match_at_starts, (IH Hs).
  - by destruct (tlookup f c).
  - destruct s as [|d s]; [done |]. simpl in *.
    by apply orb_false_elim in Hs as [-> _].
Qed.

Lemma scan_app_plain (f : table) (a b : string) :
  has "(" a = false -> starts "(" b = false ->
  scan f (a +:+ b) = a +:+ scan f b.
Proof.
  intros Ha Hb. induction a as [|c a IH]; [done |].
  cbn [has] in Ha. apply orb_false_elim in Ha as [Hc Ha].
  change (String c a +:+ b) with (String c (a +:+ b)).
  rewrite scan_cons, match_at_starts, (IH Ha).
  - by destruct (tlookup f c).
  - destruct a as [|d a]; [done |]. simpl in *.
    by apply orb_false_elim in Ha as [-> _].
Qed.

Lemma string_len_ind (P : string -> Prop) :
  (forall s, (forall t, String.length t < String.length s -> P t) -> P s) ->
  forall s, P s.
Proof.
  intros step s. remember (String.length s) as n eqn:Hn.
  revert s Hn. induction (lt_wf n) as [n _ IH]. intros s ->.
  apply step. intros t Ht. by apply (IH (String.length t)).
Qed.

Lemma starts_app (c : ascii) (a b : string) :
  has c a = false -> starts c b = false -> starts c (a +:+ b) = false.
Proof.
  destruct a as [|d a]; [done |]. simpl. by intros [-> _]%orb_false_elim.
Qed.

Lemma has_starts (c : ascii) (s : string) :
  has c s = false -> starts c s = false.
Proof. destruct s as [|d s]; [done |]. simpl. by intros [-> _]%orb_false_elim. Qed.

(** *** Flat text *)

Lemma flat_tail (m : mode) (c : ascii) (rest : string) :
  flat_from m (String c rest) = true -> exists m', flat_from m' rest = true.
Proof.
  simpl. destruct (Ascii.eqb c "("); [|destruct (Ascii.eqb c ")")];
    destruct m as [[]|]; eauto; done.
Qed.

Lemma flat_in_starts (s : string) :
  flat_from In s = true -> starts "(" s = false.
Proof. destruct s as [|c s]; [done |]. simpl. by destruct (Ascii.eqb c "("). Qed.

Lemma flat_after_close (s : string) :
  flat_from (Out true) s = true -> starts "(" s = false.
Proof. destruct s as [|c s]; [done |]. simpl. by destruct (Ascii.eqb c "("). Qed.

Lemma flat_in_group (x a : string) :
  has ")" x = false -> flat_from In (x +:+ String ")" a) = true ->
  has "(" x = false /\ flat_from (Out true) a = true.
Proof.
  induction x as [|c x IH]; simpl; [done |].
  intros [Hc Hx]%orb_false_elim. rewrite Hc.
  destruct (Ascii.eqb c "("); [done |]. simpl. by apply IH.
Qed.

Lemma flat_in_unclosed (s : string) :
  has ")" s = false -> flat_from In s = true -> has "(" s = false.
Proof.
  induction s as [|c s IH]; simpl; [done |].
  intros [Hc Hs]%orb_false_elim. rewrite Hc.
  destruct (Ascii.eqb c "("); [done |]. simpl. by apply IH.
Qed.

(** A marker in flat text: its group holds no parenthesis and the text
    after it is flat and does not open one. *)
Lemma flat_marker (m : mode) (c : ascii) (x a : string) :
  c <> "("%char -> c <> ")"%char -> has ")" x = false ->
  flat_from m (String c (String "(" (x +:+ String ")" a))) = true ->
  has "(" x = false /\ flat_from (Out true) a = true.
Proof.
  intros H1%Ascii.eqb_neq H2%Ascii.eqb_neq Hx. cbn [flat_from].
  rewrite H1, H2. destruct m as [b|]; simpl; [|done].
  by apply flat_in_group.
Qed.

(** *** Tables *)

Lemma expand_closed (t : template) (x : string) :
  closed_tpl t = true -> has "(" x = false -> has "(" (expand t x) = false.
Proof.
  intros Ht Hx. induction t as [|[l|] t IH]; simpl in *; [done | |].
  - apply andb_prop in Ht as [Hl Ht]. rewrite has_app, (IH Ht).
    by apply negb_true_iff in Hl as ->.
  - by rewrite has_app, Hx, IH.
Qed.

Lemma tlookup_ok (f : table) (c : ascii) (t : template) :
  table_ok f = true -> tlookup f c = Some t ->
  closed_tpl t = true /\ c <> "("%char /\ c <> ")"%char.
Proof.
  induction f as [|[p r] f IH]; simpl; [done |].
  intros H.
  repeat match goal with H : _ && _ = true |- _ => apply andb_prop in H as [? ?] end.
  destruct (Ascii.eqb_spec c p) as [->|]; [|by apply IH].
  intros [= <-]. split; [done |].
  split; apply Ascii.eqb_neq, negb_true_iff; done.
Qed.

Lemma tlookup_open (f : table) : table_ok f = true -> tlookup f "(" = None.
Proof.
  intros Hf. destruct (tlookup f "(") as [t|] eqn:Ht; [|done].
  by destruct (tlookup_ok _ _ _ Hf Ht) as (_ & ? & _).
Qed.

Lemma tlookup_close (f : table) : table_ok f = true -> tlookup f ")" = None.
Proof.
  intros Hf. destruct (tlookup f ")") as [t|] eqn:Ht; [|done].
  by destruct (tlookup_ok _ _ _ Hf Ht) as (_ & _ & ?).
Qed.

Lemma table_ok_cons (p : pattern) (r : template) (f : table) :
  table_ok ((p, r) :: f) = true ->
  p <> "("%char /\ p <> ")"%char /\ tlookup f p = None /\
  closed_tpl r = true /\ table_ok f = true.
Proof.
  simpl. intros H.
  repeat match goal with H : _ && _ = true |- _ => apply andb_prop in H as [? ?] end.
  destruct (tlookup f p); [done |].
  repeat split; try done; apply Ascii.eqb_neq, negb_true_iff; done.
Qed.

(** *** One pass after a scan *)

Section Pass.
Variable f : table.
Hypothesis f_ok : table_ok f = true.

(** The scan of flat text that opens no parenthesis opens none. *)
Lemma starts_scan (s : string) (m : mode) :
  flat_from m s = true -> starts "(" s = false ->
  starts "(" (scan f s) = false.
Proof.
  revert m. induction s as [s IH] using string_len_ind. intros m Hflat Hs.
  destruct s as [|c rest]; [done |]. rewrite scan_cons.
  destruct (tlookup f c) as [t|] eqn:Ht; [|done].
  destruct (match_at c (String c rest)) as [[x a]|] eqn:Hm; [|done].
  destruct (tlookup_ok _ _ _ f_ok Ht) as (Hcl & Hc1 & Hc2).
  apply match_at_sound in Hm as (Heq & _ & Hx).
  rewrite Heq in Hflat.
  destruct (flat_marker _ _ _ _ Hc1 Hc2 Hx Hflat) as [Hx' Ha].
  apply starts_app; [by apply expand_closed |].
  apply (IH a) with (m := Out true); [|done | by apply flat_after_close].
  injection Heq as ->. simpl. rewrite length_append. simpl. lia.
Qed.

(** Where the pattern of [p] does not match, it does not match after the
    scan either. *)
Lemma no_match_scan (p : pattern) (rest : string) (m : mode) :
  flat_from m rest = true ->
  match_at p (String p rest) = None ->
  match_at p (String p (scan f rest)) = None.
Proof.
  intros Hflat Hm. destruct rest as [|o rest']; [done |].
  destruct (Ascii.eqb_spec o "(") as [->|Ho].
  - assert (Hin : flat_from In rest' = true).
    { simpl in Hflat. by destruct m as [[]|]. }
    rewrite scan_cons, (tlookup_open _ f_ok).
    apply match_at_open_none in Hm as [Hg|[a ->]].
    + apply group_none_has in Hg.
      rewrite scan_plain by by apply flat_in_unclosed.
      apply match_at_open_none. left. by apply group_unclosed.
    + rewrite scan_cons, (tlookup_close _ f_ok).
      apply match_at_open_none. eauto.
  - apply match_at_starts. apply starts_scan with (m := m); [done |].
    simpl. by apply Ascii.eqb_neq.
Qed.

(** A pass for a fresh letter after the scan of a table is the scan of the
    table with that letter added. *)
Lemma scan_pass (p : pattern) (r : template) (s : string) (m : mode) :
  table_ok ((p, r) :: f) = true -> flat_from m s = true ->
  sub p r (scan f s) = scan ((p, r) :: f) s.
Proof.
  intros (Hp1 & Hp2 & Hfresh & Hr & _)%table_ok_cons.
  rewrite sub_scan. revert m.
  induction s as [s IH] using string_len_ind. intros m Hflat.
  destruct s as [|c rest]; [done |].
  rewrite (scan_cons ((p, r) :: f)), (scan_cons f). cbn [tlookup].
  destruct (flat_tail _ _ _ Hflat) as [m' Hrest].
  destruct (Ascii.eqb_spec c p) as [->|Hc].
  - rewrite Hfresh.
    destruct (match_at p (String p rest)) as [[x a]|] eqn:Hm.
    + apply match_at_sound in Hm as (Heq & Hne & Hx).
      rewrite Heq in Hflat.
      destruct (flat_marker _ _ _ _ Hp1 Hp2 Hx Hflat) as [Hx' Ha].
      injection Heq as ->.
      rewrite (scan_cons f), (tlookup_open _ f_ok).
      rewrite (scan_app_plain f) by done.
      rewrite (scan_cons f), (tlookup_close _ f_ok).
      rewrite scan_cons. cbn [tlookup]. rewrite Ascii.eqb_refl.
      rewrite (match_at_complete _ _ _ Hne Hx). f_equal.
      apply (IH a) with (m := Out true); [|done].
      simpl. rewrite length_append. simpl. lia.
    + rewrite scan_cons. cbn [tlookup]. rewrite Ascii.eqb_refl.
      rewrite (no_match_scan _ _ _ Hrest Hm). f_equal.
      apply (IH rest) with (m := m'); [simpl; lia | done].
  - destruct (tlookup f c) as [t|] eqn:Ht;
      [destruct (match_at c (String c rest)) as [[x a]|] eqn:Hm |].
    + destruct (tlookup_ok _ _ _ f_ok Ht) as (Hcl & Hc1 & Hc2).
      apply match_at_sound in Hm as (Heq & _ & Hx).
      rewrite Heq in Hflat.
      destruct (flat_marker _ _ _ _ Hc1 Hc2 Hx Hflat) as [Hx' Ha].
      rewrite scan_app_plain.
      * f_equal. apply (IH a) with (m := Out true); [|done].
        injection Heq as ->. simpl. rewrite length_append. simpl. lia.
      * by apply expand_closed.
      * apply starts_scan with (m := Out true); [done |].
        by apply flat_after_close.
    + rewrite scan_cons. cbn [tlookup].
      apply Ascii.eqb_neq in Hc as ->. f_equal.
      apply (IH rest) with (m := m'); [simpl; lia | done].
    + rewrite scan_cons. cbn [tlookup].
      apply Ascii.eqb_neq in Hc as ->. f_equal.
      apply (IH rest) with (m := m'); [simpl; lia | done].
Qed.

End Pass.

Lemma scan_nil (s : string) : scan [] s = s.
Proof.
  induction s as [|c s IH]; [done |]. rewrite scan_cons. simpl. by f_equal.
Qed.

(** The passes of a table of marker letters, run one after the other on
    flat text, amount to one simultaneous scan. *)
Lemma passes_scan (f : table) (s : string) :
  table_ok f = true -> flat s = true -> passes f s = scan f s.
Proof.
  intros Hf Hs. induction f as [|[p r] f IH]; simpl; [by rewrite scan_nil |].
  pose proof (table_ok_cons _ _ _ Hf) as (_ & _ & _ & _ & Hf').
  rewrite (IH Hf'). by apply scan_pass with (m := Out false).
Qed.

Lemma scan_from_ext (f g : table) (k : nat) (s : string) :
  (forall c, tlookup f c = tlookup g c) -> scan_from f k s = scan_from g k s.
Proof.
  intros Hfg. revert k. induction s as [|c s IH]; intros k; [done |].
  cbn [scan_from]. destruct k as [|k]; [|apply IH].
  rewrite Hfg. destruct (tlookup g c); [|by rewrite IH].
  destruct (match_at c (String c s)) as [[x a]|]; by rewrite IH.
Qed.

Lemma table_ok_intro (p : pattern) (r : template) (f : table) :
  p <> "("%char -> p <> ")"%char -> tlookup f p = None ->
  closed_tpl r = true -> table_ok f = true ->
  table_ok ((p, r) :: f) = true.
Proof.
  intros H1%Ascii.eqb_neq H2%Ascii.eqb_neq H3 H4 H5. simpl.
  by rewrite H1, H2, H3, H4, H5.
Qed.

Lemma table_perm (f g : table) :
  f ≡ₚ g -> table_ok f = true ->
  table_ok g = true /\ forall c, tlookup f c = tlookup g c.
Proof.
  induction 1 as [|[p r] f g Hp IH|[p r] [q t] f|f g h Hfg IH1 Hgh IH2].
  - done.
  - intros (Hp1 & Hp2 & Hfresh & Hr & Hf)%table_ok_cons.
    destruct (IH Hf) as [Hg Heq]. split.
    + apply table_ok_intro; try done. by rewrite <- Heq.
    + intros c. simpl. by rewrite Heq.
  - intros (Hq1 & Hq2 & Hfresh & Ht & Hf)%table_ok_cons.
    apply table_ok_cons in Hf as (Hp1 & Hp2 & Hfresh' & Hr & Hf).
    simpl in Hfresh. destruct (Ascii.eqb_spec q p) as [|Hqp]; [done |].
    split.
    + apply table_ok_intro; try done.
      * simpl. by assert (p <> q) as ->%Ascii.eqb_neq by congruence.
      * by apply table_ok_intro.
    + intros c. simpl.
      destruct (Ascii.eqb_spec c q) as [Hcq|], (Ascii.eqb_spec c p) as [Hcp|];
        congruence.
  - intros Hf. destruct (IH1 Hf) as [Hg H1]. destruct (IH2 Hg) as [Hh H2].
    split; [done |]. intros c. by rewrite H1.
Qed.

(** The order of the passes does not matter on flat text. *)
Lemma passes_perm (f g : table) (s : string) :
  f ≡ₚ g -> table_ok f = true -> flat s = true -> passes g s = passes f s.
Proof.
  intros Hp Hf Hs. destruct (table_perm _ _ Hp Hf) as [Hg Heq].
  rewrite !passes_scan by done. symmetry. by apply scan_from_ext.
Qed.

(** *** One marker in plain text *)

Lemma flat_plain (m : mode) (s : string) :
  has "(" s = false -> flat_from m s = true.
Proof.
  revert m. induction s as [|c s IH]; intros m; simpl; [done |].
  intros [-> Hs]%orb_false_elim.
  destruct (Ascii.eqb c ")"); [by apply IH |]. destruct m; by apply IH.
Qed.

Lemma flat_one_marker (q : ascii) (pre x post : string) (b : bool) :
  q <> "("%char -> q <> ")"%char ->
  has "(" pre = false -> has "(" x = false -> has "(" post = false ->
  flat_from (Out b) (pre +:+ String q (String "(" (x +:+ String ")" post))) = true.
Proof.
  intros Hq1%Ascii.eqb_neq Hq2%Ascii.eqb_neq Hpre Hx Hpost. revert b.
  induction pre as [|c pre IH]; intros b.
  - cbn [String.append flat_from]. rewrite Hq1, Hq2, Ascii.eqb_refl.
    clear -Hx Hpost. induction x as [|c x IH]; simpl.
    + by apply flat_plain.
    + simpl in Hx. apply orb_false_elim in Hx as [-> Hx].
      destruct (Ascii.eqb c ")"); [|by apply IH].
      apply flat_plain. by rewrite has_app, Hx.
  - simpl in Hpre. apply orb_false_elim in Hpre as [Hc Hpre].
    cbn [String.append flat_from]. rewrite Hc.
    destruct (Ascii.eqb c ")"); by apply IH.
Qed.

Lemma scan_one_marker (f : table) (q : ascii) (t : template)
    (pre x post : string) :
  tlookup f q = Some t -> q <> "("%char ->
  has "(" pre = false -> x <> "" -> has ")" x = false ->
  has "(" post = false ->
  scan f (pre +:+ String q (String "(" (x +:+ String ")" post))) =
  pre +:+ expand t x +:+ post.
Proof.
  intros Hq Hq1 Hpre Hne Hx Hpost.
  rewrite scan_app_plain; [|done | by apply Ascii.eqb_neq].
  rewrite scan_cons, Hq, (match_at_complete _ _ _ Hne Hx).
  by rewrite scan_plain.
Qed.

(** *** Escaping *)

Lemma cgi_escape_cons (c : ascii) (r : string) :
  cgi_escape (String c r) = escape_char c +:+ cgi_escape r.
Proof.
  unfold cgi_escape, escape_char. cbn [replace].
  destruct (Ascii.eqb_spec c "&") as [->|H1]; [by simpl |].
  cbn [replace].
  destruct (Ascii.eqb_spec c "<") as [->|H2]; [by simpl |].
  cbn [replace].
  by destruct (Ascii.eqb_spec c ">") as [->|H3]; simpl.
Qed.

Lemma cgi_escape_app (a b : string) :
  cgi_escape (a +:+ b) = cgi_escape a +:+ cgi_escape b.
Proof. unfold cgi_escape. by rewrite !replace_app. Qed.

Lemma cgi_escape_escaped (s : string) : escaped (cgi_escape s) = true.
Proof.
  induction s as [|c s IH]; [done |].
  rewrite cgi_escape_cons. unfold escape_char.
  destruct (Ascii.eqb_spec c "&") as [->|H1]; [by simpl |].
  destruct (Ascii.eqb_spec c "<") as [->|H2]; [by simpl |].
  destruct (Ascii.eqb_spec c ">") as [->|H3]; [by simpl |].
  simpl. apply Ascii.eqb_neq in H1 as ->. apply Ascii.eqb_neq in H2 as ->.
  by apply Ascii.eqb_neq in H3 as ->.
Qed.

Lemma replace_has (c o : ascii) (n s : string) :
  c <> o -> has c n = false -> has c (replace o n s) = has c s.
Proof.
  intros Hco Hn. induction s as [|d s IH]; [done |]. cbn [replace has].
  destruct (Ascii.eqb_spec d o) as [->|Hd].
  - rewrite has_app, Hn, IH.
    by assert (o <> c) as ->%Ascii.eqb_neq by congruence.
  - cbn [has]. by rewrite IH.
Qed.

Lemma cgi_escape_open (s : string) : has "(" (cgi_escape s) = has "(" s.
Proof. unfold cgi_escape. by rewrite !replace_has. Qed.

Lemma cgi_escape_close (s : string) : has ")" (cgi_escape s) = has ")" s.
Proof. unfold cgi_escape. by rewrite !replace_has. Qed.

Lemma cgi_escape_nonempty (s : string) : s <> "" -> cgi_escape s <> "".
Proof.
  destruct s as [|c s]; [done |]. intros _. rewrite cgi_escape_cons.
  unfold escape_char.
  by destruct (Ascii.eqb c "&"), (Ascii.eqb c "<"), (Ascii.eqb c ">").
Qed.

(** *** Tidy text *)

Lemma group_closed (s : string) :
  has ")" s = true -> exists x a, group s = Some (x, a).
Proof.
  intros Hs. destruct (group s) as [[x a]|] eqn:Hg; [by eauto |].
  apply group_none_has in Hg. congruence.
Qed.

Section Tidy.
Variable letter : ascii -> bool.

Lemma tidy_tail (st : place) (c : ascii) (rest : string) :
  tidy_from letter st (String c rest) = true ->
  exists st', tidy_from letter st' rest = true.
Proof.
  simpl. destruct (Ascii.eqb c "("); [|destruct (Ascii.eqb c ")")];
    destruct st as [[]|]; eauto; done.
Qed.

Lemma tidy_inside_starts (s : string) :
  tidy_from letter Inside s = true -> starts "(" s = false.
Proof. destruct s as [|c s]; [done |]. simpl. by destruct (Ascii.eqb c "("). Qed.

Lemma tidy_closed_starts (s : string) :
  tidy_from letter (Outside Closed) s = true -> starts "(" s = false.
Proof. destruct s as [|c s]; [done |]. simpl. by destruct (Ascii.eqb c "("). Qed.

Lemma tidy_closed (s : string) :
  tidy_from letter (Outside Closed) s = true ->
  tidy_from letter (Outside Other) s = true.
Proof.
  destruct s as [|c s]; [done |]. simpl.
  destruct (Ascii.eqb c "("); [done |]. by destruct (Ascii.eqb c ")").
Qed.

Lemma tidy_inside_group (x a : string) :
  has ")" x = false -> tidy_from letter Inside (x +:+ String ")" a) = true ->
  has "(" x = false /\ tidy_from letter (Outside Closed) a = true.
Proof.
  induction x as [|c x IH]; simpl; [done |].
  intros [Hc Hx]%orb_false_elim. rewrite Hc.
  destruct (Ascii.eqb c "("); [done |]. simpl. by apply IH.
Qed.

Lemma tidy_inside_unclosed (s : string) :
  has ")" s = false -> tidy_from letter Inside s = true -> has "(" s = false.
Proof.
  induction s as [|c s IH]; simpl; [done |].
  intros [Hc Hs]%orb_false_elim. rewrite Hc.
  destruct (Ascii.eqb c "("); [done |]. simpl. by apply IH.
Qed.

(** After a marker letter an opening parenthesis opens a marker. *)
Lemma tidy_open (st : place) (c : ascii) (rest : string) :
  letter c = true -> c <> "("%char -> c <> ")"%char ->
  tidy_from letter st (String c (String "(" rest)) = true ->
  tidy_from letter Inside rest = true.
Proof.
  intros Hl H1%Ascii.eqb_neq H2%Ascii.eqb_neq. cbn [tidy_from].
  rewrite H1, H2, Hl, Ascii.eqb_refl. by destruct st as [[]|].
Qed.

(** A marker in tidy text: its group holds no opening parenthesis, and
    the text after it is tidy and does not open one. *)
Lemma tidy_marker (st : place) (c : ascii) (x a : string) :
  letter c = true -> c <> "("%char -> c <> ")"%char -> has ")" x = false ->
  tidy_from letter st (String c (String "(" (x +:+ String ")" a))) = true ->
  has "(" x = false /\ tidy_from letter (Outside Closed) a = true.
Proof.
  intros Hl H1 H2 Hx Ht. apply tidy_inside_group; [done |].
  by apply (tidy_open st c).
Qed.

(** Inside a marker that is not closed no other marker can open. *)
Lemma tidy_inside_marker (p : string) (q : ascii) (s : string) :
  q <> ")"%char -> has ")" p = false ->
  tidy_from letter Inside (p +:+ String q (String "(" s)) = false.
Proof.
  intros Hq%Ascii.eqb_neq. induction p as [|c p IH]; simpl.
  - intros _. destruct (Ascii.eqb q "("); [done |]. by rewrite Hq.
  - intros [Hc Hp]%orb_false_elim. rewrite Hc.
    destruct (Ascii.eqb c "("); [done | by apply IH].
Qed.

Lemma tidy_prefix (st : place) (a b : string) :
  tidy_from letter st (a +:+ b) = true -> tidy_from letter st a = true.
Proof.
  revert st. induction a as [|c a IH]; intros st; [done |].
  cbn [String.append tidy_from].
  destruct (Ascii.eqb c "("); [destruct st as [[]|]; auto |].
  destruct (Ascii.eqb c ")"); destruct st; auto.
Qed.

Lemma tidy_suffix (st : place) (a b : string) :
  tidy_from letter st (a +:+ b) = true ->
  exists st', tidy_from letter st' b = true.
Proof.
  revert st. induction a as [|c a IH]; intros st; [by eauto |].
  intros [st' H]%tidy_tail. by apply (IH st').
Qed.

(** Flat text is tidy. *)
Lemma flat_tidy (m : mode) (st : place) (s : string) :
  match m with
  | In => st <> Outside Closed
  | Out true => st <> Inside
  | Out false => st <> Inside /\ st <> Outside Closed
  end ->
  flat_from m s = true -> tidy_from letter st s = true.
Proof.
  revert m st. induction s as [|c s IH]; intros m st HR; [done |].
  cbn [flat_from tidy_from].
  destruct (Ascii.eqb c "(").
  - destruct m as [[]|]; try done. intros H. destruct HR as [H1 H2].
    destruct st as [[]|]; try congruence; by apply (IH In).
  - destruct (Ascii.eqb c ")").
    + intros H. destruct st as [l|]; by apply (IH (Out true)); [simpl |].
    + destruct m as [b|]; intros H.
      * destruct st as [l|].
        -- apply (IH (Out false)); [|done].
           by destruct (letter c).
        -- destruct b; [congruence | destruct HR; congruence].
      * destruct st as [l|]; apply (IH In); try done.
        by destruct (letter c).
Qed.

Section TidyPass.
Variable f : table.
Hypothesis f_ok : table_ok f = true.
Hypothesis f_letters : forall c t, tlookup f c = Some t -> letter c = true.

Lemma starts_scan_tidy (s : string) (st : place) :
  tidy_from letter st s = true -> starts "(" s = false ->
  starts "(" (scan f s) = false.
Proof.
  revert st. induction s as [s IH] using string_len_ind. intros st Htidy Hs.
  destruct s as [|c rest]; [done |]. rewrite scan_cons.
  destruct (tlookup f c) as [t|] eqn:Ht; [|done].
  destruct (match_at c (String c rest)) as [[x a]|] eqn:Hm; [|done].
  destruct (tlookup_ok _ _ _ f_ok Ht) as (Hcl & Hc1 & Hc2).
  apply match_at_sound in Hm as (Heq & _ & Hx).
  rewrite Heq in Htidy.
  destruct (tidy_marker _ _ _ _ (f_letters _ _ Ht) Hc1 Hc2 Hx Htidy) as [Hx' Ha].
  apply starts_app; [by apply expand_closed |].
  apply (IH a) with (st := Outside Closed); [|done | by apply tidy_closed_starts].
  injection Heq as ->. simpl. rewrite length_append. simpl. lia.
Qed.

Lemma no_match_scan_tidy (p : pattern) (rest : string) (st : place) :
  letter p = true -> p <> "("%char -> p <> ")"%char ->
  tidy_from letter st (String p rest) = true ->
  match_at p (String p rest) = None ->
  match_at p (String p (scan f rest)) = None.
Proof.
  intros Hl Hp1 Hp2 Htidy Hm. destruct rest as [|o rest']; [done |].
  destruct (Ascii.eqb_spec o "(") as [->|Ho].
  - pose proof (tidy_open _ _ _ Hl Hp1 Hp2 Htidy) as Hin.
    rewrite scan_cons, (tlookup_open _ f_ok).
    apply match_at_open_none in Hm as [Hg|[a ->]].
    + apply group_none_has in Hg.
      rewrite scan_plain by by apply tidy_inside_unclosed.
      apply match_at_open_none. left. by apply group_unclosed.
    + rewrite scan_cons, (tlookup_close _ f_ok).
      apply match_at_open_none. eauto.
  - destruct (tidy_tail _ _ _ Htidy) as [st' Hrest].
    apply match_at_starts. apply starts_scan_tidy with (st := st'); [done |].
    simpl. by apply Ascii.eqb_neq.
Qed.

Lemma scan_pass_tidy (p : pattern) (r : template) (s : string) (st : place) :
  letter p = true ->
  table_ok ((p, r) :: f) = true -> tidy_from letter st s = true ->
  sub p r (scan f s) = scan ((p, r) :: f) s.
Proof.
  intros Hl (Hp1 & Hp2 & Hfresh & Hr & _)%table_ok_cons.
  rewrite sub_scan. revert st.
  induction s as [s IH] using string_len_ind. intros st Htidy.
  destruct s as [|c rest]; [done |].
  rewrite (scan_cons ((p, r) :: f)), (scan_cons f). cbn [tlookup].
  destruct (tidy_tail _ _ _ Htidy) as [st' Hrest].
  destruct (Ascii.eqb_spec c p) as [->|Hc].
  - rewrite Hfresh.
    destruct (match_at p (String p rest)) as [[x a]|] eqn:Hm.
    + apply match_at_sound in Hm as (Heq & Hne & Hx).
      rewrite Heq in Htidy.
      destruct (tidy_marker _ _ _ _ Hl Hp1 Hp2 Hx Htidy) as [Hx' Ha].
      injection Heq as ->.
      rewrite (scan_cons f), (tlookup_open _ f_ok).
      rewrite (scan_app_plain f) by done.
      rewrite (scan_cons f), (tlookup_close _ f_ok).
      rewrite scan_cons. cbn [tlookup]. rewrite Ascii.eqb_refl.
      rewrite (match_at_complete _ _ _ Hne Hx). f_equal.
      apply (IH a) with (st := Outside Closed); [|done].
      simpl. rewrite length_append. simpl. lia.
    + rewrite scan_cons. cbn [tlookup]. rewrite Ascii.eqb_refl.
      rewrite (no_match_scan_tidy _ _ _ Hl Hp1 Hp2 Htidy Hm). f_equal.
      apply (IH rest) with (st := st'); [simpl; lia | done].
  - destruct (tlookup f c) as [t|] eqn:Ht;
      [destruct (match_at c (String c rest)) as [[x a]|] eqn:Hm |].
    + destruct (tlookup_ok _ _ _ f_ok Ht) as (Hcl & Hc1 & Hc2).
      apply match_at_sound in Hm as (Heq & _ & Hx).
      rewrite Heq in Htidy.
      destruct (tidy_marker _ _ _ _ (f_letters _ _ Ht) Hc1 Hc2 Hx Htidy)
        as [Hx' Ha].
      rewrite scan_app_plain.
      * f_equal. apply (IH a) with (st := Outside Closed); [|done].
        injection Heq as ->. simpl. rewrite length_append. simpl. lia.
      * by apply expand_closed.
      * apply starts_scan_tidy with (st := Outside Closed); [done |].
        by apply tidy_closed_starts.
    + rewrite scan_cons. cbn [tlookup].
      apply Ascii.eqb_neq in Hc as ->. f_equal.
      apply (IH rest) with (st := st'); [simpl; lia | done].
    + rewrite scan_cons. cbn [tlookup].
      apply Ascii.eqb_neq in Hc as ->. f_equal.
      apply (IH rest) with (st := st'); [simpl; lia | done].
Qed.

(** In tidy text no match runs into a marker that follows: the text
    before a marker and the text from the marker on are scanned
    independently. *)
Lemma scan_app_marker (pre : string) (q : ascii) (s : string) (st : place) :
  q <> ")"%char ->
  tidy_from letter st (pre +:+ String q (String "(" s)) = true ->
  scan f (pre +:+ String q (String "(" s)) =
  scan f pre +:+ scan f (String q (String "(" s)).
Proof.
  intros Hq2. revert st.
  induction pre as [pre IH] using string_len_ind. intros st Htidy.
  destruct pre as [|c pre']; [done |].
  change (String c pre' +:+ ?t) with (String c (pre' +:+ t)) in *.
  destruct (tidy_tail _ _ _ Htidy) as [st' Hrest].
  rewrite (scan_cons f c (pre' +:+ _)), (scan_cons f c pre').
  destruct (tlookup f c) as [t|] eqn:Ht;
    [|cbn [String.append]; f_equal;
      apply (IH pre') with (st := st'); [simpl; lia | done]].
  destruct (tlookup_ok _ _ _ f_ok Ht) as (_ & Hc1 & Hc2).
  destruct (match_at c (String c (pre' +:+ _))) as [[x a]|] eqn:Hm.
  - pose proof Hm as Hm'.
    apply match_at_sound in Hm' as (Heq & Hne & Hx).
    injection Heq as Heq.
    destruct pre' as [|o p2].
    { cbn [String.append] in Heq, Htidy. injection Heq as -> _.
      by apply (tidy_open _ _ _ (f_letters _ _ Ht) Hc1 Hc2) in Htidy. }
    injection Heq as -> Heq.
    pose proof (tidy_open _ _ _ (f_letters _ _ Ht) Hc1 Hc2 Htidy) as Hin.
    destruct (has ")" p2) eqn:Hp2;
      [|by rewrite tidy_inside_marker in Hin].
    destruct (group_closed _ Hp2) as (x2 & p3 & Hg).
    apply group_sound in Hg as [-> Hx2].
    rewrite append_assoc in Heq. cbn [String.append] in Heq.
    pose proof (group_complete x2 (p3 +:+ String q (String "(" s)) Hx2) as G1.
    rewrite Heq, (group_complete x a Hx) in G1. injection G1 as -> ->.
    rewrite (match_at_complete c x2 p3 Hne Hx2).
    rewrite append_assoc in Hin. cbn [String.append] in Hin.
    apply tidy_inside_group in Hin as [_ Hout]; [|done].
    rewrite append_assoc. f_equal.
    apply (IH p3) with (st := Outside Closed); [|done].
    cbn [String.length]. rewrite length_append. simpl. lia.
  - destruct (match_at c (String c pre')) as [[x a]|] eqn:Hm2.
    + apply match_at_sound in Hm2 as (Heq & Hne & Hx).
      injection Heq as ->. exfalso. revert Hm.
      cbn [String.append]. rewrite append_assoc. cbn [String.append].
      by rewrite (match_at_complete c x _ Hne Hx).
    + cbn [String.append]. f_equal.
      apply (IH pre') with (st := st'); [simpl; lia | done].
Qed.

End TidyPass.

(** The passes of a table of marker letters, run one after the other on
    tidy text, amount to one simultaneous scan. *)
Lemma passes_scan_tidy (f : table) (s : string) (st : place) :
  table_ok f = true ->
  (forall c t, tlookup f c = Some t -> letter c = true) ->
  tidy_from letter st s = true -> passes f s = scan f s.
Proof.
  intros Hf Hl Hs. induction f as [|[p r] f IH]; simpl; [by rewrite scan_nil |].
  pose proof (table_ok_cons _ _ _ Hf) as (_ & _ & Hfresh & _ & Hf').
  assert (Hl' : forall c t, tlookup f c = Some t -> letter c = true).
  { intros c t Hc. apply (Hl c t). simpl.
    destruct (Ascii.eqb_spec c p) as [->|]; [congruence | done]. }
  rewrite (IH Hf' Hl'). apply scan_pass_tidy with (st := st); try done.
  apply (Hl p r). simpl. by rewrite Ascii.eqb_refl.
Qed.

End Tidy.

End OnePassFacts.

(** ** The markup translators *)

Module MarkupSpec.
Import Str StrFacts Markup MarkupFacts OnePass OnePassFacts.

Lemma rst_ify_passes (text : string) : rst_ify text = passes rst_table text.
Proof. done. Qed.

Lemma html_ify_passes (text : string) :
  html_ify text = passes html_table (cgi_escape text).
Proof. done. Qed.

(** The scan on a few texts: matches side by side, a letter before a
    marker, a parenthesis in a group, an empty group, a marker in a
    marker. *)
Example rst_ify_scan :
  rst_ify "I(a)I(b) II(c) I((d) I() I()x) B(I(e))" =
  "*a**b* I*c* *(d* I() I()x) ***e***".
Proof. reflexivity. Qed.

Example html_ify_scan :
  html_ify "U(http://a/?x=1&y=2) <b> C(a<b)" =
  "<a href='http://a/?x=1&amp;y=2'>http://a/?x=1&amp;y=2</a> &lt;b&gt; <code>a&lt;b</code>".
Proof. reflexivity. Qed.

(** C2, as the specification has it, fails: the module and constant
    markers are rendered between doubled backticks, not single ones.  Nor
    is every marker of every text replaced by its own template: the five
    substitutions run one after the other, so that a marker inside the
    group of another, or a parenthesis right after a marker, is read again
    by a later pass.  Neither of the last two texts is tidy. *)
Lemma rst_ify_backticks_doubled :
  rst_ify "M(x)" = "``x``" /\ rst_ify "M(x)" <> "`x`" /\
  rst_ify "C(x)" = "``x``" /\ rst_ify "C(x)" <> "`x`" /\
  rst_ify "I(xB(y)z)" = "*x**y*z**" /\ tidy "I(xB(y)z)" = false /\
  rst_ify "U(C)(x)" = "``x``" /\ tidy "U(C)(x)" = false.
Proof. done. Qed.

Lemma marker_letters (c : ascii) (t : template) :
  tlookup rst_table c = Some t -> marker_letter c = true.
Proof. unfold marker_letter. by intros ->. Qed.

(** A marker in tidy text: the text before it, the marker and the text
    after it are translated each on its own. *)
Lemma rst_ify_marker (q : ascii) (t : template) (pre x post : string) :
  tlookup rst_table q = Some t ->
  tidy (pre +:+ String q (String "(" (x +:+ String ")" post))) = true ->
  x <> "" -> has ")" x = false ->
  rst_ify (pre +:+ String q (String "(" (x +:+ String ")" post))) =
  rst_ify pre +:+ expand t x +:+ rst_ify post.
Proof.
  intros Hq Htidy Hne Hx.
  destruct (tlookup_ok rst_table q t eq_refl Hq) as (_ & Hq1 & Hq2).
  pose proof (tidy_prefix _ _ _ _ Htidy) as Hpre.
  destruct (tidy_suffix _ _ _ _ Htidy) as [st' Hst'].
  destruct (tidy_marker _ _ _ _ _ (marker_letters _ _ Hq) Hq1 Hq2 Hx Hst')
    as [_ Hpost].
  rewrite (rst_ify_passes (pre +:+ _)), (rst_ify_passes pre),
    (rst_ify_passes post).
  rewrite (passes_scan_tidy _ rst_table (pre +:+ _) _ eq_refl marker_letters Htidy).
  rewrite (passes_scan_tidy _ rst_table pre _ eq_refl marker_letters Hpre).
  rewrite (passes_scan_tidy _ rst_table post _ eq_refl marker_letters Hpost).
  rewrite (scan_app_marker _ rst_table eq_refl marker_letters pre q _ _ Hq2 Htidy).
  by rewrite scan_cons, Hq, (match_at_complete _ _ _ Hne Hx).
Qed.

(** C2 (amended): in every text that is tidy (no opening parenthesis
    between the one that follows a marker letter and the next closing one,
    and none directly after that closing one; other parentheses are free),
    [rst_ify] replaces a well-formed marker, wherever it stands, as follows,
    and translates the text before it and the text after it each on its
    own, so that every marker of the text is replaced: [I(x)] by [*x*],
    [B(x)] by [**x**], [M(x)] by [``x``] (doubled backticks), [U(x)] by the
    bare [x] and [C(x)] by [``x``].  The group [x] of a marker is not empty
    and runs up to the first closing parenthesis: that is what each pattern
    captures, in any text. *)
Theorem rst_ify_markers (pre x post : string) :
  x <> "" -> has ")" x = false ->
  (tidy (pre +:+ "I(" +:+ x +:+ ")" +:+ post) = true ->
   rst_ify (pre +:+ "I(" +:+ x +:+ ")" +:+ post) =
     rst_ify pre +:+ "*" +:+ x +:+ "*" +:+ rst_ify post) /\
  (tidy (pre +:+ "B(" +:+ x +:+ ")" +:+ post) = true ->
   rst_ify (pre +:+ "B(" +:+ x +:+ ")" +:+ post) =
     rst_ify pre +:+ "**" +:+ x +:+ "**" +:+ rst_ify post) /\
  (tidy (pre +:+ "M(" +:+ x +:+ ")" +:+ post) = true ->
   rst_ify (pre +:+ "M(" +:+ x +:+ ")" +:+ post) =
     rst_ify pre +:+ "``" +:+ x +:+ "``" +:+ rst_ify post) /\
  (tidy (pre +:+ "U(" +:+ x +:+ ")" +:+ post) = true ->
   rst_ify (pre +:+ "U(" +:+ x +:+ ")" +:+ post) =
     rst_ify pre +:+ x +:+ rst_ify post) /\
  (tidy (pre +:+ "C(" +:+ x +:+ ")" +:+ post) = true ->
   rst_ify (pre +:+ "C(" +:+ x +:+ ")" +:+ post) =
     rst_ify pre +:+ "``" +:+ x +:+ "``" +:+ rst_ify post) /\
  forall (p : pattern) (r : template) (rest : string),
    sub p r (String p ("(" +:+ x +:+ ")" +:+ rest)) = expand r x +:+ sub p r rest.
Proof.
  intros Hne Hx. cbn [String.append]. repeat split.
  - intros Ht. rewrite (rst_ify_marker "I" _ pre x post eq_refl Ht Hne Hx).
    simpl. by rewrite !append_assoc.
  - intros Ht. rewrite (rst_ify_marker "B" _ pre x post eq_refl Ht Hne Hx).
    simpl. by rewrite !append_assoc.
  - intros Ht. rewrite (rst_ify_marker "M" _ pre x post eq_refl Ht Hne Hx).
    simpl. by rewrite !append_assoc.
  - intros Ht. rewrite (rst_ify_marker "U" _ pre x post eq_refl Ht Hne Hx).
    simpl. by rewrite append_nil_r.
  - intros Ht. rewrite (rst_ify_marker "C" _ pre x post eq_refl Ht Hne Hx).
    simpl. by rewrite !append_assoc.
  - intros p r rest. rewrite sub_cons.
    by rewrite (match_at_complete p x rest Hne Hx).
Qed.

Lemma rst_ify_markers_witness :
  rst_ify ("(see M(ping), I(a) " +:+ "B(" +:+ "b" +:+ ")" +:+ " or U(x))") =
    rst_ify "(see M(ping), I(a) " +:+ "**" +:+ "b" +:+ "**" +:+ rst_ify " or U(x))".
Proof.
  refine (proj1 (proj2 (rst_ify_markers "(see M(ping), I(a) " "b" " or U(x))" _ _)) _).
  - discriminate.
  - reflexivity.
  - reflexivity.
Defined.

(** C5: [html_ify] escapes the whole text first and substitutes the
    markers in the escaped text.  The escaped text holds no angle bracket
    and no ampersand outside the entities; so a marker in text that opens no
    other parenthesis comes out as its tag pair around the escaped group,
    between the escaped surroundings, and [<I(x)>] comes out as
    [&lt;<em>x</em>&gt;]. *)
Theorem html_ify_escapes_first (text : string) :
  html_ify text = passes html_table (cgi_escape text) /\
  escaped (cgi_escape text) = true /\
  html_ify "<I(x)>" = "&lt;<em>x</em>&gt;" /\
  forall pre x post : string,
    text = pre +:+ "I(" +:+ x +:+ ")" +:+ post ->
    has "(" pre = false -> x <> "" -> has "(" x = false ->
    has ")" x = false -> has "(" post = false ->
    html_ify text =
      cgi_escape pre +:+ "<em>" +:+ cgi_escape x +:+ "</em>" +:+ cgi_escape post /\
    escaped (cgi_escape pre) = true /\ escaped (cgi_escape x) = true /\
    escaped (cgi_escape post) = true.
Proof.
  split; [done |]. split; [apply cgi_escape_escaped |]. split; [done |].
  intros pre x post -> Hpre Hne Hx Hx' Hpost.
  split; [|by rewrite !cgi_escape_escaped].
  rewrite html_ify_passes, !cgi_escape_app.
  change (cgi_escape "I(") with "I(". change (cgi_escape ")") with ")".
  cbn [String.append].
  rewrite passes_scan; [|done|].
  - rewrite (scan_one_marker html_table "I" [Lit "<em>"; Group1; Lit "</em>"]);
      rewrite ?cgi_escape_open, ?cgi_escape_close; try done.
    + simpl. by rewrite !append_assoc.
    + by apply cgi_escape_nonempty.
  - apply flat_one_marker; by rewrite ?cgi_escape_open.
Qed.

Lemma html_ify_escapes_first_witness :
  html_ify ("a<b " +:+ "I(" +:+ "x&y" +:+ ")" +:+ " >c") =
  "a&lt;b <em>x&amp;y</em> &gt;c".
Proof.
  apply (html_ify_escapes_first ("a<b " +:+ "I(" +:+ "x&y" +:+ ")" +:+ " >c")
           : _ /\ _ /\ _ /\ _) with (pre := "a<b ") (x := "x&y") (post := " >c");
    [reflexivity | reflexivity | discriminate | reflexivity ..].
Defined.

(** C7, as the specification has it, fails: with the bold pass run
    before the italic one, a bold marker inside an italic group is
    replaced first, and the text comes out differently. *)
Lemma marker_order_matters :
  let bold_first :=
    [ (_CONST, [Lit "``"; Group1; Lit "``"]); (_URL, [Group1]);
      (_MODULE, [Lit "``"; Group1; Lit "``"]);
      (_ITALIC, [Lit "*"; Group1; Lit "*"]);
      (_BOLD, [Lit "**"; Group1; Lit "**"]) ] in
  bold_first ≡ₚ rst_table /\
  passes bold_first "I(xB(y)z)" = "*x**y**z*" /\
  rst_ify "I(xB(y)z)" = "*x**y*z**" /\
  passes bold_first "I(xB(y)z)" <> rst_ify "I(xB(y)z)".
Proof.
  split; [|done]. do 3 apply perm_skip. apply perm_swap.
Qed.

(** C7 (amended): on flat text (no opening parenthesis inside a
    parenthesised run, none directly after a closing one) the five
    substitutions give the same text in whatever order they are applied;
    on other text the order can change the result. *)
Theorem marker_order_flat (order : table) (text : string) :
  order ≡ₚ rst_table -> flat text = true ->
  passes order text = rst_ify text.
Proof.
  intros Hp Hflat. rewrite rst_ify_passes.
  apply passes_perm; [by symmetry | done | done].
Qed.

Lemma marker_order_flat_witness :
  passes [ (_CONST, [Lit "``"; Group1; Lit "``"]); (_URL, [Group1]);
           (_MODULE, [Lit "``"; Group1; Lit "``"]);
           (_ITALIC, [Lit "*"; Group1; Lit "*"]);
           (_BOLD, [Lit "**"; Group1; Lit "**"]) ]
         "I(a) or B(b), see U(http://x) and M(ping) with C(yes) (sic)" =
  rst_ify "I(a) or B(b), see U(http://x) and M(ping) with C(yes) (sic)".
Proof.
  apply marker_order_flat; [|reflexivity].
  do 3 apply perm_skip. apply perm_swap.
Defined.

End MarkupSpec.

(** ** Processing one module *)

Module ModuleSpec.
Import Str StrFacts Py Formatter Effects.

Ltac run :=
  unfold process_module, strip_version, bind, ret, exit, raise, getitem,
    delitem, index, float, print, stderr_write, call_get_docstring,
    printed, complained, read in *;
  simpl in *.

(** *** How the files grow *)

Lemma extends_refl (w : world) : extends w w.
Proof. exists []. by rewrite app_nil_r. Qed.

Lemma extends_trans (w1 w2 w3 : world) :
  extends w1 w2 -> extends w2 w3 -> extends w1 w3.
Proof.
  intros [e1 H1] [e2 H2]. exists (e1 ++ e2)%list.
  by rewrite H2, H1, <- app_assoc.
Qed.

Lemma extends_lookup (w w' : world) (h : handle) (f : string * list string) :
  extends w w' -> files w !! h = Some f -> files w' !! h = Some f.
Proof. intros [e ->] Hf. by apply lookup_app_l_Some. Qed.

Lemma grows_bind {A B} (m : M A) (k : A -> M B) :
  grows m -> (forall a, grows (k a)) -> grows (bind m k).
Proof.
  intros Hm Hk w. unfold bind. specialize (Hm w).
  destruct (m w) as [w' [a|c|e]]; simpl in *; try done.
  eapply extends_trans; [done | apply Hk].
Qed.

Lemma pure_grows {A} (m : M A) : pure m -> grows m.
Proof. intros [r Hm] w. rewrite Hm. apply extends_refl. Qed.

Lemma pure_bind {A B} (m : M A) (k : A -> M B) :
  pure m -> (forall a, pure (k a)) -> pure (bind m k).
Proof.
  intros [[a|c|e] Hm] Hk; unfold bind.
  - destruct (Hk a) as [r Hr]. exists r. intros w. by rewrite Hm, Hr.
  - exists (Exit c). intros w. by rewrite Hm.
  - exists (Raise e). intros w. by rewrite Hm.
Qed.

Lemma pure_ret {A} (a : A) : pure (ret a).
Proof. by eexists. Qed.
Lemma pure_raise {A} (e : exn) : pure (@raise A e).
Proof. by eexists. Qed.
Lemma pure_exit {A} (c : Z) : pure (@exit A c).
Proof. by eexists. Qed.
Lemma pure_getitem {A} (d : gmap string A) (k : string) : pure (getitem d k).
Proof. unfold getitem. destruct (d !! k); by eexists. Qed.
Lemma pure_delitem {A} (d : gmap string A) (k : string) : pure (delitem d k).
Proof. unfold delitem. destruct (d !! k); by eexists. Qed.
Lemma pure_index {A} (l : list A) (i : nat) : pure (index l i).
Proof. unfold index. destruct (l !! i); by eexists. Qed.
Lemma pure_float (s : string) : pure (float s).
Proof. unfold float. destruct (Float.float_of_string s); by eexists. Qed.
Lemma pure_iteritems (v : value) : pure (iteritems v).
Proof. destruct v as [|? ? []]; by eexists. Qed.
Lemma pure_replace_method (v : value) (a : ascii) (n : string) :
  pure (replace_method v a n).
Proof. destruct v; by eexists. Qed.

(** A pure computation ends in every world as it ends in one. *)
Lemma pure_result {A} (m : M A) (w w' : world) (r : outcome A) :
  pure m -> m w = (w, r) -> m w' = (w', r).
Proof. intros [r' Hm] Hw. rewrite Hm in *. congruence. Qed.

Ltac pure_step :=
  first
    [ apply pure_ret | apply pure_raise | apply pure_exit
    | apply pure_getitem | apply pure_delitem | apply pure_index
    | apply pure_float | apply pure_iteritems | apply pure_replace_method
    | apply pure_bind; [|intros ?]
    | match goal with |- pure (if ?b then _ else _) => destruct b end ].

Lemma pure_strip_version (d : doc) : pure (strip_version d).
Proof. unfold strip_version. repeat pure_step. Qed.

Lemma grows_print (text : string) : grows (print text).
Proof. intros w. exists []. simpl. by rewrite app_nil_r. Qed.
Lemma grows_stderr_write (text : string) : grows (stderr_write text).
Proof. intros w. exists []. simpl. by rewrite app_nil_r. Qed.

Section Grows.
Variable ext : externals.

Lemma pure_build_context (d : doc) (o : options) (fname : string)
    (ex : option string) : pure (build_context ext d o fname ex).
Proof. unfold build_context. repeat pure_step. Qed.

Lemma grows_call_get_docstring (fname : string) (verbose : bool) :
  grows (call_get_docstring ext fname verbose).
Proof. intros w. exists []. simpl. by rewrite app_nil_r. Qed.

Lemma grows_open_w (path : string) : grows (open_w ext path).
Proof.
  intros w. unfold open_w. destruct (can_open ext path); simpl.
  - by exists [(path, [])].
  - apply extends_refl.
Qed.

Lemma grows_write_data (text : string) (o : options) (outputname module : string) :
  grows (write_data ext text o outputname module).
Proof.
  intros w. unfold write_data. destruct (output_dir o) as [dir|].
  - unfold bind, open_w. destruct (can_open ext _); simpl.
    + unfold extends. simpl. rewrite alter_app_r_alt by done. by eexists.
    + apply extends_refl.
  - apply grows_print.
Qed.

Lemma grows_process_module (module : string) (o : options) (env : environment)
    (tpl : template) (outputname : string) (module_map : gmap string string) :
  grows (process_module ext module o env tpl outputname module_map).
Proof.
  unfold process_module.
  apply grows_bind; [apply grows_print | intros _].
  apply grows_bind; [apply pure_grows, pure_getitem | intros fname].
  destruct (has "." (basename fname)); [apply pure_grows, pure_ret |].
  apply grows_bind; [apply grows_call_get_docstring | intros [[d|] ex]].
  - destruct (d !! "version_added").
    + apply grows_bind; [apply pure_grows, pure_strip_version | intros d'].
      apply grows_bind; [apply pure_grows, pure_build_context | intros c].
      apply grows_bind; [apply grows_write_data | intros _].
      apply pure_grows, pure_ret.
    + apply grows_bind; [apply grows_stderr_write | intros _].
      apply pure_grows, pure_exit.
  - destruct (negb _).
    + apply grows_bind; [apply grows_stderr_write | intros _].
      apply pure_grows, pure_exit.
    + apply pure_grows, pure_ret.
Qed.

End Grows.

(** *** The listing of a category *)

Lemma append_inj_r (a b c : string) : a +:+ c = b +:+ c -> a = b.
Proof.
  revert b. induction a as [|x a IH]; intros [|y b] H; simpl in H.
  - done.
  - apply (f_equal String.length) in H. simpl in H.
    rewrite length_append in H. lia.
  - apply (f_equal String.length) in H. simpl in H.
    rewrite length_append in H. lia.
  - injection H as -> H. f_equal. by apply IH.
Qed.

Lemma toctree_entry_inj (m m' : string) :
  toctree_entry m = toctree_entry m' -> m = m'.
Proof.
  unfold toctree_entry. intros H. simpl in H.
  injection H as H. by apply append_inj_r in H.
Qed.

Lemma ends_append (c : ascii) (a b : string) :
  b <> "" -> ends c (a +:+ b) = ends c b.
Proof.
  intros Hb. induction a as [|x a IH]; [done |].
  simpl. rewrite IH. destruct (a +:+ b) eqn:Hab; [|done].
  destruct a; [done | discriminate].
Qed.

Lemma toctree_entry_ends (m : string) : ends "010" (toctree_entry m) = true.
Proof.
  unfold toctree_entry.
  rewrite <- !append_assoc. by rewrite ends_append.
Qed.

Lemma starts_repeat (c d : ascii) (n : nat) :
  c <> d -> starts c (repeat d n) = false.
Proof. intros H. destruct n; [done |]. simpl. by apply Ascii.eqb_neq. Qed.

(** The lines that open a listing are no toctree entries. *)
Lemma toctree_entry_not_heading (m category : string) :
  toctree_entry m ∉
    [ title (title (replace "_" " " category)) +:+ " Modules"; LF;
      repeat "`" (String.length
                    (title (title (replace "_" " " category)) +:+ " Modules"));
      LF; ".. toctree::" +:+ LF ].
Proof.
  intros Hin. repeat (apply elem_of_cons in Hin as [Hin|Hin]);
    [| | | | |by apply elem_of_nil in Hin].
  - pose proof (toctree_entry_ends m) as He. rewrite Hin in He.
    by rewrite ends_append in He.
  - done.
  - apply (f_equal (starts " ")) in Hin.
    by rewrite starts_repeat in Hin.
  - done.
  - done.
Qed.

Lemma bind_print {B} (text : string) (k : unit -> M B) (w : world) :
  bind (print text) k w = k tt (printed (text +:+ LF) w).
Proof. done. Qed.

Lemma bind_write {B} (h : handle) (text : string) (k : unit -> M B) (w : world) :
  bind (write h text) k w = k tt (written h text w).
Proof. done. Qed.

Lemma files_written (h : handle) (text path : string) (chunks : list string)
    (w : world) :
  files w !! h = Some (path, chunks) ->
  files (written h text w) !! h = Some (path, (chunks ++ [text])%list).
Proof. intros H. unfold written. cbn [files]. by rewrite list_lookup_alter_eq, H. Qed.

Lemma heading_written (p text a b c d e : string) (w : world) :
  files (written (length (files w)) e (written (length (files w)) d
          (written (length (files w)) c (written (length (files w)) b
            (written (length (files w)) a (printed text (opened p w)))))))
    !! length (files w) = Some (p, [a; b; c; d; e]).
Proof.
  apply (files_written _ _ p [_; _; _; _]), (files_written _ _ p [_; _; _]),
    (files_written _ _ p [_; _]), (files_written _ _ p [_]),
    (files_written _ _ p []).
  cbn [files printed opened]. by rewrite lookup_app_r, Nat.sub_diag.
Qed.

Section Listing.
Variable ext : externals.
Variables (o : options) (env : environment) (tpl : template).
Variables (outputname : string) (module_map : gmap string string).

#[local] Abbreviation listable :=
  (Effects.listable ext o env tpl outputname module_map).

(** The loop adds to the listing the lines of listable modules only. *)
Lemma process_modules_entries (ms : list string) (h : handle) (w : world)
    (path : string) (chunks : list string) :
  files w !! h = Some (path, chunks) ->
  exists added,
    files (process_modules ext ms h o env tpl outputname module_map w).1 !! h
      = Some (path, (chunks ++ added)%list) /\
    forall e, e ∈ added -> exists m, m ∈ ms /\ e = toctree_entry m /\ listable m.
Proof.
  revert w chunks. induction ms as [|m ms IH]; intros w chunks Hh.
  - exists []. rewrite app_nil_r. split; [done |]. by intros e ?%elem_of_nil.
  - cbn [process_modules]. unfold bind at 1.
    pose proof (grows_process_module ext m o env tpl outputname module_map w)
      as Hgrow.
    destruct (process_module ext m o env tpl outputname module_map w)
      as [w1 [r|c|e]] eqn:Hpm; simpl in Hgrow.
    + pose proof (extends_lookup _ _ _ _ Hgrow Hh) as Hh1.
      unfold bind at 1. case_bool_decide as Hr.
      * cbn [write].
        destruct (IH (written h (toctree_entry m) w1) _
                    (files_written _ _ _ _ _ Hh1)) as (added & Hf & Hadd).
        exists (toctree_entry m :: added). split.
        { rewrite Hf. by rewrite <- app_assoc. }
        intros e [->|He]%elem_of_cons.
        -- exists m. split; [left |]. split; [done |].
           exists w, r. by rewrite Hpm.
        -- destruct (Hadd e He) as (m' & ? & ? & ?).
           exists m'. split; [by right | done].
      * cbn [ret]. destruct (IH w1 _ Hh1) as (added & Hf & Hadd).
        exists added. split; [done |]. intros e He.
        destruct (Hadd e He) as (m' & ? & ? & ?).
        exists m'. split; [by right | done].
    + exists []. rewrite app_nil_r. simpl.
      split; [by apply (extends_lookup w) | by intros ? ?%elem_of_nil].
    + exists []. rewrite app_nil_r. simpl.
      split; [by apply (extends_lookup w) | by intros ? ?%elem_of_nil].
Qed.

(** When the loop comes to its end, the line of every module whose
    processing returns without the mark of the skipped is in the listing. *)
Lemma process_modules_listed (ms : list string) (h : handle) (w w' : world)
    (path : string) (chunks : list string) (m : string) :
  files w !! h = Some (path, chunks) ->
  process_modules ext ms h o env tpl outputname module_map w = (w', Return tt) ->
  m ∈ ms ->
  (forall w1, (process_module ext m o env tpl outputname module_map w1).2
              = Return None) ->
  exists chunks', files w' !! h = Some (path, chunks') /\
                  toctree_entry m ∈ chunks'.
Proof.
  intros Hh Hrun Hm Hnone. revert w chunks Hh Hrun.
  induction ms as [|m' ms IH]; intros w chunks Hh Hrun;
    [by apply elem_of_nil in Hm |].
  cbn [process_modules] in Hrun. unfold bind at 1 in Hrun.
  pose proof (grows_process_module ext m' o env tpl outputname module_map w)
    as Hgrow.
  destruct (process_module ext m' o env tpl outputname module_map w)
    as [w1 [r|c|e]] eqn:Hpm; simpl in Hgrow; try done.
  pose proof (extends_lookup _ _ _ _ Hgrow Hh) as Hh1.
  unfold bind at 1 in Hrun.
  apply elem_of_cons in Hm as [->|Hm].
  - specialize (Hnone w). rewrite Hpm in Hnone. injection Hnone as ->.
    rewrite bool_decide_eq_true_2 in Hrun by done. cbn [write] in Hrun.
    destruct (process_modules_entries ms h (written h (toctree_entry m') w1)
                path _ (files_written _ _ _ _ _ Hh1)) as (added & Hf & _).
    rewrite Hrun in Hf. simpl in Hf. eexists. split; [done |].
    rewrite !elem_of_app. left. right. left.
  - case_bool_decide.
    + cbn [write] in Hrun.
      eapply (IH Hm); [|exact Hrun]. by apply files_written.
    + by apply (IH Hm _ _ Hh1).
Qed.

(** The listing that [process_category] writes: the heading and, after it,
    the lines of listable modules of the category. *)
Lemma process_category_listing (category : string)
    (categories : gmap string (gmap string string)) (w : world)
    (path : string) (chunks : list string) :
  categories !! category = Some module_map ->
  files (process_category ext category categories o env tpl outputname w).1
    !! length (files w) = Some (path, chunks) ->
  exists added,
    chunks =
      ([ title (title (replace "_" " " category)) +:+ " Modules"; LF;
         repeat "`" (String.length
                       (title (title (replace "_" " " category)) +:+ " Modules"));
         LF; ".. toctree::" +:+ LF ] ++ added)%list /\
    forall e, e ∈ added ->
      exists m, is_Some (module_map !! m) /\ e = toctree_entry m /\ listable m.
Proof.
  intros Hcat. unfold process_category, getitem. rewrite Hcat.
  unfold bind at 1. cbn [ret].
  unfold bind at 1.
  destruct (join_output_dir o ("list_of_" +:+ category +:+ "_modules.rst") w)
    as [w0 [p|c|e]] eqn:Hjoin.
  2,3: unfold join_output_dir in Hjoin;
       destruct (output_dir o); [done |]; destruct (starts _ _);
       injection Hjoin as <-; simpl; intros Hf;
       by apply lookup_lt_Some in Hf; lia.
  assert (w0 = w) as ->.
  { unfold join_output_dir in Hjoin.
    destruct (output_dir o); [by injection Hjoin |].
    destruct (starts _ _); by injection Hjoin. }
  unfold bind at 1. unfold open_w.
  destruct (can_open ext p);
    [|cbn [fst]; intros Hf; apply lookup_lt_Some in Hf; lia].
  rewrite bind_print, !bind_write.
  set (w5 := written _ _ (written _ _ (written _ _ (written _ _ (written _ _ _))))).
  intros Hf.
  assert (Hh : files w5 !! length (files w) =
               Some (p, [ title (title (replace "_" " " category)) +:+ " Modules"; LF;
         repeat "`" (String.length
                       (title (title (replace "_" " " category)) +:+ " Modules"));
         LF; ".. toctree::" +:+ LF ])).
  { apply heading_written. }
  destruct (process_modules_entries
              (sorted (map_to_list module_map).*1) _ _ _ _ Hh)
    as (added & Hf' & Hadd).
  rewrite Hf in Hf'. injection Hf' as -> ->.
  exists added. split; [done |]. intros e He.
  destruct (Hadd e He) as (m & Hm & -> & Hl).
  exists m. split; [|done].
  unfold sorted in Hm. rewrite merge_sort_Permutation in Hm.
  apply list_elem_of_fmap in Hm as ([m' f] & -> & Hmf).
  apply elem_of_map_to_list in Hmf. by eexists.
Qed.

Lemma process_category_listed (category : string)
    (categories : gmap string (gmap string string)) (w w' : world) (m : string) :
  categories !! category = Some module_map ->
  is_Some (module_map !! m) ->
  (forall w1, (process_module ext m o env tpl outputname module_map w1).2
              = Return None) ->
  process_category ext category categories o env tpl outputname w
    = (w', Return tt) ->
  exists path chunks,
    files w' !! length (files w) = Some (path, chunks) /\
    toctree_entry m ∈ chunks.
Proof.
  intros Hcat [f Hm] Hnone. unfold process_category, getitem. rewrite Hcat.
  unfold bind at 1. cbn [ret]. unfold bind at 1.
  destruct (join_output_dir o ("list_of_" +:+ category +:+ "_modules.rst") w)
    as [w0 [p|c|e]] eqn:Hjoin; try done.
  assert (w0 = w) as ->.
  { unfold join_output_dir in Hjoin.
    destruct (output_dir o); [by injection Hjoin |].
    destruct (starts _ _); by injection Hjoin. }
  unfold bind at 1. unfold open_w.
  destruct (can_open ext p); [|done].
  rewrite bind_print, !bind_write.
  set (w5 := written _ _ (written _ _ (written _ _ (written _ _ (written _ _ _))))).
  intros Hrun. exists p.
  eapply process_modules_listed; [|exact Hrun| |done].
  - apply heading_written.
  - unfold sorted. rewrite merge_sort_Permutation.
    apply list_elem_of_fmap. exists (m, f). split; [done |].
    by apply elem_of_map_to_list.
Qed.

End Listing.

(** *** The version test *)

Lemma dotted_nonempty (t0 t1 : string) :
  negb (String.eqb (t0 +:+ "." +:+ t1) "") = true.
Proof. by destruct t0. Qed.

Section Version.
Variables (d : doc) (v : value).
Hypothesis version : d !! "version_added" = Some v.

Lemma strip_version_historical (w : world) :
  eq_str v "historical" = true ->
  strip_version d w = (w, Return (delete "version_added" d)).
Proof.
  intros Hh. unfold strip_version, bind, getitem, ret, delitem.
  rewrite version. cbn [fst snd]. by rewrite Hh.
Qed.

Lemma strip_version_falsy (w : world) :
  eq_str v "historical" = false -> truth v = false ->
  strip_version d w = (w, Return d).
Proof.
  intros Hh Ht. unfold strip_version, bind, getitem, ret.
  rewrite version. cbn [fst snd]. rewrite Hh. cbn [fst snd]. by rewrite Ht.
Qed.

Lemma strip_version_checked (w : world) (t0 t1 : string) (x : Float.float) :
  eq_str v "historical" = false -> truth v = true ->
  split "." (str v) !! 0 = Some t0 -> split "." (str v) !! 1 = Some t1 ->
  Float.float_of_string (t0 +:+ "." +:+ t1) = Some x ->
  strip_version d w =
    (w, Return (if Float.ltb x TO_OLD_TO_BE_NOTABLE
                then delete "version_added" d else d)).
Proof.
  intros Hh Ht H0 H1 Hx. unfold strip_version, bind, getitem, ret.
  rewrite version. cbn [fst snd]. rewrite Hh. cbn [fst snd]. rewrite Ht.
  unfold index. rewrite H0, H1. unfold ret, float. rewrite Hx. unfold ret.
  cbn [truth]. rewrite dotted_nonempty. cbn [andb].
  destruct (Float.ltb x TO_OLD_TO_BE_NOTABLE); [|done].
  unfold delitem. by rewrite ?version.
Qed.

Lemma strip_version_unparsed (w : world) (t0 t1 : string) :
  eq_str v "historical" = false -> truth v = true ->
  split "." (str v) !! 0 = Some t0 -> split "." (str v) !! 1 = Some t1 ->
  Float.float_of_string (t0 +:+ "." +:+ t1) = None ->
  strip_version d w = (w, Raise ValueError).
Proof.
  intros Hh Ht H0 H1 Hx. unfold strip_version, bind, getitem, ret.
  rewrite version. cbn [fst snd]. rewrite Hh. cbn [fst snd]. rewrite Ht.
  unfold index. rewrite H0, H1. unfold ret, float. by rewrite Hx.
Qed.

Lemma strip_version_pointless (w : world) :
  eq_str v "historical" = false -> truth v = true ->
  has "." (str v) = false ->
  strip_version d w = (w, Raise IndexError).
Proof.
  intros Hh Ht Hdot. unfold strip_version, bind, getitem, ret.
  rewrite version. cbn [fst snd]. rewrite Hh. cbn [fst snd]. rewrite Ht.
  by rewrite (split_absent _ _ Hdot).
Qed.

Lemma strip_version_pointed (w : world) :
  eq_str v "historical" = false -> truth v = true ->
  has "." (str v) = true ->
  (strip_version d w).2 <> Raise IndexError.
Proof.
  intros Hh Ht Hdot.
  destruct (split_present _ _ Hdot) as (t0 & t1 & ts & Hs).
  destruct (Float.float_of_string (t0 +:+ "." +:+ t1)) as [x|] eqn:Hx.
  - rewrite (strip_version_checked w t0 t1 x); try done; by rewrite Hs.
  - rewrite (strip_version_unparsed w t0 t1); try done; by rewrite Hs.
Qed.

End Version.


Section Module.
Variable ext : externals.
Variables (o : options) (env : environment) (tpl : template).
Variables (outputname : string) (module_map : gmap string string).
Variables (module fname : string).
Hypothesis discovered : module_map !! module = Some fname.

(** A module without documentation block that is not exempt ends the run
    with exit code 1, after the diagnostic. *)
Lemma process_module_undocumented (w : world) :
  has "." (basename fname) = false ->
  (get_docstring ext fname (verbose o)).1 = None ->
  module ∉ BLACKLIST_MODULES ext ->
  process_module ext module o env tpl outputname module_map w =
    (complained ("*** ERROR: CORE MODULE MISSING DOCUMENTATION: "
                 +:+ fname +:+ ", " +:+ module +:+ " ***" +:+ LF)
       (read fname (printed ("rendering: " +:+ module +:+ LF) w)), Exit 1).
Proof.
  intros Hdot Hdoc Hex. run. rewrite discovered. simpl. rewrite Hdot.
  destruct (get_docstring ext fname (verbose o)) as [[d|] ex]; [done |].
  by rewrite bool_decide_eq_false_2.
Qed.

(** An exempt module without documentation block is skipped. *)
Lemma process_module_exempt (w : world) :
  has "." (basename fname) = false ->
  (get_docstring ext fname (verbose o)).1 = None ->
  module ∈ BLACKLIST_MODULES ext ->
  process_module ext module o env tpl outputname module_map w =
    (read fname (printed ("rendering: " +:+ module +:+ LF) w), Return (Some "SKIPPED")).
Proof.
  intros Hdot Hdoc Hex. run. rewrite discovered. simpl. rewrite Hdot.
  destruct (get_docstring ext fname (verbose o)) as [[d|] ex]; [done |].
  by rewrite bool_decide_eq_true_2.
Qed.

(** A file with an extension is passed over. *)
Lemma process_module_dotted (w : world) :
  has "." (basename fname) = true ->
  process_module ext module o env tpl outputname module_map w =
    (printed ("rendering: " +:+ module +:+ LF) w, Return None).
Proof. intros Hdot. run. rewrite discovered. simpl. by rewrite Hdot. Qed.

(** A documentation block without version ends the run with exit code 1. *)
Lemma process_module_unversioned (w : world) (d : doc) (ex : option string) :
  has "." (basename fname) = false ->
  get_docstring ext fname (verbose o) = (Some d, ex) ->
  d !! "version_added" = None ->
  process_module ext module o env tpl outputname module_map w =
    (complained ("*** ERROR: missing version_added in: " +:+ module +:+ " ***" +:+ LF)
       (read fname (printed ("rendering: " +:+ module +:+ LF) w)), Exit 1).
Proof.
  intros Hdot Hdoc Hv. run. rewrite discovered. simpl.
  by rewrite Hdot, Hdoc, Hv.
Qed.

(** A documentation block with a version goes through the version test,
    the making of the context, and the template. *)
Lemma process_module_versioned (w : world) (d : doc) (ex : option string)
    (v : value) :
  has "." (basename fname) = false ->
  get_docstring ext fname (verbose o) = (Some d, ex) ->
  d !! "version_added" = Some v ->
  process_module ext module o env tpl outputname module_map w =
    (d' <- strip_version d ;;
     c <- build_context ext d' o fname ex ;;
     write_data ext (tpl c) o outputname module ;;
     ret None) (read fname (printed ("rendering: " +:+ module +:+ LF) w)).
Proof.
  intros Hdot Hdoc Hv. unfold process_module.
  rewrite bind_print. unfold bind at 1. unfold getitem at 1.
  rewrite discovered. cbn [ret]. rewrite Hdot.
  unfold bind at 1. unfold call_get_docstring. by rewrite Hdoc, Hv.
Qed.

(** The template sees the version field as the version test left it. *)
Lemma build_context_version (d : doc) (ex : option string) (c : context)
    (w w' : world) :
  build_context ext d o fname ex w = (w', Return c) ->
  c !! "version_added" = Given <$> d !! "version_added".
Proof.
  unfold build_context, bind, getitem.
  destruct (d !! "options") as [opts|]; [|done]. cbn [ret].
  destruct (iteritems opts w) as [w1 [keys|?|?]]; try done.
  destruct (d !! "module") as [m|]; [|done]. cbn [ret].
  destruct (replace_method m "_" "-" w1) as [w2 [uri|?|?]]; try done.
  intros [= _ <-]. by rewrite !lookup_insert_ne, lookup_fmap.
Qed.

End Module.

(** *** The claims on the processing of a module *)

(** C1: a discovered module handed to the extractor (its file has no
    extension) whose documentation block is absent: when it is not exempt,
    the run ends with exit code 1 after a diagnostic on the error stream
    that names the file and the module; when it is exempt, the processing
    returns the mark of the skipped and the listing of its category gets no
    line for it. *)
Theorem missing_documentation (ext : externals) (o : options)
    (env : environment) (tpl : template) (outputname : string)
    (module_map : gmap string string) (module fname : string) :
  module_map !! module = Some fname ->
  has "." (basename fname) = false ->
  (get_docstring ext fname (verbose o)).1 = None ->
  (module ∉ BLACKLIST_MODULES ext ->
   forall w,
     process_module ext module o env tpl outputname module_map w =
       (complained ("*** ERROR: CORE MODULE MISSING DOCUMENTATION: "
                    +:+ fname +:+ ", " +:+ module +:+ " ***" +:+ LF)
          (read fname (printed ("rendering: " +:+ module +:+ LF) w)), Exit 1))
  /\
  (module ∈ BLACKLIST_MODULES ext ->
   (forall w,
      process_module ext module o env tpl outputname module_map w =
        (read fname (printed ("rendering: " +:+ module +:+ LF) w),
         Return (Some "SKIPPED"))) /\
   forall category categories w path chunks,
     categories !! category = Some module_map ->
     files (process_category ext category categories o env tpl outputname w).1
       !! length (files w) = Some (path, chunks) ->
     toctree_entry module ∉ chunks).
Proof.
  intros Hm Hdot Hdoc. split.
  - intros Hex w. by apply process_module_undocumented.
  - intros Hex. split.
    + intros w. by apply process_module_exempt.
    + intros category categories w path chunks Hcat Hf Hin.
      destruct (process_category_listing _ _ _ _ _ _ _ _ _ _ _ Hcat Hf)
        as (added & -> & Hadd).
      apply elem_of_app in Hin as [Hin|Hin].
      * by apply toctree_entry_not_heading in Hin.
      * destruct (Hadd _ Hin) as (m & _ & Heq%toctree_entry_inj & w1 & r & Hr & Hne).
        subst m. rewrite (process_module_exempt ext o env tpl outputname module_map
                   module fname Hm w1 Hdot Hdoc Hex) in Hr.
        by injection Hr as <-.
Qed.

Lemma missing_documentation_witness :
  (process_module Example.ext "ping" Example.opts Example.env (fun _ => "")
     "%s_module.rst" {["ping" := "lib/net/ping"]} start).2 = Exit 1.
Proof.
  refine (f_equal snd (proj1 (missing_documentation Example.ext Example.opts
    Example.env (fun _ => "") "%s_module.rst" {["ping" := "lib/net/ping"]}
    "ping" "lib/net/ping" _ _ _) _ start)).
  - reflexivity.
  - reflexivity.
  - reflexivity.
  - vm_compute. intros H. repeat (apply elem_of_cons in H as [H|H]; [discriminate H|]).
    by apply elem_of_nil in H.
Defined.

(** C6: a module whose documentation block is there but has no
    [version_added] field ends the run with exit code 1, after a diagnostic
    on the error stream that names the module, whether the module is exempt
    or not; the processing does not return, so no skip comes of it. *)
Theorem missing_version (ext : externals) (o : options)
    (env : environment) (tpl : template) (outputname : string)
    (module_map : gmap string string) (module fname : string)
    (d : doc) (ex : option string) (w : world) :
  module_map !! module = Some fname ->
  has "." (basename fname) = false ->
  get_docstring ext fname (verbose o) = (Some d, ex) ->
  d !! "version_added" = None ->
  process_module ext module o env tpl outputname module_map w =
    (complained ("*** ERROR: missing version_added in: " +:+ module
                 +:+ " ***" +:+ LF)
       (read fname (printed ("rendering: " +:+ module +:+ LF) w)), Exit 1) /\
  (process_module ext module o env tpl outputname module_map w).2
    <> Return (Some "SKIPPED").
Proof.
  intros Hm Hdot Hdoc Hv.
  rewrite (process_module_unversioned ext o env tpl outputname module_map
             module fname Hm w d ex Hdot Hdoc Hv).
  done.
Qed.

Lemma missing_version_witness :
  (process_module Example.ext "b" Example.opts Example.env (fun _ => "")
     "%s_module.rst" {["b" := "lib/net/b"]} start).2 = Exit 1.
Proof.
  refine (f_equal snd (proj1 (missing_version Example.ext Example.opts
    Example.env (fun _ => "") "%s_module.rst" {["b" := "lib/net/b"]}
    "b" "lib/net/b" {["module" := Str "b"]} None start _ _ _ _))).
  all: reflexivity.
Defined.

(** C9: a discovered module whose file name holds a point is passed over:
    the processing prints its notice and returns [None], without a call of
    the extractor, without a file and without an error.  As [None] is not
    the mark of the skipped, the loop over the category writes the line of
    the module into the listing, and the listing of a category that is
    processed to its end holds that line. *)
Theorem extension_listed (ext : externals) (o : options)
    (env : environment) (tpl : template) (outputname : string)
    (module_map : gmap string string) (module fname : string) :
  module_map !! module = Some fname ->
  has "." (basename fname) = true ->
  (forall w,
     process_module ext module o env tpl outputname module_map w =
       (printed ("rendering: " +:+ module +:+ LF) w, Return None)) /\
  (forall rest h w,
     process_modules ext (module :: rest) h o env tpl outputname module_map w =
     process_modules ext rest h o env tpl outputname module_map
       (written h (toctree_entry module)
          (printed ("rendering: " +:+ module +:+ LF) w))) /\
  (forall category categories w w',
     categories !! category = Some module_map ->
     process_category ext category categories o env tpl outputname w
       = (w', Return tt) ->
     exists path chunks,
       files w' !! length (files w) = Some (path, chunks) /\
       toctree_entry module ∈ chunks).
Proof.
  intros Hm Hdot.
  assert (Hnone : forall w,
     process_module ext module o env tpl outputname module_map w =
       (printed ("rendering: " +:+ module +:+ LF) w, Return None))
    by (intros w; by apply process_module_dotted with (fname := fname)).
  split; [done |]. split.
  - intros rest h w. cbn [process_modules]. unfold bind at 1.
    rewrite Hnone. by rewrite bool_decide_eq_true_2.
  - intros category categories w w' Hcat Hrun.
    eapply process_category_listed; [done | by eexists | | done].
    intros w1. by rewrite Hnone.
Qed.

Lemma extension_listed_witness :
  process_module Example.ext "ping.ps1" Example.opts Example.env (fun _ => "")
    "%s_module.rst" {["ping.ps1" := "lib/net/ping.ps1"]} start
  = (printed ("rendering: ping.ps1" +:+ LF) start, Return None).
Proof.
  refine (proj1 (extension_listed Example.ext Example.opts
    Example.env (fun _ => "") "%s_module.rst"
    {["ping.ps1" := "lib/net/ping.ps1"]} "ping.ps1" "lib/net/ping.ps1" _ _) start).
  all: reflexivity.
Defined.

(** C3 (a defect of the code): a block whose version is the float zero,
    as in [{'version_added': 0.0, 'options': {}, 'module': 'm'}].  The
    version is older than the threshold by its first two components, and the
    field stays, up to the context that the template gets.  The threshold is
    there so that a version older than 1.0 is not shown; the test of it
    stands under the guard [if added:], which is meant for the historical
    case ([added = 0]) and is false for the float zero as well.  In the same
    block the string "0.0" and the float 0.5 are stripped. *)
Lemma zero_version_kept :
  let v := Obj false "0.0" None in
  let d : doc :=
    <["version_added" := v]>
      (<["options" := Obj false "{}" (Some [])]> (<["module" := Str "m"]> ∅)) in
  eq_str v "historical" = false /\
  split "." (str v) = ["0"; "0"] /\
  (exists x, Float.float_of_string "0.0" = Some x /\
             Float.ltb x TO_OLD_TO_BE_NOTABLE = true) /\
  d !! "version_added" = Some v /\
  strip_version d start = (start, Return d) /\
  (exists c,
     (d' <- strip_version d ;;
      build_context Example.ext d' Example.opts "lib/net/m" None) start
       = (start, Return c) /\
     c !! "version_added" = Some (Given v)) /\
  strip_version (<["version_added" := Str "0.0"]> d) start =
    (start, Return (delete "version_added" d)) /\
  strip_version (<["version_added" := Obj true "0.5" None]> d) start =
    (start, Return (delete "version_added" d)).
Proof.
  cbn zeta. split; [done |]. split; [done |].
  split; [eexists; split; [vm_compute; reflexivity | reflexivity] |].
  split; [done |]. split; [done |].
  split; [eexists; split; [vm_compute; reflexivity | reflexivity] |].
  split; vm_compute; reflexivity.
Qed.

(** The version test where it does what the specification says of it:
    for a documentation block with a [version_added] field, the value
    "historical" removes the field; otherwise a value that the interpreter
    takes for true (not empty, not zero) and whose first two point-separated
    components make a number below 1.0 removes it; "1.0" is kept.  The
    context that the template gets holds the field as this test left it, and
    the text that is written is the template's for that context. *)
Theorem version_field (ext : externals) (o : options) (d : doc) (v : value) :
  d !! "version_added" = Some v ->
  (eq_str v "historical" = true ->
   forall w, strip_version d w = (w, Return (delete "version_added" d))) /\
  (eq_str v "historical" = false -> truth v = true ->
   forall t0 t1 x,
     split "." (str v) !! 0 = Some t0 -> split "." (str v) !! 1 = Some t1 ->
     Float.float_of_string (t0 +:+ "." +:+ t1) = Some x ->
     Float.ltb x TO_OLD_TO_BE_NOTABLE = true ->
     forall w, strip_version d w = (w, Return (delete "version_added" d))) /\
  (v = Str "1.0" -> forall w, strip_version d w = (w, Return d)) /\
  (forall env tpl outputname module_map module fname ex d' c w1 w2,
     module_map !! module = Some fname ->
     has "." (basename fname) = false ->
     get_docstring ext fname (verbose o) = (Some d, ex) ->
     strip_version d w1 = (w1, Return d') ->
     build_context ext d' o fname ex w2 = (w2, Return c) ->
     c !! "version_added" = Given <$> d' !! "version_added" /\
     forall w,
       process_module ext module o env tpl outputname module_map w =
         (write_data ext (tpl c) o outputname module ;; ret None)
           (read fname (printed ("rendering: " +:+ module +:+ LF) w))).
Proof.
  intros Hv. repeat split.
  - intros Hh w. by apply (strip_version_historical d v).
  - intros Hh Ht t0 t1 x H0 H1 Hx Hlt w.
    rewrite (strip_version_checked d v Hv w t0 t1 x) by done.
    by rewrite Hlt.
  - intros -> w.
    by rewrite (strip_version_checked d (Str "1.0") Hv w "1" "0"
                  TO_OLD_TO_BE_NOTABLE).
  - by eapply build_context_version.
  - intros w.
    rewrite (process_module_versioned ext o env tpl outputname module_map
               module fname H w d ex v) by done.
    unfold bind at 1.
    rewrite (pure_result _ _ _ _ (pure_strip_version d) H2).
    unfold bind at 1.
    by rewrite (pure_result _ _ _ _ (pure_build_context ext d' o fname ex) H3).
Qed.

Lemma version_field_witness :
  strip_version Example.block start = (start, Return Example.block).
Proof.
  refine (proj1 (proj2 (proj2
    (version_field Example.ext Example.opts Example.block (Str "1.0") _)))
    _ start); reflexivity.
Defined.

Lemma bind_no_raise {A B} (m : M A) (k : A -> M B) (w : world) (e : exn) :
  (m w).2 <> Raise e -> (forall a w', (k a w').2 <> Raise e) ->
  (bind m k w).2 <> Raise e.
Proof.
  intros Hm Hk. unfold bind.
  destruct (m w) as [w' [a|c|e']]; simpl in *; [apply Hk | done | congruence].
Qed.

Lemma build_context_no_IndexError (ext : externals) (d : doc) (o : options)
    (fname : string) (ex : option string) (w : world) :
  (build_context ext d o fname ex w).2 <> Raise IndexError.
Proof.
  unfold build_context, bind, getitem, iteritems, replace_method, ret, raise.
  repeat case_match; simplify_eq; done.
Qed.

Lemma write_data_no_IndexError (ext : externals) (text : string) (o : options)
    (outputname module : string) (w : world) :
  (write_data ext text o outputname module w).2 <> Raise IndexError.
Proof.
  unfold write_data, bind, open_w, write, print.
  repeat case_match; simplify_eq; done.
Qed.

(** C10: for a version that is true and not "historical": when its
    string form holds no point, the reading of the second token raises an
    [IndexError] that nobody handles, with no diagnostic on the error stream
    and no exit code of the program's own; when it holds a point, no
    [IndexError] comes out of the version test nor out of the processing of
    the module. *)
Theorem version_without_point (ext : externals) (o : options)
    (env : environment) (tpl : template) (outputname : string)
    (module_map : gmap string string) (module fname : string)
    (d : doc) (ex : option string) (v : value) :
  module_map !! module = Some fname ->
  has "." (basename fname) = false ->
  get_docstring ext fname (verbose o) = (Some d, ex) ->
  d !! "version_added" = Some v ->
  eq_str v "historical" = false -> truth v = true ->
  (has "." (str v) = false ->
   forall w,
     strip_version d w = (w, Raise IndexError) /\
     process_module ext module o env tpl outputname module_map w =
       (read fname (printed ("rendering: " +:+ module +:+ LF) w),
        Raise IndexError)) /\
  (has "." (str v) = true ->
   forall w,
     (strip_version d w).2 <> Raise IndexError /\
     (process_module ext module o env tpl outputname module_map w).2
       <> Raise IndexError).
Proof.
  intros Hm Hdot Hdoc Hv Hh Ht. split.
  - intros Hp w. split; [by apply (strip_version_pointless d v) |].
    rewrite (process_module_versioned ext o env tpl outputname module_map
               module fname Hm w d ex v) by done.
    unfold bind at 1. by rewrite (strip_version_pointless d v).
  - intros Hp w. split; [by apply (strip_version_pointed d v) |].
    rewrite (process_module_versioned ext o env tpl outputname module_map
               module fname Hm w d ex v) by done.
    apply bind_no_raise; [by apply (strip_version_pointed d v) | intros d' w1].
    apply bind_no_raise; [apply build_context_no_IndexError | intros c w2].
    apply bind_no_raise; [apply write_data_no_IndexError | done].
Qed.

Lemma version_without_point_witness :
  strip_version {["version_added" := Str "2"]} start = (start, Raise IndexError).
Proof.
  refine (proj1 (proj1 (version_without_point Example.ext Example.opts
    Example.env (fun _ => "") "%s_module.rst" {["a" := "lib/db/a"]} "a"
    "lib/db/a" {["version_added" := Str "2"]} None (Str "2") _ _ _ _ _ _)
    _ start)).
  all: reflexivity.
Defined.

End ModuleSpec.

(** ** The command line driver *)

Module MainSpec.
Import Str StrFacts Py Formatter Effects ModuleSpec.

Section Main.
Variable ext : externals.

Lemma jinja2_environment_unknown (template_dir typ : string) (w : world) :
  typ <> "rst" ->
  jinja2_environment ext template_dir typ w =
    (w, Raise (Exception ("unknown module format type: " +:+ typ))).
Proof.
  intros Htyp. unfold jinja2_environment.
  by apply String.eqb_neq in Htyp as ->.
Qed.

(** Without the [rst] type, [main] is the validation of the options and
    then the error of the environment. *)
Lemma main_unknown (o : options) (w : world) :
  type o <> "rst" ->
  main ext o w =
    (validate_options ext o ;;
     raise (Exception ("unknown module format type: " +:+ type o))) w.
Proof.
  intros Htyp. unfold main, bind.
  destruct (validate_options ext o w) as [w1 [[]|c|e]]; try done.
  by rewrite jinja2_environment_unknown.
Qed.

Lemma quiet_bind {A B} (m : M A) (k : A -> M B) :
  quiet m -> (forall a, quiet (k a)) -> quiet (bind m k).
Proof.
  intros Hm Hk w. unfold bind. specialize (Hm w).
  destruct (m w) as [w' [a|c|e]]; simpl in *; try done.
  destruct (Hk a w') as [H1 H2]. destruct Hm as [H3 H4]. split; congruence.
Qed.

Lemma quiet_pure {A} (m : M A) : pure m -> quiet m.
Proof. intros [r Hm] w. by rewrite Hm. Qed.

Lemma quiet_print (text : string) : quiet (print text).
Proof. done. Qed.

Lemma quiet_stderr_write (text : string) : quiet (stderr_write text).
Proof. done. Qed.

Ltac quiet_step :=
  first
    [ apply quiet_print | apply quiet_stderr_write
    | apply quiet_pure; first [apply pure_ret | apply pure_exit | apply pure_raise]
    | apply quiet_bind; [|intros ?]
    | match goal with |- quiet (if ?b then _ else _) => destruct b end
    | match goal with |- quiet (match ?x with _ => _ end) => destruct x end ].

Lemma quiet_boilerplate : quiet (boilerplate ext).
Proof. unfold boilerplate, print_stderr. repeat quiet_step. Qed.

Lemma quiet_validate_options (o : options) : quiet (validate_options ext o).
Proof.
  unfold validate_options, print_stderr.
  repeat first [apply quiet_boilerplate | quiet_step].
Qed.

Lemma validate_options_passes (o : options) (w : world) :
  do_boilerplate o = false -> module_dir o <> "" ->
  exists_ (system ext) (module_dir o) = true -> template_dir o <> "" ->
  validate_options ext o w = (w, Return tt).
Proof.
  intros Hb Hm%String.eqb_neq He Ht%String.eqb_neq.
  unfold validate_options. by rewrite Hb, Hm, He, Ht.
Qed.

Lemma validate_options_fails (o : options) (w : world) :
  do_boilerplate o = false ->
  module_dir o = "" \/ exists_ (system ext) (module_dir o) = false
  \/ template_dir o = "" ->
  (validate_options ext o w).2 = Exit 1.
Proof.
  intros Hb Hbad. unfold validate_options. rewrite Hb.
  unfold bind, print_stderr, stderr_write, print, ret, exit.
  destruct (String.eqb_spec (module_dir o) ""); [done |].
  destruct (exists_ (system ext) (module_dir o)); [|done].
  destruct (String.eqb_spec (template_dir o) ""); [done |].
  by destruct Hbad as [?|[?|?]].
Qed.

(** The outcome of a request for the boilerplate. *)
Lemma validate_options_boilerplate (o : options) (w : world) :
  do_boilerplate o = true ->
  (validate_options ext o w).2 =
    match read_file ext (EXAMPLE_YAML ext) with
    | Some _ => Exit 0
    | None => Raise (IOError (EXAMPLE_YAML ext))
    end.
Proof.
  intros Hb. unfold validate_options. rewrite Hb.
  unfold boilerplate, print_stderr, bind.
  destruct (negb _); simpl; by destruct (read_file ext (EXAMPLE_YAML ext)).
Qed.

End Main.

(** C8, as the specification has it, fails: a request for the
    boilerplate with the default type ends with exit code 0, after the
    boilerplate went to the standard output. *)
Lemma boilerplate_run_succeeds :
  let o := {| ansible_version := "unknown"; module_dir := "lib";
              template_dir := "hacking/templates"; type := "latex";
              verbose := false; output_dir := None; includes_file := None;
              do_boilerplate := true |} in
  type (defaults (generate_parser Example.ext)) = type o /\
  type o <> "rst" /\
  (main Example.ext o start).2 = Exit 0 /\
  stderr (main Example.ext o start).1 = [].
Proof. done. Qed.

(** C8 (amended): any type but [rst] makes the set-up of the
    environment raise "unknown module format type", and the type is [latex]
    by default.  A run without the [rst] type is the validation of the
    options followed by that error: no file is opened and no module goes to
    the extractor; the run does not return; it ends in that error when the
    options pass the validation; a request for the boilerplate ends with
    exit code 0 (or with the error of the reading of the boilerplate file);
    a missing module directory or template directory ends with exit
    code 1. *)
Theorem unknown_format (ext : externals) (o : options) :
  type o <> "rst" ->
  type (defaults (generate_parser ext)) = "latex" /\
  (forall template_dir w,
     jinja2_environment ext template_dir (type o) w =
       (w, Raise (Exception ("unknown module format type: " +:+ type o)))) /\
  (forall w,
     main ext o w =
       (validate_options ext o ;;
        raise (Exception ("unknown module format type: " +:+ type o))) w) /\
  (forall w,
     (main ext o w).2 <> Return tt /\
     files (main ext o w).1 = files w /\
     extracted (main ext o w).1 = extracted w) /\
  (do_boilerplate o = false -> module_dir o <> "" ->
   exists_ (system ext) (module_dir o) = true -> template_dir o <> "" ->
   forall w,
     main ext o w =
       (w, Raise (Exception ("unknown module format type: " +:+ type o)))) /\
  (do_boilerplate o = true ->
   forall w,
     (main ext o w).2 =
       match read_file ext (EXAMPLE_YAML ext) with
       | Some _ => Exit 0
       | None => Raise (IOError (EXAMPLE_YAML ext))
       end) /\
  (do_boilerplate o = false ->
   module_dir o = "" \/ exists_ (system ext) (module_dir o) = false
   \/ template_dir o = "" ->
   forall w, (main ext o w).2 = Exit 1).
Proof.
  intros Htyp. split; [done |]. split.
  { intros td w. by apply jinja2_environment_unknown. }
  split; [intros w; by apply main_unknown |]. split; [|split; [|split]].
  4: { intros Hb Hbad w. rewrite main_unknown by done.
       pose proof (validate_options_fails ext o w Hb Hbad) as Hv.
       unfold bind. by destruct (validate_options ext o w) as [w1 [[]|c|e]]. }
  - intros w. rewrite main_unknown by done.
    pose proof (quiet_validate_options ext o w) as [Hf He].
    unfold bind. destruct (validate_options ext o w) as [w1 [[]|c|e]];
      simpl in *; done.
  - intros Hb Hm He Ht w. rewrite main_unknown by done.
    unfold bind. by rewrite validate_options_passes.
  - intros Hb w. rewrite main_unknown by done.
    pose proof (validate_options_boilerplate ext o w Hb) as Hv.
    unfold bind. destruct (validate_options ext o w) as [w1 [[]|c|e]];
      simpl in *; try done.
    by destruct (read_file ext (EXAMPLE_YAML ext)).
Qed.

Lemma unknown_format_witness :
  main Example.ext (defaults (generate_parser Example.ext)) start =
    (start, Raise (Exception "unknown module format type: latex")).
Proof.
  refine (proj1 (proj2 (proj2 (proj2 (proj2
    (unknown_format Example.ext (defaults (generate_parser Example.ext)) _)))))
    _ _ _ _ start).
  - discriminate.
  - reflexivity.
  - discriminate.
  - reflexivity.
  - discriminate.
Defined.

End MainSpec.

(** ** The module discoverer *)

Module TreeSpec.
Import Str StrFacts OnePassFacts Py Formatter Tree.

Lemma chop_star_app (d : string) : chop_star (d +:+ "/*") = Some d.
Proof.
  induction d as [|c d IH]; [done |].
  cbn [String.append chop_star]. rewrite IH.
  destruct (String.eqb_spec (String c (d +:+ "/*")) "/*") as [H|]; [|done].
  injection H as _ H. apply (f_equal String.length) in H.
  rewrite length_append in H. simpl in H. lia.
Qed.

Lemma chop_prefix_app (p s : string) : chop_prefix p (p +:+ s) = Some s.
Proof.
  induction p as [|c p IH]; simpl; [by destruct s |].
  by rewrite Ascii.eqb_refl.
Qed.

Lemma append_neq (s t : string) (x : ascii) : s +:+ String x t <> s.
Proof.
  intros H. apply (f_equal String.length) in H.
  rewrite length_append in H. simpl in H. lia.
Qed.

Lemma split_nonempty (sep : ascii) (s : string) :
  exists t ts, split sep s = t :: ts.
Proof.
  induction s as [|c s (t & ts & IH)]; simpl; [by eauto |].
  destruct (Ascii.eqb c sep); [by eauto |]. rewrite IH. by eauto.
Qed.

Lemma split_app (sep : ascii) (a b : string) :
  split sep (a +:+ String sep b) = (split sep a ++ split sep b)%list.
Proof.
  induction a as [|c a IH]; simpl.
  - by rewrite Ascii.eqb_refl.
  - rewrite IH. destruct (Ascii.eqb c sep); [done |].
    by destruct (split_nonempty sep a) as (t & ts & ->).
Qed.

(** The last two tokens of the path of a module. *)
Lemma tokens_of_path (base c m : string) :
  has "/" c = false -> has "/" m = false ->
  let tokens := split "/" ((base +:+ "/" +:+ c) +:+ "/" +:+ m) in
  from_end 0 tokens = Some m /\ from_end 1 tokens = Some c.
Proof.
  intros Hc Hm. cbn zeta. rewrite append_assoc. cbn [String.append].
  rewrite !split_app, (split_absent _ _ Hc), (split_absent _ _ Hm).
  unfold from_end. by rewrite !rev_app_distr.
Qed.

(** *** Names and slashes *)

Lemma plain_name_spec (name : string) :
  plain_name name = true ->
  has "/" name = false /\ name <> "" /\ name <> "." /\ name <> "..".
Proof.
  unfold plain_name. intros H.
  repeat match goal with
         | H : _ && _ = true |- _ => apply andb_prop in H as [? ?]
         end.
  repeat match goal with
         | H : negb _ = true |- _ => apply negb_true_iff in H
         end.
  repeat split; try done; by apply String.eqb_neq.
Qed.

Lemma repeat_snoc (c : ascii) (k : nat) :
  repeat c k +:+ String c "" = repeat c (S k).
Proof. induction k as [|k IH]; simpl; [done | by rewrite IH]. Qed.

Lemma repeat_shift (c : ascii) (k : nat) (s : string) :
  repeat c k +:+ String c s = String c (repeat c k +:+ s).
Proof. induction k as [|k IH]; simpl; [done | by rewrite IH]. Qed.

Lemma all_slashes_repeat (k : nat) : all_slashes (repeat "/" k) = true.
Proof. by induction k. Qed.

Lemma ends_app (x : ascii) (a b : string) :
  b <> "" -> ends x (a +:+ b) = ends x b.
Proof.
  intros Hb. induction a as [|c a IH]; [done |].
  cbn [String.append ends]. rewrite IH.
  destruct (a +:+ b) eqn:Hab; [|done].
  by destruct a, b.
Qed.

Lemma has_ends (x : ascii) (s : string) : has x s = false -> ends x s = false.
Proof.
  induction s as [|c s IH]; [done |]. cbn [has ends].
  intros [Hc Hs]%orb_false_elim. destruct s; [done | by apply IH].
Qed.

(** A text that does not end with a slash is what is left of it when
    slashes are added and stripped again. *)
Lemma rstrip_slashes_app (r : string) (k : nat) :
  ends "/" r = false ->
  rstrip_slashes (r +:+ repeat "/" k) = r /\
  (r <> "" -> all_slashes (r +:+ repeat "/" k) = false).
Proof.
  induction r as [|c r IH]; intros Hr.
  - split; [|done]. cbn [String.append].
    destruct k as [|k]; [done |]. cbn [repeat rstrip_slashes].
    change (String "/" (repeat "/" k)) with (repeat "/" (S k)).
    by rewrite all_slashes_repeat.
  - assert (Hall : all_slashes (String c r +:+ repeat "/" k) = false).
    { cbn [String.append all_slashes]. destruct r as [|d r].
      - cbn [ends] in Hr. by rewrite Hr.
      - destruct (IH Hr) as [_ H]. rewrite H by done. apply andb_false_r. }
    split; [|done]. cbn [String.append rstrip_slashes].
    cbn [String.append] in Hall. rewrite Hall. f_equal.
    destruct r as [|d r]; [|by apply IH].
    cbn [String.append]. destruct k as [|k]; [done |].
    cbn [repeat rstrip_slashes].
    change (String "/" (repeat "/" k)) with (repeat "/" (S k)).
    by rewrite all_slashes_repeat.
Qed.

(** The directory that [glob] lists for a root given with slashes at its
    end. *)
Lemma split_head_root (root : string) (k : nat) :
  ends "/" root = false ->
  split_head (root +:+ repeat "/" k) =
    if String.eqb root "" then repeat "/" (S k) else root.
Proof.
  intros Hr. unfold split_head. cbn zeta.
  rewrite append_assoc, repeat_snoc.
  destruct (String.eqb_spec root "") as [->|Hne].
  - cbn [String.append]. by rewrite all_slashes_repeat.
  - destruct (rstrip_slashes_app root (S k) Hr) as [-> H]. by rewrite H.
Qed.

(** The directory that [glob] lists for an entry. *)
Lemma split_head_child (base c : string) :
  plain_name c = true ->
  split_head (base +:+ "/" +:+ c) = base +:+ "/" +:+ c.
Proof.
  intros (Hc & Hne & _)%plain_name_spec. unfold split_head. cbn zeta.
  assert (Hends : ends "/" (base +:+ "/" +:+ c) = false).
  { rewrite <- append_assoc, ends_app by done. by apply has_ends. }
  destruct (rstrip_slashes_app _ 1 Hends) as [H1 H2].
  change (repeat "/" 1) with "/" in H1, H2.
  rewrite H1, H2; [done | by destruct base].
Qed.

Lemma join_plain (a name : string) :
  a <> "" -> ends "/" a = false -> plain_name name = true ->
  join a name = a +:+ "/" +:+ name.
Proof.
  intros Ha Hends (Hn & _)%plain_name_spec. unfold join.
  rewrite (has_starts _ _ Hn), Hends.
  by apply String.eqb_neq in Ha as ->.
Qed.

Lemma ends_repeat (k : nat) : ends "/" (repeat "/" (S k)) = true.
Proof. induction k as [|k IH]; [done |]. by cbn [repeat ends] in *. Qed.

Lemma join_slashes (k : nat) (name : string) :
  plain_name name = true ->
  join (repeat "/" (S k)) name = repeat "/" k +:+ "/" +:+ name.
Proof.
  intros (Hn & _)%plain_name_spec. unfold join.
  rewrite (has_starts _ _ Hn), ends_repeat, orb_true_r.
  by rewrite <- repeat_snoc, append_assoc.
Qed.

Lemma split_repeat (k : nat) (s : string) :
  split "/" (repeat "/" k +:+ s) = (replicate k "" ++ split "/" s)%list.
Proof. induction k as [|k IH]; [done |]. simpl. by rewrite IH. Qed.

Lemma walk_skip (k : nat) (cs : list string) (up : list node)
    (entries : list (string * node)) :
  walk (replicate k "" ++ cs) up (Dir entries) = walk cs up (Dir entries).
Proof. induction k as [|k IH]; [done |]. simpl. apply IH. Qed.

Lemma has_magic_app (a b : string) :
  has_magic (a +:+ b) = has_magic a || has_magic b.
Proof.
  unfold has_magic. rewrite !has_app.
  by destruct (has "*" a), (has "?" a), (has "[" a), (has "*" b), (has "?" b).
Qed.

Lemma has_magic_repeat (k : nat) : has_magic (repeat "/" k) = false.
Proof. by induction k. Qed.

Lemma not_elem_replicate (k : nat) (c : string) :
  c <> ".." -> ".." ∉ (replicate k "" ++ [c])%list.
Proof.
  intros Hc [Hin|Hin]%elem_of_app.
  - by apply elem_of_replicate in Hin as [? _].
  - apply list_elem_of_singleton in Hin. congruence.
Qed.

Section Mounted.
Variables (root : string) (top : list (string * node)) (k : nat).
Variable ext : externals.
Hypothesis mounted_system : mounted (system ext) root (Dir top).
Hypothesis root_end : ends "/" root = false.
Hypothesis root_literal : has_magic root = false.

(** The root, however many slashes are put at its end. *)
Lemma resolve_root :
  resolve root (Dir top) (split_head (root +:+ repeat "/" k)) = Some (Dir top).
Proof.
  rewrite split_head_root by done. unfold resolve.
  destruct (String.eqb_spec root "") as [->|Hne].
  - cbn [repeat String.append String.eqb chop_prefix Ascii.eqb].
    simpl. rewrite <- (append_nil_r (repeat "/" k)), split_repeat.
    by rewrite walk_skip.
  - apply String.eqb_neq in Hne as ->. by rewrite String.eqb_refl.
Qed.

Lemma below_root : below root (root +:+ repeat "/" k) = true.
Proof.
  unfold below. destruct k as [|j].
  - cbn [repeat]. by rewrite append_nil_r, String.eqb_refl.
  - apply orb_true_iff. right. cbn [repeat].
    change (String "/" (repeat "/" j)) with ("/" +:+ repeat "/" j).
    rewrite <- append_assoc, chop_prefix_app.
    rewrite <- (append_nil_r (repeat "/" j)), split_repeat.
    apply negb_true_iff, bool_decide_eq_false_2.
    by apply (not_elem_replicate j "").
Qed.

(** The path of an entry of the root, as [glob] gives it. *)
Lemma shown_child (c : string) :
  exists j, shown root k +:+ "/" +:+ c = (root +:+ "/") +:+ repeat "/" j +:+ c.
Proof.
  unfold shown. destruct (String.eqb_spec root "") as [->|Hne].
  - exists k. cbn [String.append]. apply repeat_shift.
  - exists 0. by rewrite append_assoc.
Qed.

Lemma below_child (c : string) :
  plain_name c = true -> below root (shown root k +:+ "/" +:+ c) = true.
Proof.
  intros (Hc & _ & _ & Hdots)%plain_name_spec.
  destruct (shown_child c) as [j ->]. unfold below.
  rewrite chop_prefix_app, split_repeat, (split_absent _ _ Hc).
  rewrite (bool_decide_eq_false_2 _ (not_elem_replicate j c Hdots)).
  apply orb_true_r.
Qed.

Lemma resolve_child (c : string) :
  plain_name c = true ->
  resolve root (Dir top) (shown root k +:+ "/" +:+ c) = entry c top.
Proof.
  intros Hplain. pose proof Hplain as (Hc & Hne & Hdot & Hdots)%plain_name_spec.
  destruct (shown_child c) as [j ->]. unfold resolve.
  destruct (String.eqb_spec ((root +:+ "/") +:+ repeat "/" j +:+ c) "") as [H|_].
  { by destruct root. }
  destruct (String.eqb_spec ((root +:+ "/") +:+ repeat "/" j +:+ c) root)
    as [H|_].
  { apply (f_equal String.length) in H. rewrite !length_append in H.
    simpl in H. lia. }
  rewrite chop_prefix_app, split_repeat, (split_absent _ _ Hc), walk_skip.
  cbn [walk].
  apply String.eqb_neq in Hne as ->. apply String.eqb_neq in Hdot as ->.
  apply String.eqb_neq in Hdots as ->. cbn [orb].
  by destruct (entry c top).
Qed.

Lemma glob_root :
  forallb plain_name top.*1 = true ->
  glob (system ext) ((root +:+ repeat "/" k) +:+ "/*") =
    map (fun name => shown root k +:+ "/" +:+ name) (visible_names top).
Proof.
  intros Hnames. destruct mounted_system as [_ Hglob].
  rewrite Hglob; [|apply below_root |
                  by rewrite has_magic_app, root_literal, has_magic_repeat].
  cbn [glob tree_os].
  rewrite chop_star_app. cbn zeta. rewrite resolve_root.
  apply map_ext_in. intros name Hin.
  assert (Hname : plain_name name = true).
  { unfold visible_names in Hin.
    apply list_elem_of_In, list_elem_of_filter in Hin as [_ Hin].
    rewrite forallb_forall in Hnames. by apply Hnames, list_elem_of_In. }
  rewrite split_head_root by done. unfold shown.
  destruct (String.eqb_spec root "") as [->|Hne].
  - by apply join_slashes.
  - by apply join_plain.
Qed.

Lemma isdir_child (c : string) :
  plain_name c = true ->
  isdir (system ext) (shown root k +:+ "/" +:+ c) =
    match entry c top with Some (Dir _) => true | _ => false end.
Proof.
  intros Hc. destruct mounted_system as [Hisdir _].
  rewrite Hisdir by by apply below_child. cbn [isdir tree_os].
  by rewrite resolve_child.
Qed.

Lemma has_magic_shown : has_magic (shown root k) = false.
Proof.
  unfold shown. destruct (String.eqb root ""); [apply has_magic_repeat | done].
Qed.

Lemma glob_child (c : string) (entries : list (string * node)) :
  plain_name c = true -> has_magic c = false ->
  entry c top = Some (Dir entries) ->
  forallb plain_name entries.*1 = true ->
  glob (system ext) ((shown root k +:+ "/" +:+ c) +:+ "/*") =
    map (fun name => (shown root k +:+ "/" +:+ c) +:+ "/" +:+ name)
        (visible_names entries).
Proof.
  intros Hc Hmagic He Hnames. destruct mounted_system as [_ Hglob].
  rewrite Hglob; [|by apply below_child |
                  by rewrite !has_magic_app, has_magic_shown, Hmagic].
  cbn [glob tree_os].
  rewrite chop_star_app. cbn zeta.
  rewrite split_head_child, resolve_child, He by done.
  apply map_ext_in. intros name Hin.
  assert (Hname : plain_name name = true).
  { unfold visible_names in Hin.
    apply list_elem_of_In, list_elem_of_filter in Hin as [_ Hin].
    rewrite forallb_forall in Hnames. by apply Hnames, list_elem_of_In. }
  apply plain_name_spec in Hc as (Hc & Hne & _).
  apply join_plain; [by destruct (shown root k) | | done].
  rewrite <- append_assoc, ends_app by done. by apply has_ends.
Qed.

(** The inner loop, on the visible files of a category. *)
Lemma index_files_tree (base c : string) (ms : list string)
    (cats : gmap string (gmap string string)) :
  has "/" c = false -> forallb plain_name ms = true ->
  index_files (map (fun m => (base +:+ "/" +:+ c) +:+ "/" +:+ m) ms) cats =
    Return match ms with
           | [] => cats
           | _ => <[c := add_modules (base +:+ "/" +:+ c) ms
                           (default ∅ (cats !! c))]> cats
           end.
Proof.
  intros Hc. revert cats. induction ms as [|m ms IH]; intros cats Hms; [done |].
  simpl in Hms. apply andb_prop in Hms as [Hm Hms].
  apply plain_name_spec in Hm as (Hm & _).
  cbn [map index_files].
  destruct (tokens_of_path base c m Hc Hm) as [-> ->].
  rewrite (IH _ Hms). f_equal.
  assert (Hstep :
    <[c := <[m := (base +:+ "/" +:+ c) +:+ "/" +:+ m]>
             (default ∅ (match cats !! c with
                         | Some _ => cats
                         | None => <[c := ∅]> cats
                         end !! c))]>
      match cats !! c with Some _ => cats | None => <[c := ∅]> cats end =
    <[c := <[m := (base +:+ "/" +:+ c) +:+ "/" +:+ m]> (default ∅ (cats !! c))]>
      cats).
  { destruct (cats !! c) as [mm|] eqn:Hcats.
    - by rewrite Hcats.
    - by rewrite lookup_insert_eq, insert_insert_eq. }
  rewrite Hstep. destruct ms as [|m' ms]; [done |].
  by rewrite lookup_insert_eq, insert_insert_eq.
Qed.

(** The outer loop, on the visible entries of the root. *)
Lemma index_dirs_tree (cs : list string)
    (cats : gmap string (gmap string string)) :
  forallb plain_name cs = true ->
  (forall c entries, c ∈ cs -> entry c top = Some (Dir entries) ->
                     has_magic c = false /\
                     forallb plain_name entries.*1 = true) ->
  index_dirs ext (map (fun c => shown root k +:+ "/" +:+ c) cs) cats =
    Return (foldl (add_category (shown root k) top) cats cs).
Proof.
  revert cats. induction cs as [|c cs IH]; intros cats Hcs Hsub; [done |].
  simpl in Hcs. apply andb_prop in Hcs as [Hc Hcs].
  cbn [map index_dirs foldl]. rewrite (isdir_child c Hc).
  unfold add_category at 2.
  destruct (entry c top) as [[|entries]|] eqn:He.
  - apply IH; [done |]. intros c' es' Hin. apply Hsub. by right.
  - destruct (Hsub c entries) as [Hmagic Hall]; [left | done |].
    rewrite (glob_child c entries Hc Hmagic He Hall).
    rewrite index_files_tree; [| by apply plain_name_spec in Hc as [? _] |].
    + destruct (visible_names entries);
        (apply IH; [done |]; intros c' es' Hin; apply Hsub; by right).
    + unfold visible_names. apply forallb_forall. intros x Hx.
      apply list_elem_of_In, list_elem_of_filter in Hx as [_ Hx].
      rewrite forallb_forall in Hall. by apply Hall, list_elem_of_In.
  - apply IH; [done |]. intros c' es' Hin. apply Hsub. by right.
Qed.

End Mounted.

(** *** What the mapping holds *)

Lemma add_modules_lookup (d : string) (ms : list string)
    (mm : gmap string string) (m : string) :
  add_modules d ms mm !! m =
    if bool_decide (m ∈ ms) then Some (d +:+ "/" +:+ m) else mm !! m.
Proof.
  unfold add_modules. revert mm. induction ms as [|m' ms IH]; intros mm.
  - cbn [foldl]. case_bool_decide as H; [by apply elem_of_nil in H | done].
  - cbn [foldl]. rewrite IH.
    destruct (decide (m = m')) as [->|Hne].
    + rewrite lookup_insert_eq.
      rewrite (bool_decide_eq_true_2 (m' ∈ m' :: ms)) by left.
      by destruct (bool_decide (m' ∈ ms)).
    + rewrite lookup_insert_ne by done.
      assert (bool_decide (m ∈ m' :: ms) = bool_decide (m ∈ ms)) as ->; [|done].
      apply bool_decide_ext. rewrite elem_of_cons.
      split; [by intros [?|?] | by right].
Qed.

Lemma add_category_other (base : string) (top : list (string * node))
    (cats : gmap string (gmap string string)) (c c' : string) :
  c <> c' -> add_category base top cats c !! c' = cats !! c'.
Proof.
  intros Hne. unfold add_category.
  destruct (entry c top) as [[|entries]|]; try done.
  destruct (visible_names entries); [done |]. by rewrite lookup_insert_ne.
Qed.

Lemma foldl_add_category_lookup (base : string) (top : list (string * node))
    (cs : list string) (cats : gmap string (gmap string string)) (c : string) :
  NoDup cs ->
  foldl (add_category base top) cats cs !! c =
    if bool_decide (c ∈ cs) then add_category base top cats c !! c
    else cats !! c.
Proof.
  intros Hnd. revert cats. induction Hnd as [|c' cs Hnin Hnd IH]; intros cats.
  - cbn [foldl]. case_bool_decide as H; [by apply elem_of_nil in H | done].
  - cbn [foldl]. rewrite IH.
    destruct (decide (c = c')) as [->|Hne].
    + rewrite (bool_decide_eq_false_2 _ Hnin).
      by rewrite bool_decide_eq_true_2 by left.
    + assert (Hsame : bool_decide (c ∈ c' :: cs) = bool_decide (c ∈ cs)).
      { apply bool_decide_ext. rewrite elem_of_cons.
        split; [by intros [?|?] | by right]. }
      assert (Hne' : c' <> c) by congruence.
      rewrite Hsame. clear Hsame.
      destruct (bool_decide (c ∈ cs)); [|by rewrite add_category_other].
      unfold add_category at 1 3.
      destruct (entry c top) as [[|entries]|];
        try by rewrite add_category_other.
      destruct (visible_names entries);
        [by rewrite add_category_other |].
      rewrite !lookup_insert_eq. by rewrite add_category_other.
Qed.

Lemma entry_elem (name : string) (entries : list (string * node)) :
  is_Some (entry name entries) <-> name ∈ entries.*1.
Proof.
  induction entries as [|[n x] entries IH]; simpl.
  - split; [by intros [? ?] | by intros ?%elem_of_nil].
  - destruct (String.eqb_spec n name) as [->|Hne].
    + split; [intros _; left | by eauto].
    + rewrite IH. split; [by right |].
      by intros [?|?]%elem_of_cons.
Qed.

Lemma visible_names_elem (name : string) (entries : list (string * node)) :
  name ∈ visible_names entries <->
  visible name = true /\ is_Some (entry name entries).
Proof.
  unfold visible_names. by rewrite list_elem_of_filter, entry_elem.
Qed.

Lemma entry_In (name : string) (entries : list (string * node)) (x : node) :
  entry name entries = Some x -> (name, x) ∈ entries.
Proof.
  induction entries as [|[n y] entries IH]; simpl; [done |].
  destruct (String.eqb_spec n name) as [->|Hne].
  - intros [= ->]. left.
  - intros H. right. by apply IH.
Qed.

Section Index.
Variables (root : string) (top : list (string * node)) (k : nat).
Variable ext : externals.
Hypothesis mounted_system : mounted (system ext) root (Dir top).
Hypothesis well_formed : mountable root (Dir top) = true.

Lemma list_modules_tree :
  list_modules ext (root +:+ repeat "/" k) =
    Return (foldl (add_category (shown root k) top) ∅ (visible_names top)).
Proof.
  unfold list_modules.
  unfold mountable in well_formed.
  repeat match goal with
         | H : _ && _ = true |- _ => apply andb_prop in H as [? ?]
         end.
  assert (Hend : ends "/" root = false) by by apply negb_true_iff.
  assert (Hlit : has_magic root = false) by by apply negb_true_iff.
  rewrite (glob_root root top k ext mounted_system Hend Hlit) by done.
  apply (index_dirs_tree root top k ext mounted_system Hend Hlit).
  - unfold visible_names. apply forallb_forall. intros x Hx.
    apply list_elem_of_In, list_elem_of_filter in Hx as [_ Hx].
    match goal with
    | H : forallb plain_name top.*1 = true |- _ =>
        rewrite forallb_forall in H; by apply H, list_elem_of_In
    end.
  - intros c entries _ He%entry_In.
    match goal with
    | H : forallb (fun e => match e.2 with _ => _ end) top = true |- _ =>
        rewrite forallb_forall in H;
        apply list_elem_of_In, H in He; simpl in He;
        apply andb_prop in He as [Hm He]
    end.
    split; [by apply negb_true_iff | done].
Qed.

Lemma category_lookup (base cat : string) :
  foldl (add_category base top) ∅ (visible_names top) !! cat =
    if visible cat then
      match entry cat top with
      | Some (Dir entries) =>
          match visible_names entries with
          | [] => None
          | _ => Some (add_modules (base +:+ "/" +:+ cat)
                         (visible_names entries) ∅)
          end
      | _ => None
      end
    else None.
Proof.
  rewrite foldl_add_category_lookup.
  - case_bool_decide as Hin.
    + apply visible_names_elem in Hin as [-> _].
      unfold add_category. destruct (entry cat top) as [[|entries]|]; try done.
      destruct (visible_names entries); [done |].
      by rewrite lookup_insert_eq.
    + rewrite lookup_empty. destruct (visible cat) eqn:Hv; [|done].
      destruct (entry cat top) as [x|] eqn:He; [|done].
      exfalso. apply Hin, visible_names_elem. by eauto.
  - unfold visible_names. apply NoDup_filter.
    unfold mountable in well_formed.
    repeat match goal with
           | H : _ && _ = true |- _ => apply andb_prop in H as [? ?]
           end.
    match goal with
    | H : bool_decide _ = true |- _ => by apply bool_decide_eq_true in H
    end.
Qed.

End Index.

(** The tree of the specification: two categories of two modules. *)
Example list_modules_library :
  list_modules Example.ext "lib" =
    Return {[ "net" := {[ "a" := "lib/net/a"; "b" := "lib/net/b" ]};
              "db" := {[ "a" := "lib/db/a"; "b" := "lib/db/b" ]} ]}.
Proof. vm_compute. reflexivity. Qed.

(** C4, as the specification has it, fails: the hidden entries of the
    second level, and the entries under a hidden category, are second-level
    entries of the tree and are not in the mapping.  Nor are the entries of
    a category whose name holds a magic character, which [glob] reads as a
    pattern: the module [lib/a[b]/m] is left out, and the mapping is
    empty. *)
Lemma entries_left_out :
  walk ["net"; ".cache"] [] Example.cluttered = Some File /\
  walk [".git"; "config"] [] Example.cluttered = Some File /\
  (exists cats,
     list_modules (Example.mount Example.cluttered None) "lib" = Return cats /\
     cats !! "net" ≫= (.!! ".cache") = None /\
     cats !! ".git" = None /\
     cats !! "net" ≫= (.!! "a") = Some "lib/net/a") /\
  walk ["a[b]"; "m"] [] Sample.brackets = Some File /\
  list_modules Sample.brackets_ext "lib" = Return ∅.
Proof.
  split; [done |]. split; [done |]. split; [|done].
  eexists. split; [|split; [|split]].
  - by apply (list_modules_tree "lib" Example.cluttered_top 0
                (Example.mount Example.cluttered None)).
  - by rewrite (category_lookup "lib" Example.cluttered_top eq_refl).
  - by rewrite (category_lookup "lib" Example.cluttered_top eq_refl).
  - by rewrite (category_lookup "lib" Example.cluttered_top eq_refl).
Qed.

(** C4 (amended): for a root directory whose path holds no magic
    character of [glob] (a star, a question mark, an opening bracket), with
    categories whose names hold none either, the discoverer returns without
    error the mapping that holds exactly the entries [root/category/module]
    of the second level, files and directories alike, whose category is a
    directory and whose two names are not hidden (do not begin with a
    point): entries at the root, entries deeper down and hidden entries are
    not in it, and no category is empty.  The root may be given with slashes
    at its end, which the recorded paths do not show ([shown]).  An empty
    root gives the empty mapping. *)
Theorem second_level_index (ext : externals) (root : string)
    (top : list (string * node)) (k : nat) :
  mounted (system ext) root (Dir top) ->
  mountable root (Dir top) = true ->
  exists cats,
    list_modules ext (root +:+ repeat "/" k) = Return cats /\
    (forall cat m p,
       cats !! cat ≫= (.!! m) = Some p <->
       exists entries,
         visible cat = true /\ entry cat top = Some (Dir entries) /\
         visible m = true /\ is_Some (entry m entries) /\
         p = shown root k +:+ "/" +:+ cat +:+ "/" +:+ m) /\
    (forall cat mm, cats !! cat = Some mm -> mm <> ∅) /\
    (top = [] -> cats = ∅).
Proof.
  intros Hsys Hwf. eexists. split; [by apply list_modules_tree |].
  split; [|split].
  - intros cat m p. rewrite (category_lookup root top Hwf).
    split.
    + destruct (visible cat) eqn:Hv; [|done].
      destruct (entry cat top) as [[|entries]|] eqn:He; try done.
      destruct (visible_names entries) as [|m0 ms] eqn:Hms; [done |].
      cbn [mbind option_bind]. rewrite add_modules_lookup, lookup_empty.
      case_bool_decide as Hin; [|done]. intros [= <-].
      rewrite <- Hms in Hin. apply visible_names_elem in Hin as [Hm Hsome].
      exists entries. by rewrite append_assoc.
    + intros (entries & -> & -> & Hm & Hsome & ->).
      assert (Hin : m ∈ visible_names entries)
        by by apply visible_names_elem.
      destruct (visible_names entries) as [|m0 ms] eqn:Hms;
        [by apply elem_of_nil in Hin |].
      cbn [mbind option_bind].
      rewrite add_modules_lookup, bool_decide_eq_true_2 by done.
      by rewrite append_assoc.
  - intros cat mm. rewrite (category_lookup root top Hwf).
    destruct (visible cat); [|done].
    destruct (entry cat top) as [[|entries]|]; try done.
    destruct (visible_names entries) as [|m0 ms] eqn:Hms; [done |].
    intros Hmm Hempty. injection Hmm as Hmm. subst mm.
    apply (f_equal (.!! m0)) in Hempty.
    rewrite add_modules_lookup in Hempty.
    case_bool_decide; [done |]. by rewrite lookup_insert_eq in Hempty.
  - by intros ->.
Qed.

Lemma second_level_index_witness :
  exists cats,
    list_modules Example.ext ("lib" +:+ repeat "/" 1) = Return cats /\
    cats !! "net" ≫= (.!! "a") = Some "lib/net/a" /\
    cats !! "db" ≫= (.!! "b") = Some "lib/db/b".
Proof.
  destruct (second_level_index Example.ext "lib" Example.library_top 1)
    as (cats & Hrun & Hiff & _); [by split | reflexivity |].
  exists cats. split; [exact Hrun |]. split; apply Hiff.
  - exists [("a", File); ("b", File)]. repeat split; try reflexivity. by eexists.
  - exists [("a", File); ("b", File)]. repeat split; try reflexivity. by eexists.
Defined.

End TreeSpec.

(** ** The helpers of the templates *)

Module FilterSpec.
Import Str StrFacts Filters.

Lemma length_copies (n : nat) (s : string) :
  String.length (copies n s) = n * String.length s.
Proof.
  induction n as [|n IH]; [done |]. simpl. by rewrite length_append, IH.
Qed.

(** X1: a line that [rst_xline] returns is as long as the width (zero
    for a width below zero) times the length of the pencil.  It returns one
    when the width fits an index, the length of the line fits a size and the
    machine has the memory for it: the width itself is then the length for a
    pencil of one character and for the pencil by default, and a width of
    zero or below gives the empty line.  A width that does not fit an index
    raises [OverflowError], and so does a line too long for a size. *)
Theorem rst_xline_length (maxsize : Z) (allocates : Z -> bool)
    (width : Z) (char : option string) :
  let pencil := default "=" char in
  let size := (Z.of_nat (String.length pencil) * Z.max 0 width)%Z in
  (forall s, rst_xline maxsize allocates width char = Line s ->
     String.length s = Z.to_nat width * String.length pencil) /\
  ((- maxsize - 1 <= width <= maxsize)%Z -> (size <= maxsize)%Z ->
   allocates size = true ->
   exists s,
     rst_xline maxsize allocates width char = Line s /\
     String.length s = Z.to_nat width * String.length pencil /\
     (String.length pencil = 1 -> String.length s = Z.to_nat width) /\
     ((width <= 0)%Z -> s = "")) /\
  ((width < - maxsize - 1)%Z \/ (maxsize < width)%Z ->
   rst_xline maxsize allocates width char =
     OverflowError "cannot fit 'long' into an index-sized integer") /\
  ((- maxsize - 1 <= width <= maxsize)%Z -> (maxsize < size)%Z ->
   rst_xline maxsize allocates width char =
     OverflowError "repeated string is too long").
Proof.
  cbn zeta. unfold rst_xline, times.
  set (pencil := default "=" char).
  set (len := Z.of_nat (String.length pencil)).
  assert (Hlen : (0 <= len)%Z) by lia.
  assert (Hline : forall s,
    (if (len * Z.max 0 width =? len)%Z then Line pencil
     else if allocates (len * Z.max 0 width)%Z
          then Line (copies (Z.to_nat (Z.max 0 width)) pencil)
          else MemoryError) = Line s ->
    String.length s = Z.to_nat width * String.length pencil /\
    ((width <= 0)%Z -> s = "")).
  { intros s. destruct (Z.eqb_spec (len * Z.max 0 width) len) as [He|Hne].
    - intros [= <-]. split.
      + destruct (String.length pencil) as [|n] eqn:Hn; [lia |].
        assert (Z.max 0 width = 1)%Z by (unfold len in *; nia).
        replace (Z.to_nat width) with 1 by lia. lia.
      + intros Hw. replace (Z.max 0 width) with 0%Z in He by lia.
        destruct pencil; [done | unfold len in He; simpl in He; lia].
    - destruct (allocates _); [|done]. intros [= <-].
      rewrite length_copies. split; [f_equal; lia |].
      intros Hw. by replace (Z.to_nat (Z.max 0 width)) with 0 by lia. }
  split; [|split; [|split]].
  - intros s. destruct (_ || _); [done |].
    destruct (_ <? _)%Z; [done |]. intros H. by apply Hline in H as [? _].
  - intros Hw Hsize Halloc.
    assert ((width <? - maxsize - 1)%Z || (maxsize <? width)%Z = false) as ->
      by (apply orb_false_intro; lia).
    assert ((maxsize <? len * Z.max 0 width)%Z = false) as -> by lia.
    rewrite Halloc.
    pose proof (Hline pencil) as Hp.
    pose proof (Hline (copies (Z.to_nat (Z.max 0 width)) pencil)) as Hc.
    rewrite Halloc in Hp, Hc.
    destruct (len * Z.max 0 width =? len)%Z.
    + exists pencil. split; [done |]. destruct (Hp eq_refl) as [Hl He0].
      split; [done |]. split; [|done]. intros H1. rewrite Hl, H1. lia.
    + eexists. split; [done |]. destruct (Hc eq_refl) as [Hl He0].
      split; [done |]. split; [|done]. intros H1. rewrite Hl, H1. lia.
  - intros Hw.
    assert ((width <? - maxsize - 1)%Z || (maxsize <? width)%Z = true) as ->;
      [|done].
    apply orb_true_iff. lia.
  - intros Hw Hsize.
    assert ((width <? - maxsize - 1)%Z || (maxsize <? width)%Z = false) as ->
      by (apply orb_false_intro; lia).
    by assert ((maxsize <? len * Z.max 0 width)%Z = true) as -> by lia.
Qed.

Lemma rst_xline_length_witness :
  exists s,
    rst_xline (2 ^ 63 - 1) (fun size => (size <? 2 ^ 40)%Z) 12 None = Line s /\
    String.length s = 12.
Proof.
  destruct (rst_xline_length (2 ^ 63 - 1) (fun size => (size <? 2 ^ 40)%Z)
              12 None) as (_ & Hreturns & _).
  destruct Hreturns as (s & Hs & Hlen & _); [done | done | done |].
  exists s. split; [exact Hs | exact Hlen].
Defined.

Lemma percent_literal (s arg : string) (used : bool) :
  has "%" s = false ->
  forall rest, percent (s +:+ rest) arg used = prepend s (percent rest arg used).
Proof.
  intros Hs rest. induction s as [|c s IH].
  - simpl. by destruct (percent rest arg used).
  - cbn [has] in Hs. apply orb_false_elim in Hs as [Hc Hs].
    cbn [String.append].
    assert (percent (String c (s +:+ rest)) arg used =
            prepend (String c "") (percent (s +:+ rest) arg used)) as ->.
    { destruct c as [[] [] [] [] [] [] [] []]; try done. }
    rewrite (IH Hs). by destruct (percent rest arg used).
Qed.

(** X2: [rst_fmt] puts the text where the one [%s] of the format
    stands, whatever the text holds; a format that holds no percent sign at
    all raises the [TypeError] of the argument that was not converted, and
    a second [%s] that of the missing argument. *)
Theorem rst_fmt_one_directive (text pre post : string) :
  has "%" pre = false -> has "%" post = false ->
  rst_fmt text (pre +:+ "%s" +:+ post) = Formatted (pre +:+ text +:+ post) /\
  rst_fmt text pre =
    TypeError "not all arguments converted during string formatting" /\
  rst_fmt text (pre +:+ "%s" +:+ post +:+ "%s") =
    TypeError "not enough arguments for format string".
Proof.
  intros Hpre Hpost. unfold rst_fmt. repeat split.
  - rewrite (percent_literal pre) by done. cbn [String.append percent].
    rewrite <- (append_nil_r post) at 1. rewrite (percent_literal post) by done.
    simpl. by rewrite append_nil_r.
  - rewrite <- (append_nil_r pre). by rewrite (percent_literal pre).
  - rewrite (percent_literal pre) by done. cbn [String.append percent].
    by rewrite (percent_literal post).
Qed.

Lemma rst_fmt_one_directive_witness :
  rst_fmt "a%sb" ("``" +:+ "%s" +:+ "``") = Formatted ("``" +:+ "a%sb" +:+ "``").
Proof.
  apply (rst_fmt_one_directive "a%sb" "``" "``"); reflexivity.
Defined.

End FilterSpec.

(** ** The translators on whole texts *)

Module TranslatorSpec.
Import Str StrFacts Markup MarkupFacts OnePass OnePassFacts MarkupSpec.

(** A pass finds nothing to replace in a text without an opening or
    without a closing parenthesis. *)
Lemma sub_untouched (p : pattern) (r : template) (s : string) :
  has "(" s = false \/ has ")" s = false -> sub p r s = s.
Proof.
  intros [Hs|Hs]; [by rewrite sub_scan, scan_plain |].
  induction s as [|c s IH]; [done |]. rewrite sub_cons.
  destruct (match_at p (String c s)) as [[x a]|] eqn:Hm.
  - apply match_at_sound in Hm as (Heq & _ & _). rewrite Heq in Hs.
    cbn [has] in Hs. rewrite has_app in Hs. cbn [has] in Hs.
    rewrite Ascii.eqb_refl in Hs. simpl in Hs.
    by rewrite !orb_true_r in Hs.
  - cbn [has] in Hs. apply orb_false_elim in Hs as [_ Hs]. by rewrite IH.
Qed.

Lemma passes_untouched (f : table) (s : string) :
  has "(" s = false \/ has ")" s = false -> passes f s = s.
Proof.
  intros Hs. induction f as [|[p r] f IH]; [done |]. simpl.
  rewrite IH. by apply sub_untouched.
Qed.

(** X3: text in which no marker can be read, because it holds no opening
    or no closing parenthesis, goes through the translators as it is:
    [rst_ify] returns it unchanged, and [html_ify] returns its escaping. *)
Theorem unmarked_text (text : string) :
  has "(" text = false \/ has ")" text = false ->
  rst_ify text = text /\ html_ify text = cgi_escape text.
Proof.
  intros Hs. split.
  - rewrite rst_ify_passes. by apply passes_untouched.
  - rewrite html_ify_passes. apply passes_untouched.
    by rewrite cgi_escape_open, cgi_escape_close.
Qed.

Lemma unmarked_text_witness :
  rst_ify "see B(the manual" = "see B(the manual" /\
  html_ify "see B(the manual" = cgi_escape "see B(the manual".
Proof. apply unmarked_text. right. reflexivity. Defined.

(** *** The first marker of a flat text *)

Lemma flat_weaken (b : bool) (s : string) :
  flat_from (Out true) s = true -> flat_from (Out b) s = true.
Proof.
  destruct s as [|c s]; [done |]. simpl.
  destruct (Ascii.eqb c "("); [done |]. by destruct (Ascii.eqb c ")").
Qed.

Lemma flat_closed (s : string) :
  flat s = true -> starts "(" s = false -> flat_from (Out true) s = true.
Proof.
  unfold flat. destruct s as [|c s]; [done |]. simpl. intros H Hc.
  rewrite Hc in *. by destruct (Ascii.eqb c ")").
Qed.

Lemma flat_group_then (m : mode) (x rest : string) :
  has "(" x = false -> flat_from (Out true) rest = true ->
  flat_from m (x +:+ String ")" rest) = true.
Proof.
  intros Hx Hrest. revert m. induction x as [|c x IH]; intros m; [done |].
  simpl in Hx. apply orb_false_elim in Hx as [Hc Hx].
  cbn [String.append flat_from]. rewrite Hc.
  destruct (Ascii.eqb c ")"); [by apply IH |]. destruct m; by apply IH.
Qed.

Lemma flat_marker_then (q : ascii) (pre x rest : string) (b : bool) :
  q <> "("%char -> q <> ")"%char ->
  has "(" pre = false -> has "(" x = false ->
  flat_from (Out true) rest = true ->
  flat_from (Out b) (pre +:+ String q (String "(" (x +:+ String ")" rest))) = true.
Proof.
  intros Hq1%Ascii.eqb_neq Hq2%Ascii.eqb_neq Hpre Hx Hrest. revert b.
  induction pre as [|c pre IH]; intros b.
  - cbn [String.append flat_from]. rewrite Hq1, Hq2, Ascii.eqb_refl.
    by apply flat_group_then.
  - simpl in Hpre. apply orb_false_elim in Hpre as [Hc Hpre].
    cbn [String.append flat_from]. rewrite Hc.
    destruct (Ascii.eqb c ")"); by apply IH.
Qed.

Lemma scan_first_marker (f : table) (q : ascii) (t : template)
    (pre x rest : string) :
  tlookup f q = Some t -> q <> "("%char ->
  has "(" pre = false -> x <> "" -> has ")" x = false ->
  scan f (pre +:+ String q (String "(" (x +:+ String ")" rest))) =
  pre +:+ expand t x +:+ scan f rest.
Proof.
  intros Hq Hq1 Hpre Hne Hx.
  rewrite scan_app_plain; [|done | by apply Ascii.eqb_neq].
  by rewrite scan_cons, Hq, (match_at_complete _ _ _ Hne Hx).
Qed.

Lemma flat_cgi_escape (m : mode) (s : string) :
  flat_from m (cgi_escape s) = flat_from m s.
Proof.
  revert m. induction s as [|c s IH]; intros m; [done |].
  rewrite cgi_escape_cons. unfold escape_char.
  destruct (Ascii.eqb_spec c "&") as [->|H1]; [by destruct m as [[]|]; simpl |].
  destruct (Ascii.eqb_spec c "<") as [->|H2]; [by destruct m as [[]|]; simpl |].
  destruct (Ascii.eqb_spec c ">") as [->|H3]; [by destruct m as [[]|]; simpl |].
  cbn [String.append flat_from].
  destruct (Ascii.eqb c "("), (Ascii.eqb c ")"), m as [[]|]; by rewrite ?IH.
Qed.

Lemma starts_cgi_escape (s : string) :
  starts "(" (cgi_escape s) = starts "(" s.
Proof.
  destruct s as [|c s]; [done |]. rewrite cgi_escape_cons. unfold escape_char.
  destruct (Ascii.eqb_spec c "&") as [->|H1]; [done |].
  destruct (Ascii.eqb_spec c "<") as [->|H2]; [done |].
  by destruct (Ascii.eqb_spec c ">") as [->|H3].
Qed.

(** X4: the translators work their way through a flat text marker by
    marker: when the text begins with a stretch without parentheses and a
    well-formed marker, and goes on with flat text that does not open a
    parenthesis at once, the translation is the stretch, the marker's
    template filled with the group, and the translation of the rest (with
    the stretch and the group escaped, for [html_ify]). *)
Theorem first_marker (q : ascii) (pre x rest : string) :
  has "(" pre = false -> x <> "" -> has "(" x = false -> has ")" x = false ->
  flat rest = true -> starts "(" rest = false ->
  (forall t, (q, t) ∈ rst_table ->
     rst_ify (pre +:+ String q ("(" +:+ x +:+ ")" +:+ rest)) =
       pre +:+ expand t x +:+ rst_ify rest) /\
  (forall t, (q, t) ∈ html_table ->
     html_ify (pre +:+ String q ("(" +:+ x +:+ ")" +:+ rest)) =
       cgi_escape pre +:+ expand t (cgi_escape x) +:+ html_ify rest).
Proof.
  intros Hpre Hne Hx Hx' Hflat Hrest. split.
  - intros t Hin.
    assert (Hq : tlookup rst_table q = Some t).
    { repeat (apply elem_of_cons in Hin as [[= -> ->]|Hin]; [done |]).
      by apply elem_of_nil in Hin. }
    destruct (tlookup_ok rst_table q t eq_refl Hq) as (_ & Hq1 & Hq2).
    cbn [String.append].
    rewrite (rst_ify_passes rest), (passes_scan _ rest) by done.
    rewrite rst_ify_passes, passes_scan; [by apply scan_first_marker | done |].
    apply flat_marker_then; try done. by apply flat_closed.
  - intros t Hin.
    assert (Hq : tlookup html_table q = Some t).
    { repeat (apply elem_of_cons in Hin as [[= -> ->]|Hin]; [done |]).
      by apply elem_of_nil in Hin. }
    destruct (tlookup_ok html_table q t eq_refl Hq) as (_ & Hq1 & Hq2).
    assert (Hesc : forall c : ascii, c <> "&"%char -> c <> "<"%char ->
              c <> ">"%char -> cgi_escape (String c "") = String c "").
    { intros c H1%Ascii.eqb_neq H2%Ascii.eqb_neq H3%Ascii.eqb_neq.
      rewrite cgi_escape_cons. unfold escape_char. by rewrite H1, H2, H3. }
    rewrite (html_ify_passes rest), html_ify_passes.
    change (String q ("(" +:+ x +:+ ")" +:+ rest))
      with (String q "" +:+ "(" +:+ x +:+ ")" +:+ rest).
    rewrite !cgi_escape_app.
    change (cgi_escape "(") with "(". change (cgi_escape ")") with ")".
    assert (cgi_escape (String q "") = String q "") as ->.
    { repeat (apply elem_of_cons in Hin as [[= -> ->]|Hin]; [done |]).
      by apply elem_of_nil in Hin. }
    cbn [String.append].
    rewrite (passes_scan _ (cgi_escape rest));
      [|done | unfold flat; by rewrite flat_cgi_escape].
    rewrite passes_scan; [|done |].
    + apply scan_first_marker; rewrite ?cgi_escape_open, ?cgi_escape_close;
        try done.
      by apply cgi_escape_nonempty.
    + apply flat_marker_then; rewrite ?cgi_escape_open; try done.
      rewrite flat_cgi_escape. by apply flat_closed.
Qed.

Lemma first_marker_witness :
  rst_ify ("use " +:+ String "C" ("(" +:+ "yes" +:+ ")" +:+ " or B(no)")) =
    "use " +:+ expand [Lit "``"; Group1; Lit "``"] "yes" +:+ rst_ify " or B(no)".
Proof.
  refine (proj1 (first_marker "C" "use " "yes" " or B(no)" _ _ _ _ _ _) _ _).
  1, 3, 4, 5, 6: reflexivity.
  - discriminate.
  - left.
Defined.

(** *** Translating twice *)

(** A pass for a letter of the table finds nothing to replace after the
    scan of the table. *)
Lemma sub_after_scan (f : table) (p : pattern) (r t : template)
    (s : string) (m : mode) :
  table_ok f = true -> tlookup f p = Some t -> flat_from m s = true ->
  sub p r (scan f s) = scan f s.
Proof.
  intros Hf Hp. revert m.
  induction s as [s IH] using string_len_ind. intros m Hflat.
  destruct s as [|c rest]; [done |].
  rewrite (scan_cons f).
  destruct (flat_tail _ _ _ Hflat) as [m' Hrest].
  destruct (tlookup f c) as [tc|] eqn:Htc;
    [destruct (match_at c (String c rest)) as [[x a]|] eqn:Hm |].
  - destruct (tlookup_ok _ _ _ Hf Htc) as (Hcl & Hc1 & Hc2).
    apply match_at_sound in Hm as (Heq & _ & Hx).
    rewrite Heq in Hflat.
    destruct (flat_marker _ _ _ _ Hc1 Hc2 Hx Hflat) as [Hx' Ha].
    rewrite sub_scan, scan_app_plain, <- sub_scan.
    + f_equal. apply (IH a) with (m := Out true); [|done].
      injection Heq as ->. simpl. rewrite length_append. simpl. lia.
    + by apply expand_closed.
    + apply starts_scan with (m := Out true); [done | done |].
      by apply flat_after_close.
  - rewrite sub_cons.
    assert (match_at p (String c (scan f rest)) = None) as ->.
    { destruct (Ascii.eqb_spec c p) as [->|Hc]; [|by apply match_at_letter].
      by apply no_match_scan with (m := m'). }
    f_equal. apply (IH rest) with (m := m'); [simpl; lia | done].
  - rewrite sub_cons.
    assert (match_at p (String c (scan f rest)) = None) as ->.
    { apply match_at_letter. intros ->. congruence. }
    f_equal. apply (IH rest) with (m := m'); [simpl; lia | done].
Qed.

(** X5: on flat text, [rst_ify] leaves nothing for a second run: the
    translation of a translation is the translation. *)
Theorem rst_ify_twice (text : string) :
  flat text = true -> rst_ify (rst_ify text) = rst_ify text.
Proof.
  intros Hflat. rewrite (rst_ify_passes text), passes_scan by done.
  assert (Hpass : forall p r t, tlookup rst_table p = Some t ->
            sub p r (scan rst_table text) = scan rst_table text).
  { intros p r t Hp. by apply sub_after_scan with (t := t) (m := Out false). }
  unfold rst_ify. cbn zeta.
  rewrite (Hpass _ITALIC _ _ eq_refl), (Hpass _BOLD _ _ eq_refl),
    (Hpass _MODULE _ _ eq_refl), (Hpass _URL _ _ eq_refl).
  apply (Hpass _CONST _ _ eq_refl).
Qed.

Lemma rst_ify_twice_witness :
  rst_ify (rst_ify "I(a) and U(B)x, C(c) (sic)") = rst_ify "I(a) and U(B)x, C(c) (sic)".
Proof. apply rst_ify_twice. reflexivity. Defined.

End TranslatorSpec.

(** ** The context of a module *)

Module ContextSpec.
Import Str StrFacts Py Formatter Effects ModuleSpec.

(** *** The order of [sorted] *)

Lemma ascii_compare_eq (a b : ascii) : Ascii.compare a b = Eq -> a = b.
Proof. apply Ascii.compare_eq_iff. Qed.

Lemma ascii_compare_lt_trans (a b c : ascii) :
  Ascii.compare a b = Lt -> Ascii.compare b c = Lt -> Ascii.compare a c = Lt.
Proof.
  unfold Ascii.compare. rewrite !N.compare_lt_iff. lia.
Qed.

Lemma compare_lt_trans (a b c : string) :
  String.compare a b = Lt -> String.compare b c = Lt -> String.compare a c = Lt.
Proof.
  revert b c. induction a as [|x a IH]; intros [|y b] [|z c]; simpl; try done.
  destruct (Ascii.compare x y) eqn:Hxy; try done.
  - apply ascii_compare_eq in Hxy as ->.
    destruct (Ascii.compare y z); try done. apply IH.
  - intros _. destruct (Ascii.compare y z) eqn:Hyz; try done.
    + apply ascii_compare_eq in Hyz as <-. by rewrite Hxy.
    + by rewrite (ascii_compare_lt_trans _ _ _ Hxy Hyz).
Qed.

#[local] Instance le_trans : Transitive le.
Proof.
  intros a b c. unfold le, String.leb.
  destruct (String.compare a b) eqn:Hab; try done;
    destruct (String.compare b c) eqn:Hbc; try done; intros _ _.
  - apply String.compare_eq_iff in Hab as ->. by rewrite Hbc.
  - apply String.compare_eq_iff in Hab as ->. by rewrite Hbc.
  - apply String.compare_eq_iff in Hbc as <-. by rewrite Hab.
  - by rewrite (compare_lt_trans _ _ _ Hab Hbc).
Qed.

#[local] Instance le_total : Total le.
Proof. intros a b. apply String.leb_total. Qed.

Lemma sorted_spec (l : list string) :
  sorted l ≡ₚ l /\ StronglySorted le (sorted l).
Proof.
  split; [apply merge_sort_Permutation |].
  apply StronglySorted_merge_sort; apply _.
Qed.

(** *** What [build_context] puts into the context *)

Section Context.
Variable ext : externals.
Variables (d : doc) (o : options) (fname : string) (ex : option string).

(** The context, when the making of it returns. *)
Lemma build_context_returns (c : context) (w w' : world) :
  build_context ext d o fname ex w = (w', Return c) ->
  exists t text keys m,
    d !! "options" = Some (Obj t text (Some keys)) /\
    d !! "module" = Some (Str m) /\
    c = <["plainexamples" := field_of_text ex]>
          (<["ansible_version" := Given (Str (ansible_version o))]>
             (<["now_date" := Given (Str (today ext))]>
                (<["docuri" := Given (Str (replace "_" "-" m))]>
                   (<["filename" := Given (Str fname)]>
                      (<["option_keys" := Keys (sorted keys)]>
                         (Given <$> d)))))).
Proof.
  unfold build_context, bind, getitem, iteritems, replace_method, ret, raise.
  destruct (d !! "options") as [[s|t text [keys|]]|]; try done.
  destruct (d !! "module") as [[m|]|]; try done.
  intros [= _ <-]. by exists t, text, keys, m.
Qed.

End Context.

(** X6: the option names that the template gets are the names of the
    documented options, each one once, in ascending order (the order of
    the byte strings); this entry of the context replaces whatever the
    block held under the name [option_keys]. *)
Theorem option_keys_sorted (ext : externals) (d : doc) (o : options)
    (fname : string) (ex : option string) (c : context) (w w' : world) :
  build_context ext d o fname ex w = (w', Return c) ->
  exists t text keys ks,
    d !! "options" = Some (Obj t text (Some keys)) /\
    c !! "option_keys" = Some (Keys ks) /\
    ks ≡ₚ keys /\ StronglySorted le ks.
Proof.
  intros (t & text & keys & m & Hopts & _ & ->)%build_context_returns.
  exists t, text, keys, (sorted keys).
  split; [done |]. split; [|apply sorted_spec].
  rewrite !lookup_insert_ne by done. apply lookup_insert_eq.
Qed.

Lemma option_keys_sorted_witness :
  exists t text keys ks,
    Example.block !! "options" = Some (Obj t text (Some keys)) /\
    Sample.page !! "option_keys" = Some (Keys ks) /\
    ks ≡ₚ keys /\ StronglySorted le ks.
Proof.
  apply (option_keys_sorted Example.ext Example.block Example.opts
           "lib/net/a" (Some "a: host=x") Sample.page start start).
  reflexivity.
Defined.

Lemma replace_gone (old : ascii) (new s : string) :
  has old new = false -> has old (replace old new s) = false.
Proof.
  intros Hnew. induction s as [|c s IH]; [done |]. cbn [replace].
  destruct (Ascii.eqb c old) eqn:Hc.
  - by rewrite has_app, Hnew, IH.
  - cbn [has]. by rewrite Hc, IH.
Qed.

Lemma length_replace_char (old new : ascii) (s : string) :
  String.length (replace old (String new "") s) = String.length s.
Proof.
  induction s as [|c s IH]; [done |]. cbn [replace].
  destruct (Ascii.eqb c old); simpl; by rewrite IH.
Qed.

(** X7: besides the option names, the context holds five entries that
    the program computes: the path of the file, the date of the day, the
    version of the tool, the plain examples and the address of the document,
    which is the module name of the block with a hyphen for every
    underscore (as long as the name, and free of underscores).  These six
    entries replace the fields of the same names of the block; every other
    field of the block is in the context as the block has it. *)
Theorem context_fields (ext : externals) (d : doc) (o : options)
    (fname : string) (ex : option string) (c : context) (w w' : world) :
  build_context ext d o fname ex w = (w', Return c) ->
  c !! "filename" = Some (Given (Str fname)) /\
  c !! "now_date" = Some (Given (Str (today ext))) /\
  c !! "ansible_version" = Some (Given (Str (ansible_version o))) /\
  c !! "plainexamples" = Some (field_of_text ex) /\
  (exists m uri,
     d !! "module" = Some (Str m) /\ c !! "docuri" = Some (Given (Str uri)) /\
     uri = replace "_" "-" m /\ has "_" uri = false /\
     String.length uri = String.length m) /\
  forall k,
    k ∉ ["option_keys"; "filename"; "docuri"; "now_date"; "ansible_version";
         "plainexamples"] ->
    c !! k = Given <$> d !! k.
Proof.
  intros (t & text & keys & m & _ & Hm & ->)%build_context_returns.
  split; [by rewrite !lookup_insert_ne, lookup_insert_eq by done |].
  split; [by rewrite !lookup_insert_ne, lookup_insert_eq by done |].
  split; [by rewrite !lookup_insert_ne, lookup_insert_eq by done |].
  split; [by rewrite lookup_insert_eq |]. split.
  - exists m, (replace "_" "-" m). split; [done |].
    split; [by rewrite !lookup_insert_ne, lookup_insert_eq by done |].
    split; [done |]. split; [by apply replace_gone |].
    apply length_replace_char.
  - intros k Hk. rewrite !not_elem_of_cons in Hk.
    destruct Hk as (? & ? & ? & ? & ? & ? & _).
    by rewrite !lookup_insert_ne, lookup_fmap by done.
Qed.

Lemma context_fields_witness :
  Sample.page !! "filename" = Some (Given (Str "lib/net/a")).
Proof.
  refine (proj1 (context_fields Example.ext Example.block Example.opts
                   "lib/net/a" (Some "a: host=x") Sample.page start start _)).
  reflexivity.
Defined.

(** *** The version test *)

(** How the version test ends. *)
Lemma strip_version_cases (d : doc) (w : world) :
  (exists d', strip_version d w = (w, Return d') /\
              (d' = d \/ d' = delete "version_added" d)) \/
  (exists e, strip_version d w = (w, Raise e) /\
             (e = KeyError "version_added" \/ e = IndexError \/ e = ValueError)).
Proof.
  destruct (d !! "version_added") as [v|] eqn:Hv.
  2: { right. unfold strip_version, bind, getitem. rewrite Hv. cbn. eauto. }
  destruct (eq_str v "historical") eqn:Hh.
  { left. eexists. split; [by apply (strip_version_historical d v) | eauto]. }
  destruct (truth v) eqn:Ht.
  2: { left. eexists. split; [by apply (strip_version_falsy d v) | eauto]. }
  destruct (has "." (str v)) eqn:Hdot.
  2: { right. eexists.
       split; [by apply (strip_version_pointless d v) | eauto]. }
  destruct (split_present _ _ Hdot) as (t0 & t1 & ts & Hs).
  destruct (Float.float_of_string (t0 +:+ "." +:+ t1)) as [x|] eqn:Hx.
  - left. eexists. split.
    + apply (strip_version_checked d v Hv w t0 t1 x); try done;
        by rewrite Hs.
    + destruct (Float.ltb x TO_OLD_TO_BE_NOTABLE); eauto.
  - right. eexists. split; [|eauto].
    apply (strip_version_unparsed d v Hv w t0 t1); try done; by rewrite Hs.
Qed.

(** X8: the version test writes nothing and never ends the run with an
    exit code.  When it returns, the block is the one it was given or that
    block without its [version_added] field, so that every other field is
    as it was; when it raises, the error is the [KeyError] of a block
    without the field, the [IndexError] of a version without a point, or
    the [ValueError] of a version that is no number. *)
Theorem version_test_footprint (d : doc) (w : world) :
  (strip_version d w).1 = w /\
  (forall code, (strip_version d w).2 <> Exit code) /\
  (forall d', (strip_version d w).2 = Return d' ->
     (d' = d \/ d' = delete "version_added" d) /\
     forall k, k <> "version_added" -> d' !! k = d !! k) /\
  (forall e, (strip_version d w).2 = Raise e ->
     e = KeyError "version_added" \/ e = IndexError \/ e = ValueError).
Proof.
  destruct (strip_version_cases d w) as [(d' & -> & Hd')|(e & -> & He)];
    cbn [fst snd].
  - split; [done |]. split; [done |]. split; [|done].
    intros ? [= <-]. split; [done |]. intros k Hk.
    destruct Hd' as [->| ->]; [done | by rewrite lookup_delete_ne].
  - split; [done |]. split; [done |]. split; [done |]. by intros ? [= <-].
Qed.

(** X9: the [options] field is not validated as the version is: for a
    documented module whose block has a version but no mapping under
    [options], the processing raises an error that nobody handles (the
    [KeyError] of the missing field, or the [AttributeError] of a value
    without entries, when the version test returns), with no diagnostic on
    the error stream, no exit code and no file. *)
Theorem options_not_validated (ext : externals) (o : options)
    (env : environment) (tpl : template) (outputname : string)
    (module_map : gmap string string) (module fname : string)
    (d : doc) (ex : option string) (v : value) (w : world) :
  module_map !! module = Some fname ->
  has "." (basename fname) = false ->
  get_docstring ext fname (verbose o) = (Some d, ex) ->
  d !! "version_added" = Some v ->
  (forall t text keys, d !! "options" <> Some (Obj t text (Some keys))) ->
  (exists e,
     process_module ext module o env tpl outputname module_map w =
       (read fname (printed ("rendering: " +:+ module +:+ LF) w), Raise e)) /\
  (forall d', (strip_version d w).2 = Return d' ->
     (process_module ext module o env tpl outputname module_map w).2 =
       Raise (match d !! "options" with
              | None => KeyError "options"
              | Some _ => AttributeError
              end)).
Proof.
  intros Hm Hdot Hdoc Hv Hopts.
  set (w1 := read fname (printed ("rendering: " +:+ module +:+ LF) w)).
  assert (Hbuild : forall d' : doc,
            d' = d \/ d' = delete "version_added" d ->
            build_context ext d' o fname ex w1 =
              (w1, Raise (match d !! "options" with
                          | None => KeyError "options"
                          | Some _ => AttributeError
                          end))).
  { intros d' Hd'.
    assert (d' !! "options" = d !! "options") as Hsame
      by (destruct Hd' as [->| ->]; [done | by rewrite lookup_delete_ne]).
    unfold build_context, bind, getitem, iteritems. rewrite Hsame.
    destruct (d !! "options") as [[s|t text [keys|]]|] eqn:Ho; try done.
    by destruct (Hopts t text keys). }
  assert (Hrun : exists e,
    process_module ext module o env tpl outputname module_map w =
      (w1, Raise e) /\
    forall d', (strip_version d w).2 = Return d' ->
      e = match d !! "options" with
          | None => KeyError "options"
          | Some _ => AttributeError
          end).
  { rewrite (process_module_versioned ext o env tpl outputname module_map
               module fname Hm w d ex v Hdot Hdoc Hv).
    fold w1. unfold bind at 1.
    destruct (strip_version_cases d w) as [(d' & Hr & Hd')|(e & Hr & He)];
      rewrite Hr, (pure_result _ _ w1 _ (pure_strip_version d) Hr).
    - unfold bind at 1. rewrite (Hbuild d' Hd'). by eexists.
    - by eexists. }
  destruct Hrun as (e & -> & He). split; [by eexists |].
  intros d' Hd'. cbn [snd]. f_equal. by apply (He d').
Qed.

Lemma options_not_validated_witness :
  (process_module Sample.bare_ext "a" Example.opts Example.env (fun _ => "")
     "%s_module.rst" {["a" := "lib/db/a"]} start).2 =
  Raise (KeyError "options").
Proof.
  refine (proj2 (options_not_validated Sample.bare_ext Example.opts Example.env
    (fun _ => "") "%s_module.rst" {["a" := "lib/db/a"]} "a" "lib/db/a"
    Sample.bare None (Str "1.2") start _ _ _ _ _) Sample.bare _).
  1, 2, 3, 4, 6: reflexivity.
  intros t text keys H. vm_compute in H. discriminate H.
Defined.

End ContextSpec.

(** ** The threshold of notable versions *)

Module ThresholdSpec.
Import Str StrFacts Py Formatter Effects ModuleSpec TreeSpec Numerals.

#[local] Open Scope Z_scope.

(** *** Rounding *)

Lemma round_div_lower (n d m : Z) :
  0 < d -> m * d <= n -> m <= Float.round_div n d.
Proof.
  intros Hd Hn. unfold Float.round_div.
  assert (m <= n / d) by (apply Z.div_le_lower_bound; lia).
  repeat case_match; lia.
Qed.

Lemma round_div_upper (n d m : Z) :
  0 < d -> n <= m * d -> Float.round_div n d <= m.
Proof.
  intros Hd Hn. unfold Float.round_div.
  pose proof (Z.div_mod n d ltac:(lia)) as Hdiv.
  pose proof (Z.mod_pos_bound n d Hd) as Hmod.
  destruct (Z.ltb_spec (2 * (n mod d)) d); [nia |].
  assert (n / d < m) by nia.
  repeat case_match; lia.
Qed.

(** A quotient that stays half a unit below [m] is rounded below [m]. *)
Lemma round_div_below (n d m h : Z) :
  0 < d -> d < 2 * h -> n + h <= m * d -> Float.round_div n d <= m - 1.
Proof.
  intros Hd Hh Hn. unfold Float.round_div.
  pose proof (Z.div_mod n d ltac:(lia)) as Hdiv.
  pose proof (Z.mod_pos_bound n d Hd) as Hmod.
  assert (n / d <= m - 1) by nia.
  destruct (Z.ltb_spec (2 * (n mod d)) d); [lia |].
  assert (n / d <= m - 2) by nia.
  repeat case_match; lia.
Qed.

(** *** The binary64 number of a quotient *)

Lemma pow2_pos (e : Z) : 0 <= e -> 0 < 2 ^ e.
Proof. intros. by apply Z.pow_pos_nonneg. Qed.

(** A quotient of one at least: a mantissa of 53 bits and an exponent
    of -52 at least. *)
Lemma binary64_ge_one (n d : Z) :
  0 < d -> d <= n ->
  match Float.binary64 n d with
  | Some (q, k) => 2 ^ 52 <= q /\ -52 <= k
  | None => True
  end.
Proof.
  intros Hd Hn. unfold Float.binary64.
  destruct (Z.eqb_spec n 0) as [|_]; [lia |].
  set (e0 := Z.log2 n - Z.log2 d).
  assert (He0 : 0 <= e0) by (pose proof (Z.log2_le_mono d n Hn); lia).
  destruct (Z.leb_spec 0 e0) as [_|]; [|lia].
  pose proof (Z.log2_spec n ltac:(lia)) as [Hn1 Hn2].
  pose proof (Z.log2_spec d Hd) as [Hd1 Hd2].
  set (fl := if d * 2 ^ e0 <=? n then e0 else e0 - 1).
  assert (Hfl : 0 <= fl /\ d * 2 ^ fl <= n).
  { unfold fl. destruct (Z.leb_spec (d * 2 ^ e0) n) as [|Hlt]; [done |].
    assert (e0 <> 0) by (intros Heq; rewrite Heq in Hlt; simpl in Hlt; lia).
    split; [lia |].
    assert (d * 2 ^ (e0 - 1) < 2 ^ Z.succ (Z.log2 d) * 2 ^ (e0 - 1))
      by (apply Z.mul_lt_mono_pos_r; [apply pow2_pos |]; lia).
    rewrite <- Z.pow_add_r in * by (pose proof (Z.log2_nonneg d); lia).
    replace (Z.succ (Z.log2 d) + (e0 - 1)) with (Z.log2 n) in * by lia.
    lia. }
  destruct Hfl as [Hfl0 Hfl].
  replace (Z.max (fl - 52) (-1074)) with (fl - 52) by lia.
  set (k := fl - 52).
  set (q := if 0 <=? k then Float.round_div n (d * 2 ^ k)
            else Float.round_div (n * 2 ^ (- k)) d).
  assert (Hq : 2 ^ 52 <= q).
  { unfold q. destruct (Z.leb_spec 0 k).
    - apply round_div_lower; [pose proof (pow2_pos k); nia |].
      replace fl with (k + 52) in Hfl by lia.
      rewrite Z.pow_add_r in Hfl by lia. lia.
    - apply round_div_lower; [done |].
      assert (d * 2 ^ fl * 2 ^ (- k) <= n * 2 ^ (- k))
        by (apply Z.mul_le_mono_nonneg_r; [pose proof (pow2_pos (- k)) |]; lia).
      rewrite <- Z.mul_assoc, <- Z.pow_add_r in * by lia.
      replace (fl + - k) with 52 in * by lia. lia. }
  destruct (Z.eqb_spec q (2 ^ 53)).
  - destruct (Z.ltb_spec 971 (k + 1)); [done |]. lia.
  - destruct (Z.ltb_spec 971 k); [done |]. lia.
Qed.

(** A quotient below one, of a denominator below [2 ^ 54]: a number
    below one. *)
Lemma binary64_lt_one (n d : Z) :
  0 < n -> n < d -> d < 2 ^ 54 ->
  exists q k, Float.binary64 n d = Some (q, k) /\
              k <= -52 /\ q < 2 ^ (- k).
Proof.
  intros Hn Hnd Hd. unfold Float.binary64.
  destruct (Z.eqb_spec n 0) as [|_]; [lia |].
  pose proof (Z.log2_spec n Hn) as [Hn1 Hn2].
  pose proof (Z.log2_spec d ltac:(lia)) as [Hd1 Hd2].
  pose proof (Z.log2_nonneg n) as Hn0.
  pose proof (Z.log2_nonneg d) as Hd0.
  assert (Hld : Z.log2 d < 54) by (apply Z.log2_lt_pow2; lia).
  set (e0 := Z.log2 n - Z.log2 d).
  assert (He0 : e0 <= 0)
    by (pose proof (Z.log2_le_mono n d ltac:(lia)); lia).
  set (fl := if (if 0 <=? e0 then d * 2 ^ e0 <=? n else d <=? n * 2 ^ (- e0))
             then e0 else e0 - 1).
  assert (Hfl : -55 <= fl <= -1 /\ n * 2 ^ (- fl - 1) < d).
  { unfold fl. destruct (Z.leb_spec 0 e0).
    - assert (e0 = 0) as -> by lia. rewrite Z.pow_0_r.
      destruct (Z.leb_spec (d * 1) n); [lia |].
      replace (- (0 - 1) - 1) with 0 by lia. rewrite Z.pow_0_r. lia.
    - destruct (Z.leb_spec d (n * 2 ^ (- e0))) as [Hge|Hlt].
      + split; [lia |].
        assert (n * 2 ^ (- e0 - 1) < 2 ^ Z.succ (Z.log2 n) * 2 ^ (- e0 - 1))
          by (apply Z.mul_lt_mono_pos_r; [apply pow2_pos |]; lia).
        rewrite <- Z.pow_add_r in * by lia.
        replace (Z.succ (Z.log2 n) + (- e0 - 1)) with (Z.log2 d) in * by lia.
        lia.
      + split; [lia |]. by replace (- (e0 - 1) - 1) with (- e0) by lia. }
  destruct Hfl as [Hfl Hup].
  replace (Z.max (fl - 52) (-1074)) with (fl - 52) by lia.
  set (k := fl - 52).
  destruct (Z.leb_spec 0 k); [lia |].
  set (q := Float.round_div (n * 2 ^ (- k)) d).
  assert (Hscale : n * 2 ^ (- k) = n * 2 ^ (- fl - 1) * 2 ^ 53).
  { rewrite <- Z.mul_assoc, <- Z.pow_add_r by lia. do 2 f_equal. lia. }
  assert (Hq : q <= 2 ^ 53).
  { unfold q. apply round_div_upper; [lia |]. rewrite Hscale. nia. }
  assert (Hq1 : fl = -1 -> q <= 2 ^ 53 - 1).
  { intros Hm1. unfold q.
    apply round_div_below with (h := 2 ^ 53); [lia | lia |].
    rewrite Hscale. nia. }
  assert (Hpow : 2 ^ 53 <= 2 ^ (- k))
    by (apply Z.pow_le_mono_r; lia).
  destruct (Z.eqb_spec q (2 ^ 53)) as [Hcarry|Hno].
  - destruct (Z.ltb_spec 971 (k + 1)); [lia |].
    exists (2 ^ 52), (k + 1). split; [done |]. split; [lia |].
    assert (fl <> -1) by lia.
    assert (2 ^ 53 <= 2 ^ (- (k + 1))) by (apply Z.pow_le_mono_r; lia).
    lia.
  - destruct (Z.ltb_spec 971 k); [lia |].
    exists q, k. split; [done |]. split; lia.
Qed.

(** *** The comparison with the threshold *)

Lemma ltb_ge_one (q k : Z) :
  2 ^ 52 <= q -> -52 <= k ->
  Float.ltb (Float.Fin false q k) TO_OLD_TO_BE_NOTABLE = false.
Proof.
  intros Hq Hk. unfold Float.ltb, TO_OLD_TO_BE_NOTABLE, Float.signed.
  replace (Z.min k (-52)) with (-52) by lia.
  apply Z.ltb_ge. change (-52 - -52) with 0. rewrite Z.pow_0_r.
  pose proof (pow2_pos (k - -52) ltac:(lia)). nia.
Qed.

Lemma ltb_lt_one (q k : Z) :
  k <= -52 -> q < 2 ^ (- k) ->
  Float.ltb (Float.Fin false q k) TO_OLD_TO_BE_NOTABLE = true.
Proof.
  intros Hk Hq. unfold Float.ltb, TO_OLD_TO_BE_NOTABLE, Float.signed.
  replace (Z.min k (-52)) with k by lia.
  apply Z.ltb_lt. rewrite Z.sub_diag, Z.pow_0_r.
  change 4503599627370496 with (2 ^ 52).
  rewrite <- Z.pow_add_r by lia.
  replace (52 + (-52 - k)) with (- k) by lia. lia.
Qed.

(** The number [m / 10 ^ n] against the threshold. *)
Lemma of_decimal_notable (m : Z) (n : nat) :
  10 ^ Z.of_nat n <= m ->
  Float.ltb (Float.of_decimal false m (- Z.of_nat n)) TO_OLD_TO_BE_NOTABLE
    = false.
Proof.
  intros Hm. unfold Float.of_decimal.
  assert (Hpos : 0 < 10 ^ Z.of_nat n) by (apply Z.pow_pos_nonneg; lia).
  assert (Hfrom : forall n' d', 0 < d' -> d' <= n' ->
            Float.ltb match Float.binary64 n' d' with
                      | Some (q, k) => Float.Fin false q k
                      | None => Float.Inf false
                      end TO_OLD_TO_BE_NOTABLE = false).
  { intros n' d' Hd' Hn'. pose proof (binary64_ge_one n' d' Hd' Hn') as H.
    destruct (Float.binary64 n' d') as [[q k]|]; [|done].
    destruct H. by apply ltb_ge_one. }
  destruct (Z.leb_spec 0 (- Z.of_nat n)).
  - assert (Z.of_nat n = 0) as Hn0 by lia. rewrite Hn0 in *. simpl in *.
    apply Hfrom; lia.
  - rewrite Z.opp_involutive. by apply Hfrom.
Qed.

Lemma of_decimal_old (m : Z) (n : nat) :
  0 <= m < 10 ^ Z.of_nat n -> (n <= 16)%nat ->
  Float.ltb (Float.of_decimal false m (- Z.of_nat n)) TO_OLD_TO_BE_NOTABLE
    = true.
Proof.
  intros Hm Hn. unfold Float.of_decimal.
  destruct (Z.leb_spec 0 (- Z.of_nat n)).
  - assert (Z.of_nat n = 0) as Hn0 by lia. rewrite Hn0 in *. simpl in *.
    by assert (m = 0) as -> by lia.
  - rewrite Z.opp_involutive.
    destruct (Z.eq_dec m 0) as [->|Hm0]; [done |].
    assert (Hd : 10 ^ Z.of_nat n < 2 ^ 54).
    { apply Z.le_lt_trans with (10 ^ 16); [|done].
      apply Z.pow_le_mono_r; lia. }
    destruct (binary64_lt_one m (10 ^ Z.of_nat n)) as (q & k & -> & Hk & Hq);
      [lia | lia | done |].
    by apply ltb_lt_one.
Qed.

(** *** The reading of a numeral *)

#[local] Close Scope Z_scope.

Lemma digit_range (c : ascii) (x : Z) :
  Float.digit c = Some x ->
  (0 <= x <= 9)%Z /\ 48 <= nat_of_ascii c <= 57.
Proof.
  unfold Float.digit.
  destruct (Nat.leb_spec 48 (nat_of_ascii c)); [|done].
  destruct (Nat.leb_spec (nat_of_ascii c) 57); [|done].
  intros [= <-]. lia.
Qed.

(** The digits read after an accumulator. *)
Lemma digits_acc (s : string) (acc : Z) (n : nat) :
  Float.digits acc n s =
    ((acc * 10 ^ Z.of_nat (Float.digits 0 0 s).1.2
      + (Float.digits 0 0 s).1.1)%Z,
     n + (Float.digits 0 0 s).1.2, (Float.digits 0 0 s).2).
Proof.
  revert acc n. induction s as [|c s IH]; intros acc n.
  - simpl. f_equal. f_equal; lia.
  - cbn [Float.digits]. destruct (Float.digit c) as [x|] eqn:Hc.
    + rewrite (IH (10 * acc + x)%Z (S n)), (IH (10 * 0 + x)%Z 1).
      cbn [fst snd]. f_equal. f_equal; [|lia].
      rewrite Nat2Z.inj_add, Z.pow_add_r by lia. simpl (Z.of_nat 1). lia.
    + simpl. f_equal. f_equal; lia.
Qed.

Lemma digits_bound (s : string) :
  (0 <= (Float.digits 0 0 s).1.1 < 10 ^ Z.of_nat (Float.digits 0 0 s).1.2)%Z.
Proof.
  induction s as [|c s IH]; [done |].
  cbn [Float.digits]. destruct (Float.digit c) as [x|] eqn:Hc; [|done].
  rewrite digits_acc. cbn [fst snd].
  apply digit_range in Hc as [Hx _].
  rewrite Nat2Z.inj_add, Z.pow_add_r by lia. simpl (Z.of_nat 1).
  rewrite Z.pow_1_r. nia.
Qed.

Lemma numeral_cons (c : ascii) (s : string) :
  numeral (String c s) -> is_Some (Float.digit c) /\ numeral s.
Proof.
  unfold numeral. cbn [Float.digits].
  destruct (Float.digit c) as [x|]; [|done].
  rewrite digits_acc. cbn [snd]. eauto.
Qed.

Lemma numeral_has (c : ascii) (s : string) :
  numeral s -> Float.digit c = None -> has c s = false.
Proof.
  intros Hs Hc. induction s as [|x s IH]; [done |].
  apply numeral_cons in Hs as [[y Hx] Hs]. cbn [has].
  rewrite (IH Hs), orb_false_r. apply Ascii.eqb_neq. congruence.
Qed.

Lemma digits_then (s : string) (c : ascii) (r : string) (acc : Z) (n : nat) :
  numeral s -> Float.digit c = None ->
  Float.digits acc n (s +:+ String c r) =
    ((Float.digits acc n s).1, String c r).
Proof.
  intros Hs Hc. revert acc n. induction s as [|x s IH]; intros acc n.
  - cbn [String.append Float.digits]. by rewrite Hc.
  - apply numeral_cons in Hs as [[y Hx] Hs].
    cbn [String.append Float.digits]. rewrite Hx. by apply IH.
Qed.

Lemma digit_no_space (c : ascii) :
  is_Some (Float.digit c) -> Float.is_space c = false.
Proof.
  intros [x [_ Hx]%digit_range]. unfold Float.is_space.
  apply orb_false_intro.
  - apply Ascii.eqb_neq. intros ->. vm_compute in Hx. lia.
  - apply andb_false_intro2. apply Nat.leb_gt. lia.
Qed.

Lemma digit_lower (c : ascii) : is_Some (Float.digit c) -> lower c = c.
Proof.
  intros [x [_ Hx]%digit_range]. unfold lower, is_upper.
  destruct (Nat.leb_spec 65 (nat_of_ascii c)); [lia | done].
Qed.

Lemma rstrip_numeral (s t : string) :
  numeral s -> Float.rstrip (s +:+ t) = s +:+ Float.rstrip t.
Proof.
  intros Hs. induction s as [|c s IH]; [done |].
  apply numeral_cons in Hs as [Hc Hs].
  cbn [String.append Float.rstrip]. rewrite (digit_no_space c Hc).
  cbn [andb]. by rewrite (IH Hs).
Qed.

(** The float of [a.b] for two numerals, the first one not empty. *)
Lemma float_of_numerals (a b : string) :
  numeral a -> numeral b -> a <> "" ->
  Float.float_of_string (a +:+ "." +:+ b) =
    Some (Float.of_decimal false
            ((Float.digits 0 0 a).1.1 * 10 ^ Z.of_nat (Float.digits 0 0 b).1.2
             + (Float.digits 0 0 b).1.1)%Z
            (- Z.of_nat (Float.digits 0 0 b).1.2)).
Proof.
  intros Ha Hb Hne. unfold Float.float_of_string.
  change ("." +:+ b) with (String "." b).
  destruct a as [|c a]; [done |].
  pose proof (numeral_cons _ _ Ha) as [Hc Ha'].
  assert (Float.lstrip (String c a +:+ String "." b) =
          String c a +:+ String "." b)
    as -> by (cbn [String.append Float.lstrip]; by rewrite digit_no_space).
  rewrite rstrip_numeral by done.
  assert (Float.rstrip (String "." b) = String "." b) as ->.
  { cbn [Float.rstrip]. change (Float.is_space ".") with false.
    cbn [andb]. f_equal.
    rewrite <- (append_nil_r b) at 1. rewrite rstrip_numeral by done.
    by rewrite append_nil_r. }
  assert (Float.sign (String c a +:+ String "." b) =
          (false, String c a +:+ String "." b)) as ->.
  { cbn [String.append]. destruct Hc as [x [_ Hx]%digit_range].
    unfold Float.sign.
    destruct c as [[] [] [] [] [] [] [] []]; try done; vm_compute in Hx; lia. }
  assert (Hlow : Float.lowercase (String c a +:+ String "." b) =
                 String c (Float.lowercase (a +:+ String "." b))).
  { unfold Float.lowercase. cbn [String.append list_ascii_of_string map
      string_of_list_ascii]. by rewrite digit_lower. }
  rewrite Hlow.
  assert (Hnot : forall x r, Float.digit x = None ->
            String.eqb (String c (Float.lowercase (a +:+ String "." b)))
              (String x r) = false).
  { intros x r Hx. apply String.eqb_neq. intros [= -> _].
    destruct Hc as [y Hy]. congruence. }
  rewrite !Hnot by done. cbn [orb].
  unfold Float.decimal.
  rewrite (digits_then (String c a) "." b 0 0 Ha eq_refl).
  destruct (Float.digits 0 0 (String c a)) as [[A na] ra] eqn:HA.
  cbn [fst snd]. rewrite (digits_acc b A 0).
  unfold numeral in Hb. rewrite Hb. cbn [fst snd].
  assert (na <> 0) as Hna.
  { cbn [Float.digits] in HA. destruct Hc as [y Hy]. rewrite Hy in HA.
    rewrite digits_acc in HA. injection HA as _ <- _. lia. }
  destruct (Nat.eqb_spec (na + (0 + (Float.digits 0 0 b).1.2)) 0); [lia |].
  done.
Qed.

Lemma numeral_length (s : string) :
  numeral s -> (Float.digits 0 0 s).1.2 = String.length s.
Proof.
  induction s as [|c s IH]; [done |].
  intros Hs. pose proof (numeral_cons _ _ Hs) as [[x Hx] Hs'].
  cbn [Float.digits]. rewrite Hx, digits_acc. cbn [fst snd String.length].
  by rewrite (IH Hs').
Qed.

(** *** The version test on a version of two numerals *)

Section Dotted.
Variables (d : doc) (v : value) (a b rest : string).
Hypothesis version : d !! "version_added" = Some v.
Hypothesis true_version : truth v = true.
Hypothesis dotted : str v = a +:+ "." +:+ b +:+ rest.
Hypothesis components : rest = "" \/ starts "." rest = true.
Hypothesis major : numeral a.
Hypothesis minor : numeral b.
Hypothesis major_given : a <> "".

Lemma dotted_tokens :
  split "." (str v) !! 0 = Some a /\ split "." (str v) !! 1 = Some b.
Proof.
  rewrite dotted. change ("." +:+ b +:+ rest) with (String "." (b +:+ rest)).
  rewrite split_app.
  rewrite (split_absent "." a) by by apply numeral_has.
  assert (Hb : has "." b = false) by by apply numeral_has.
  destruct components as [->|Hrest].
  - by rewrite append_nil_r, (split_absent "." b).
  - destruct rest as [|c r]; [done |]. simpl in Hrest.
    apply Ascii.eqb_eq in Hrest as ->.
    by rewrite split_app, (split_absent "." b).
Qed.

Lemma dotted_not_historical : eq_str v "historical" = false.
Proof.
  destruct v as [s|]; [|done]. simpl in *. subst s.
  destruct a as [|c a']; [done |].
  pose proof (numeral_cons _ _ major) as [[x [_ Hx]%digit_range] _].
  apply String.eqb_neq. intros [= -> _]. vm_compute in Hx. lia.
Qed.

Lemma strip_version_dotted (w : world) :
  strip_version d w =
    (w, Return
          (if Float.ltb
                (Float.of_decimal false
                   (number a * 10 ^ Z.of_nat (String.length b) + number b)%Z
                   (- Z.of_nat (String.length b)))
                TO_OLD_TO_BE_NOTABLE
           then delete "version_added" d else d)).
Proof.
  destruct dotted_tokens as [H0 H1].
  rewrite (strip_version_checked d v version w a b _ dotted_not_historical
             true_version H0 H1 (float_of_numerals a b major minor major_given)).
  by rewrite (numeral_length b minor).
Qed.

End Dotted.

(** X10: a version whose first two components are numerals is kept when
    the first one is a number of one at least: whatever the digits of the
    second component and however many, and whatever follows it, the field
    [version_added] stays in the block. *)
Theorem notable_version_kept (d : doc) (v : value) (a b rest : string) :
  d !! "version_added" = Some v -> truth v = true ->
  str v = a +:+ "." +:+ b +:+ rest ->
  rest = "" \/ starts "." rest = true ->
  numeral a -> numeral b -> (1 <= number a)%Z ->
  forall w, strip_version d w = (w, Return d).
Proof.
  intros Hv Ht Hs Hrest Ha Hb Hmajor w.
  assert (Hne : a <> "") by (intros ->; vm_compute in Hmajor; done).
  rewrite (strip_version_dotted d v a b rest Hv Ht Hs Hrest Ha Hb Hne).
  rewrite of_decimal_notable; [done |].
  pose proof (digits_bound b) as Hbound. fold (number b) in Hbound.
  assert (0 < 10 ^ Z.of_nat (String.length b))%Z
    by (apply Z.pow_pos_nonneg; lia).
  nia.
Qed.

Lemma notable_version_kept_witness :
  strip_version {["version_added" := Str "1.10.2"]} start =
    (start, Return {["version_added" := Str "1.10.2"]}).
Proof.
  apply (notable_version_kept {["version_added" := Str "1.10.2"]}
           (Str "1.10.2") "1" "10" ".2").
  1, 2, 3, 5, 6: reflexivity.
  - by right.
  - vm_compute. discriminate.
Defined.

(** X11: a version whose first two components are numerals is taken for
    old, and its field removed from the block, when the first one is the
    number zero and the second one has sixteen digits at most.  (With more
    digits the number can be rounded to 1.0, which is not below the
    threshold.) *)
Theorem old_version_stripped (d : doc) (v : value) (a b rest : string) :
  d !! "version_added" = Some v -> truth v = true ->
  str v = a +:+ "." +:+ b +:+ rest ->
  rest = "" \/ starts "." rest = true ->
  numeral a -> numeral b -> a <> "" -> number a = 0%Z ->
  String.length b <= 16 ->
  forall w, strip_version d w = (w, Return (delete "version_added" d)).
Proof.
  intros Hv Ht Hs Hrest Ha Hb Hne Hmajor Hlen w.
  rewrite (strip_version_dotted d v a b rest Hv Ht Hs Hrest Ha Hb Hne).
  rewrite Hmajor, of_decimal_old; [done | | done].
  pose proof (digits_bound b) as Hbound. fold (number b) in Hbound.
  rewrite (numeral_length b Hb) in Hbound. lia.
Qed.

Lemma old_version_stripped_witness :
  strip_version {["version_added" := Obj true "0.9" None]} start =
    (start, Return (delete "version_added"
                      {["version_added" := Obj true "0.9" None]})).
Proof.
  apply (old_version_stripped {["version_added" := Obj true "0.9" None]}
           (Obj true "0.9" None) "0" "9" "").
  1, 2, 3, 5, 6, 8: reflexivity.
  - by left.
  - discriminate.
  - simpl. lia.
Defined.

End ThresholdSpec.

(** ** What the processing leaves behind *)

Module ListingSpec.
Import Str StrFacts Py Formatter Effects ModuleSpec Toctree.

(** *** One module *)

Section Footprint.
Variable ext : externals.
Variables (o : options) (env : environment) (tpl : template).
Variables (outputname : string) (module_map : gmap string string).

(** The page of a module, with the name that [jinja2_environment] gives
    to the pages: [write_data] opens at most that file, and touches no
    other. *)
Lemma write_data_files (text module : string) (w : world) :
  let r := write_data ext text o "%s_module.rst" module w in
  extracted r.1 = extracted w /\
  (files r.1 = files w \/
   exists dir chunks,
     output_dir o = Some dir /\
     files r.1 =
       (files w ++ [(join dir (module +:+ "_module.rst"), chunks)])%list) /\
  (output_dir o = None -> files r.1 = files w).
Proof.
  unfold write_data. destruct (output_dir o) as [dir|]; cbn zeta.
  - unfold bind, open_w. change (format "%s_module.rst" module)
      with (module +:+ "_module.rst").
    destruct (can_open ext _); [|split; [done |]; by split; [left |]].
    cbn [fst snd write written opened files extracted].
    split; [done |]. split; [|done]. right. exists dir, [text].
    split; [done |].
    rewrite alter_app_r_alt by done. by rewrite Nat.sub_diag.
  - split; [done |]. by split; [left |].
Qed.

(** The mark that [process_module] returns depends on the module alone. *)
Lemma process_module_returns (module : string) (w w' : world)
    (r : option string) :
  process_module ext module o env tpl outputname module_map w = (w', Return r) ->
  r = if skipped ext o module_map module then Some "SKIPPED" else None.
Proof.
  unfold process_module, skipped. rewrite bind_print.
  unfold bind at 1, getitem.
  destruct (module_map !! module) as [fname|]; [|done]. cbn [ret].
  destruct (has "." (basename fname)); [by intros [= _ <-] |].
  unfold bind at 1, call_get_docstring. cbn [negb andb].
  destruct (get_docstring ext fname (verbose o)) as [[d|] ex]; cbn [fst].
  - destruct (d !! "version_added"); [|done].
    unfold bind. repeat case_match; try done. by intros [= _ <-].
  - case_bool_decide; [by intros [= _ <-] | done].
Qed.

End Footprint.

(** X12: with the name that [jinja2_environment] gives to the pages,
    and whatever the module and the options, the processing of one module
    begins with its notice on the standard output, hands to the extractor
    at most the file of the module (and only a file without extension), and
    leaves the files that are open as they are; it opens at most one file,
    the page [<module>_module.rst] of the module in the output directory,
    and it opens none when no output directory is given. *)
Theorem module_footprint (ext : externals) (o : options) (env : environment)
    (tpl : template) (module_map : gmap string string)
    (module : string) (w : world) :
  let r := process_module ext module o env tpl "%s_module.rst" module_map w in
  (exists more,
     stdout r.1 = (stdout w ++ ("rendering: " +:+ module +:+ LF) :: more)%list) /\
  (extracted r.1 = extracted w \/
   exists fname,
     module_map !! module = Some fname /\ has "." (basename fname) = false /\
     extracted r.1 = (extracted w ++ [fname])%list) /\
  (files r.1 = files w \/
   exists dir chunks,
     output_dir o = Some dir /\
     files r.1 =
       (files w ++ [(join dir (module +:+ "_module.rst"), chunks)])%list) /\
  (output_dir o = None -> files r.1 = files w).
Proof.
  set (r := process_module ext module o env tpl "%s_module.rst" module_map w).
  cbn zeta. assert (Hr : r = process_module ext module o env tpl
                             "%s_module.rst" module_map w) by done.
  clearbody r. unfold process_module in Hr. rewrite bind_print in Hr.
  set (w0 := printed _ w) in Hr.
  assert (Hw0 : stdout w0 = (stdout w ++ ["rendering: " +:+ module +:+ LF])%list)
    by done.
  assert (Hf0 : files w0 = files w) by done.
  assert (He0 : extracted w0 = extracted w) by done.
  clearbody w0.
  assert (Hout : forall w1 : world,
            (exists more, stdout w1 = (stdout w0 ++ more)%list) ->
            exists more,
              stdout w1 =
                (stdout w ++ ("rendering: " +:+ module +:+ LF) :: more)%list).
  { intros w1 [more ->]. exists more. rewrite Hw0. by rewrite <- app_assoc. }
  assert (Hnil : forall w1 : world, stdout w1 = stdout w0 ->
            exists more, stdout w1 = (stdout w0 ++ more)%list)
    by (intros w1 ->; exists []; by rewrite app_nil_r).
  unfold bind at 1, getitem in Hr.
  destruct (module_map !! module) as [fname|].
  2: { subst r. cbn [raise fst snd]. rewrite Hf0, He0.
       split; [by apply Hout, Hnil |]. split; [by left |]. by split; [left |]. }
  cbn [ret] in Hr.
  destruct (has "." (basename fname)) eqn:Hdot.
  { subst r. cbn [ret fst snd]. rewrite Hf0, He0.
    split; [by apply Hout, Hnil |]. split; [by left |]. by split; [left |]. }
  unfold bind at 1, call_get_docstring in Hr.
  set (w1 := read fname w0) in Hr.
  assert (Hw1 : stdout w1 = stdout w0) by done.
  assert (Hf1 : files w1 = files w) by done.
  assert (He1 : extracted w1 = (extracted w ++ [fname])%list)
    by (unfold w1; cbn; by rewrite He0).
  clearbody w1.
  assert (Hquiet : forall r' : outcome (option string), r = (w1, r') ->
    (exists more,
       stdout r.1 =
         (stdout w ++ ("rendering: " +:+ module +:+ LF) :: more)%list) /\
    (extracted r.1 = extracted w \/
     exists fname',
       Some fname = Some fname' /\ has "." (basename fname') = false /\
       extracted r.1 = (extracted w ++ [fname'])%list) /\
    (files r.1 = files w \/
     exists dir chunks,
       output_dir o = Some dir /\
       files r.1 =
         (files w ++ [(join dir (module +:+ "_module.rst"), chunks)])%list) /\
    (output_dir o = None -> files r.1 = files w)).
  { intros r' ->. cbn [fst snd]. split; [by apply Hout, Hnil |].
    split; [right; by exists fname |]. by split; [left |]. }
  destruct (get_docstring ext fname (verbose o)) as [[d|] ex].
  2: { destruct (negb _); [|by eapply Hquiet].
       unfold bind, stderr_write, exit in Hr. subst r. cbn [fst snd].
       split; [by apply Hout, Hnil |]. split; [right; by exists fname |].
       by split; [left |]. }
  destruct (d !! "version_added").
  2: { unfold bind, stderr_write, exit in Hr. subst r. cbn [fst snd].
       split; [by apply Hout, Hnil |]. split; [right; by exists fname |].
       by split; [left |]. }
  unfold bind at 1 in Hr.
  destruct (pure_strip_version d) as [rv Hrv]. rewrite Hrv in Hr.
  destruct rv as [d'|code|e]; [|by eapply Hquiet ..].
  unfold bind at 1 in Hr.
  destruct (pure_build_context ext d' o fname ex) as [rc Hrc].
  rewrite Hrc in Hr.
  destruct rc as [c|code|e]; [|by eapply Hquiet ..].
  unfold bind at 1 in Hr.
  pose proof (write_data_files ext o (tpl c) module w1)
    as (Hex & Hfiles & Hnone).
  cbn zeta in *.
  assert (Hstd : exists more,
            stdout (write_data ext (tpl c) o "%s_module.rst" module w1).1 =
              (stdout w0 ++ more)%list).
  { unfold write_data. destruct (output_dir o).
    - unfold bind, open_w. destruct (can_open ext _); exists [];
        cbn; by rewrite app_nil_r.
    - exists [tpl c +:+ LF]. cbn. by rewrite Hw1. }
  rewrite Hf1 in Hfiles, Hnone.
  destruct (write_data ext (tpl c) o "%s_module.rst" module w1)
    as [w2 [[]|code|e]]; subst r; cbn [fst snd ret] in *.
  all: split; [by apply Hout |].
  all: split; [right; exists fname; by rewrite Hex |].
  all: by split.
Qed.

(** *** The heading of a listing *)

Lemma title_char (c : ascii) :
  (is_upper c || is_lower c = true ->
   is_upper (upper c) || is_lower (upper c) = true /\
   is_upper (lower c) || is_lower (lower c) = true /\
   upper (upper c) = upper c /\ lower (lower c) = lower c).
Proof. destruct c as [[] [] [] [] [] [] [] []]; vm_compute; done. Qed.

Lemma title_from_twice (b : bool) (s : string) :
  title_from b (title_from b s) = title_from b s.
Proof.
  revert b. induction s as [|c s IH]; intros b; [done |].
  cbn [title_from]. destruct (is_upper c || is_lower c) eqn:Hc.
  - destruct (title_char c Hc) as (Hu & Hl & Huu & Hll).
    cbn [title_from]. destruct b; rewrite ?Hu, ?Hl, ?Huu, ?Hll, IH; done.
  - cbn [title_from]. by rewrite Hc, IH.
Qed.

Lemma length_repeat (c : ascii) (n : nat) : String.length (repeat c n) = n.
Proof. induction n as [|n IH]; simpl; [done | by rewrite IH]. Qed.

Lemma heading_eq (category : string) :
  heading category =
    [ title (replace "_" " " category) +:+ " Modules"; LF;
      repeat "`" (String.length
                    (title (replace "_" " " category) +:+ " Modules"));
      LF; ".. toctree::" +:+ LF ].
Proof. unfold heading, title. cbn zeta. by rewrite title_from_twice. Qed.

(** *** The loop over the modules of a category *)

Lemma extends_written (w w1 : world) (h : handle) (text : string) :
  extends w w1 -> length (files w) <= h -> extends w (written h text w1).
Proof.
  intros [extra Hw1] Hh. unfold extends, written. cbn [files].
  rewrite Hw1, alter_app_r_alt by done. by eexists.
Qed.

Section Loop.
Variable ext : externals.
Variables (o : options) (env : environment) (tpl : template).
Variables (outputname : string) (module_map : gmap string string).

#[local] Abbreviation listed :=
  (filter (fun m => skipped ext o module_map m = false)).

(** The listing after the loop: the lines of the modules that were not
    skipped, among those that the loop came to process; the files that were
    there before the listing was opened are as they were. *)
Lemma process_modules_listing (ms : list string) (h : handle)
    (w0 w : world) (path : string) (chunks : list string) :
  extends w0 w -> length (files w0) <= h ->
  files w !! h = Some (path, chunks) ->
  let r := process_modules ext ms h o env tpl outputname module_map w in
  extends w0 r.1 /\
  exists n,
    files r.1 !! h =
      Some (path, (chunks ++ (toctree_entry <$> listed (take n ms)))%list) /\
    (r.2 = Return tt -> n = length ms).
Proof.
  cbn zeta. revert w chunks. induction ms as [|m ms IH]; intros w chunks Hw Hh Hf.
  { split; [done |]. exists 0. by rewrite app_nil_r. }
  cbn [process_modules]. unfold bind at 1 3 5.
  pose proof (grows_process_module ext m o env tpl outputname module_map w)
    as Hgrow.
  destruct (process_module ext m o env tpl outputname module_map w)
    as [w1 [r|c|e]] eqn:Hpm; cbn [fst snd] in *.
  2,3: split; [by eapply extends_trans |]; exists 0;
       rewrite app_nil_r; split; [by apply (extends_lookup w) | done].
  pose proof (extends_lookup _ _ _ _ Hgrow Hf) as Hf1.
  pose proof (extends_trans _ _ _ Hw Hgrow) as Hw1.
  apply process_module_returns in Hpm. unfold bind at 1 2 3.
  destruct (skipped ext o module_map m) eqn:Hskip; subst r.
  - rewrite bool_decide_eq_false_2 by (by intros []). cbn [ret].
    destruct (IH w1 chunks Hw1 Hh Hf1) as (Hext & n & Hn & Hlen).
    split; [done |]. exists (S n). cbn [take length].
    rewrite filter_cons_False by (by rewrite Hskip).
    split; [done |]. intros Hr. by rewrite Hlen.
  - rewrite bool_decide_eq_true_2 by done. cbn [write].
    destruct (IH (written h (toctree_entry m) w1) (chunks ++ [toctree_entry m])%list)
      as (Hext & n & Hn & Hlen);
      [by apply extends_written | done | by apply files_written |].
    split; [done |]. exists (S n). cbn [take length].
    rewrite filter_cons_True by done. rewrite fmap_cons.
    split; [by rewrite Hn, <- app_assoc |]. intros Hr. by rewrite Hlen.
Qed.

End Loop.

(** *** A category *)

Section Category.
Variable ext : externals.
Variables (o : options) (env : environment) (tpl : template).
Variables (outputname : string).
Variables (category : string) (categories : gmap string (gmap string string)).
Variable module_map : gmap string string.
Hypothesis found : categories !! category = Some module_map.

(** The file of a category: nothing is opened without an output directory
    or when the file cannot be opened; otherwise the file is the next one to
    be opened, under the name of the category in the output directory, and
    holds the heading and the lines of the loop. *)
Lemma process_category_file (w : world) :
  let r := process_category ext category categories o env tpl outputname w in
  extends w r.1 /\
  ((files r.1 = files w /\ r.2 <> Return tt) \/
   exists dir n,
     output_dir o = Some dir /\
     files r.1 !! length (files w) =
       Some (join dir ("list_of_" +:+ category +:+ "_modules.rst"),
             (heading category ++
              (toctree_entry <$>
                 filter (fun m => skipped ext o module_map m = false)
                   (take n (sorted (map_to_list module_map).*1))))%list) /\
     (r.2 = Return tt -> n = length (sorted (map_to_list module_map).*1))).
Proof.
  set (r := process_category ext category categories o env tpl outputname w).
  cbn zeta.
  assert (Hr : r = process_category ext category categories o env tpl
                     outputname w) by done.
  clearbody r. unfold process_category, getitem in Hr. rewrite found in Hr.
  unfold bind at 1 in Hr. cbn [ret] in Hr.
  unfold bind at 1, join_output_dir in Hr.
  destruct (output_dir o) as [dir|].
  2: { cbn in Hr. subst r. split; [apply extends_refl | by left]. }
  cbn [ret] in Hr. unfold bind at 1, open_w in Hr.
  set (p := join dir ("list_of_" +:+ category +:+ "_modules.rst")) in *.
  destruct (can_open ext p).
  2: { subst r. split; [apply extends_refl | by left]. }
  rewrite bind_print, !bind_write in Hr.
  set (w5 := written _ _ (written _ _ (written _ _ (written _ _ (written _ _ _)))))
    in Hr.
  assert (Hh : files w5 !! length (files w) = Some (p, heading category))
    by apply heading_written.
  assert (Hw5 : extends w w5).
  { unfold w5. do 5 (apply extends_written; [|done]).
    exists [(p, [])]. done. }
  destruct (process_modules_listing ext o env tpl outputname module_map
              (sorted (map_to_list module_map).*1) (length (files w)) w w5
              p (heading category) Hw5 (le_n _) Hh) as (Hext & n & Hn & Hlen).
  cbn zeta in *. rewrite <- Hr in *.
  split; [done |]. right. by exists dir, n.
Qed.

End Category.

(** X13: the listing of a category begins with a section title that
    restructured text accepts: the name of the category with spaces for
    its underscores and every word capitalised (the second [title()] of the
    program changes nothing), followed by [ Modules], and under it a line of
    backquotes of exactly the same length; then comes the [toctree]
    directive.  The file is the one named after the category in the output
    directory. *)
Theorem category_heading (ext : externals) (o : options) (env : environment)
    (tpl : template) (outputname category : string)
    (categories : gmap string (gmap string string))
    (module_map : gmap string string) (w : world)
    (path : string) (chunks : list string) :
  categories !! category = Some module_map ->
  files (process_category ext category categories o env tpl outputname w).1
    !! length (files w) = Some (path, chunks) ->
  exists dir header underline lines,
    output_dir o = Some dir /\
    path = join dir ("list_of_" +:+ category +:+ "_modules.rst") /\
    chunks = ([header; LF; underline; LF; ".. toctree::" +:+ LF] ++ lines)%list /\
    header = title (replace "_" " " category) +:+ " Modules" /\
    underline = repeat "`" (String.length header) /\
    String.length underline = String.length header.
Proof.
  intros Hcat Hf.
  destruct (process_category_file ext o env tpl outputname category categories
              module_map Hcat w) as (_ & [[Hsame _]|(dir & n & Hdir & Hn & _)]).
  { rewrite Hsame in Hf. apply lookup_lt_Some in Hf. lia. }
  cbn zeta in *. rewrite Hf in Hn. apply (inj Some) in Hn.
  apply pair_equal_spec in Hn as [-> ->].
  exists dir. do 3 eexists. split; [done |]. split; [done |].
  split; [by rewrite heading_eq |]. split; [done |]. split; [done |].
  apply length_repeat.
Qed.

Lemma category_heading_witness :
  exists dir header underline lines,
    output_dir Example.opts = Some dir /\
    "out/list_of_net_tools_modules.rst" =
      join dir ("list_of_" +:+ "net_tools" +:+ "_modules.rst") /\
    [ "Net Tools Modules"; LF; "`````````````````"; LF; ".. toctree::" +:+ LF;
      "    ping.ps1_module" +:+ LF ] =
      ([header; LF; underline; LF; ".. toctree::" +:+ LF] ++ lines)%list /\
    header = title (replace "_" " " "net_tools") +:+ " Modules" /\
    underline = repeat "`" (String.length header) /\
    String.length underline = String.length header.
Proof.
  apply (category_heading Example.ext Example.opts Example.env (fun _ => "")
           "%s_module.rst" "net_tools"
           {["net_tools" := {["ping.ps1" := "lib/net_tools/ping.ps1"]}]}
           {["ping.ps1" := "lib/net_tools/ping.ps1"]} start).
  - reflexivity.
  - reflexivity.
Defined.

(** X14: when the processing of a category comes to its end, its
    listing holds, after the heading, one line for every module of the
    category but the skipped ones (exempt modules without documentation
    block), in the ascending order of the module names, and nothing else;
    the files that were there before are as they were. *)
Theorem category_listing (ext : externals) (o : options) (env : environment)
    (tpl : template) (outputname category : string)
    (categories : gmap string (gmap string string))
    (module_map : gmap string string) (w w' : world) :
  categories !! category = Some module_map ->
  process_category ext category categories o env tpl outputname w
    = (w', Return tt) ->
  exists dir (names : list string),
    output_dir o = Some dir /\
    names ≡ₚ (map_to_list module_map).*1 /\ StronglySorted le names /\
    files w' !! length (files w) =
      Some (join dir ("list_of_" +:+ category +:+ "_modules.rst"),
            (heading category ++
             (toctree_entry <$>
                filter (fun m => skipped ext o module_map m = false) names))%list) /\
    extends w w'.
Proof.
  intros Hcat Hrun.
  destruct (process_category_file ext o env tpl outputname category categories
              module_map Hcat w) as (Hext & [[_ Hne]|(dir & n & Hdir & Hn & Hlen)]);
    cbn zeta in *; rewrite Hrun in *; cbn [fst snd] in *; [done |].
  exists dir, (sorted (map_to_list module_map).*1).
  split; [done |].
  destruct (ContextSpec.sorted_spec (map_to_list module_map).*1) as [Hp Hs].
  split; [done |]. split; [done |]. split; [|done].
  rewrite Hn, (Hlen eq_refl). by rewrite firstn_all.
Qed.

Lemma category_listing_witness :
  let run :=
    process_category Example.ext "net_tools"
      {["net_tools" := {["ping.ps1" := "lib/net_tools/ping.ps1"]}]}
      Example.opts Example.env (fun _ => "") "%s_module.rst" start in
  exists dir (names : list string),
    output_dir Example.opts = Some dir /\
    names ≡ₚ (map_to_list ({["ping.ps1" := "lib/net_tools/ping.ps1"]}
                             : gmap string string)).*1 /\
    StronglySorted le names /\
    files run.1 !! length (files start) =
      Some (join dir ("list_of_" +:+ "net_tools" +:+ "_modules.rst"),
            (heading "net_tools" ++
             (toctree_entry <$>
                filter (fun m => skipped Example.ext Example.opts
                                   {["ping.ps1" := "lib/net_tools/ping.ps1"]} m
                                 = false) names))%list) /\
    extends start run.1.
Proof.
  apply (category_listing Example.ext Example.opts Example.env (fun _ => "")
           "%s_module.rst" "net_tools"
           {["net_tools" := {["ping.ps1" := "lib/net_tools/ping.ps1"]}]}
           {["ping.ps1" := "lib/net_tools/ping.ps1"]} start).
  - reflexivity.
  - reflexivity.
Defined.

End ListingSpec.

(** ** A whole run *)

Module RunSpec.
Import Str StrFacts Py Formatter Effects ModuleSpec MainSpec Toctree ListingSpec.

Section Run.
Variable ext : externals.
Variable o : options.

(** The steps of [main] before the first file. *)
Lemma main_steps (w : world) :
  main ext o w =
    match validate_options ext o w with
    | (w0, Return _) =>
        if String.eqb (type o) "rst" then
          match get_template ext (template_dir o) "rst.j2" with
          | Some tpl =>
              match list_modules ext (module_dir o) with
              | Return categories =>
                  (category_list_path <-
                     join_output_dir o "modules_by_category.rst" ;;
                   category_list_file <- open_w ext category_list_path ;;
                   write category_list_file ("Module Index" +:+ LF) ;;
                   write category_list_file ("============" +:+ LF) ;;
                   write category_list_file (LF +:+ LF) ;;
                   write category_list_file (".. toctree::" +:+ LF) ;;
                   process_categories ext
                     (sorted (map_to_list categories).*1) category_list_file
                     categories o {| loader := template_dir o |} tpl
                     "%s_module.rst") w0
              | Exit c => (w0, Exit c)
              | Raise e => (w0, Raise e)
              end
          | None => (w0, Raise (TemplateNotFound "rst.j2"))
          end
        else (w0, Raise (Exception ("unknown module format type: " +:+ type o)))
    | (w0, Exit c) => (w0, Exit c)
    | (w0, Raise e) => (w0, Raise e)
    end.
Proof.
  unfold main. unfold bind at 1.
  destruct (validate_options ext o w) as [w0 [[]|c|e]]; try done.
  unfold bind at 1, jinja2_environment.
  destruct (String.eqb (type o) "rst"); [|done].
  destruct (get_template ext (template_dir o) "rst.j2") as [tpl|]; [|done].
  cbn [ret fst snd]. unfold bind at 1, lift.
  by destruct (list_modules ext (module_dir o)).
Qed.

End Run.

(** X20: the validation of the options returns exactly when no
    boilerplate is asked for, the module directory is named and exists, and
    the template directory is named; it has then written nothing.  Without
    a request for the boilerplate, the first check that fails ends the run
    with exit code 1 after one message: on the error stream for the module
    directory, on the standard output for the template directory. *)
Theorem validation (ext : externals) (o : options) (w : world) :
  ((validate_options ext o w).2 = Return tt <->
   do_boilerplate o = false /\ module_dir o <> "" /\
   exists_ (system ext) (module_dir o) = true /\ template_dir o <> "") /\
  ((validate_options ext o w).2 = Return tt -> (validate_options ext o w).1 = w) /\
  (do_boilerplate o = false ->
   (module_dir o = "" ->
    validate_options ext o w =
      (complained ("--module-dir is required" +:+ LF) w, Exit 1)) /\
   (module_dir o <> "" -> exists_ (system ext) (module_dir o) = false ->
    validate_options ext o w =
      (complained ("--module-dir does not exist: " +:+ module_dir o +:+ LF) w,
       Exit 1)) /\
   (module_dir o <> "" -> exists_ (system ext) (module_dir o) = true ->
    template_dir o = "" ->
    validate_options ext o w =
      (printed ("--template-dir must be specified" +:+ LF) w, Exit 1))).
Proof.
  assert (Hcases :
    do_boilerplate o = false ->
    (module_dir o = "" ->
     validate_options ext o w =
       (complained ("--module-dir is required" +:+ LF) w, Exit 1)) /\
    (module_dir o <> "" -> exists_ (system ext) (module_dir o) = false ->
     validate_options ext o w =
       (complained ("--module-dir does not exist: " +:+ module_dir o +:+ LF) w,
        Exit 1)) /\
    (module_dir o <> "" -> exists_ (system ext) (module_dir o) = true ->
     template_dir o = "" ->
     validate_options ext o w =
       (printed ("--template-dir must be specified" +:+ LF) w, Exit 1))).
  { intros Hb. unfold validate_options. rewrite Hb.
    split; [|split].
    - by intros ->.
    - intros Hm%String.eqb_neq He. by rewrite Hm, He.
    - intros Hm%String.eqb_neq He Ht. by rewrite Hm, He, Ht. }
  assert (Hiff : (validate_options ext o w).2 = Return tt ->
    do_boilerplate o = false /\ module_dir o <> "" /\
    exists_ (system ext) (module_dir o) = true /\ template_dir o <> "").
  { intros Hret. destruct (do_boilerplate o) eqn:Hb.
    { rewrite (validate_options_boilerplate ext o w Hb) in Hret.
      by destruct (read_file ext (EXAMPLE_YAML ext)). }
    destruct (Hcases eq_refl) as (H1 & H2 & H3).
    destruct (String.eqb_spec (module_dir o) "") as [Hm|Hm];
      [by rewrite (H1 Hm) in Hret |].
    destruct (exists_ (system ext) (module_dir o)) eqn:He;
      [|by rewrite (H2 Hm eq_refl) in Hret].
    destruct (String.eqb_spec (template_dir o) "") as [Ht|Ht];
      [by rewrite (H3 Hm eq_refl Ht) in Hret | done]. }
  split; [|split; [|done]].
  - split; [done |]. intros (Hb & Hm & He & Ht).
    by rewrite validate_options_passes.
  - intros (Hb & Hm & He & Ht)%Hiff. by rewrite validate_options_passes.
Qed.

(** X15: without an output directory no run of [main] comes to a good
    end, opens a file or hands a module to the extractor, although
    [write_data] would print the pages of such a run: when the options pass
    the validation, the type is [rst], the template is found and the
    modules are discovered, the run ends in the [AttributeError] of the
    path of the index, which is made of the missing directory. *)
Theorem output_dir_required (ext : externals) (o : options) (w : world) :
  output_dir o = None ->
  (main ext o w).2 <> Return tt /\
  files (main ext o w).1 = files w /\
  extracted (main ext o w).1 = extracted w /\
  (do_boilerplate o = false -> module_dir o <> "" ->
   exists_ (system ext) (module_dir o) = true -> template_dir o <> "" ->
   type o = "rst" ->
   is_Some (get_template ext (template_dir o) "rst.j2") ->
   (forall c, list_modules ext (module_dir o) <> Exit c) ->
   (forall e, list_modules ext (module_dir o) <> Raise e) ->
   main ext o w = (w, Raise AttributeError)).
Proof.
  intros Hdir. rewrite main_steps.
  assert (Hjoin : forall (k : string -> M unit) w0,
            (p <- join_output_dir o "modules_by_category.rst" ;; k p) w0 =
              (w0, Raise AttributeError)).
  { intros k w0. unfold bind, join_output_dir. by rewrite Hdir. }
  split; [|split; [|split]].
  4: { intros Hb Hm He Ht Htype [tpl Htpl] Hexit Hraise.
       rewrite (validate_options_passes ext o w Hb Hm He Ht).
       rewrite Htype, Htpl. cbn [String.eqb Ascii.eqb Bool.eqb].
       destruct (list_modules ext (module_dir o)) as [cats|c|e];
         [apply Hjoin | by destruct (Hexit c) | by destruct (Hraise e)]. }
  all: pose proof (quiet_validate_options ext o w) as [Hf He].
  all: destruct (validate_options ext o w) as [w0 [[]|c|e]]; cbn [fst snd] in *;
         try done.
  all: destruct (String.eqb (type o) "rst"); [|done].
  all: destruct (get_template ext (template_dir o) "rst.j2"); [|done].
  all: destruct (list_modules ext (module_dir o)); [|done ..].
  all: by rewrite Hjoin.
Qed.

Lemma output_dir_required_witness :
  main Example.ext
    {| ansible_version := "1.5"; module_dir := "lib";
       template_dir := "hacking/templates"; type := "rst"; verbose := false;
       output_dir := None; includes_file := None; do_boilerplate := false |}
    start = (start, Raise AttributeError).
Proof.
  refine (proj2 (proj2 (proj2 (output_dir_required Example.ext
    {| ansible_version := "1.5"; module_dir := "lib";
       template_dir := "hacking/templates"; type := "rst"; verbose := false;
       output_dir := None; includes_file := None; do_boilerplate := false |}
    start _))) _ _ _ _ _ _ _ _).
  1, 2, 4, 6: reflexivity.
  - discriminate.
  - discriminate.
  - by eexists.
  - intros c. vm_compute. discriminate.
  - intros e. vm_compute. discriminate.
Defined.

(** *** The loop over the categories *)

Section Categories.
Variable ext : externals.
Variables (o : options) (env : environment) (tpl : template).
Variables (outputname : string).
Variable categories : gmap string (gmap string string).

Lemma process_categories_files (cs : list string) (h0 : handle)
    (w w' : world) (p0 : string) (chunks0 : list string) :
  files w !! h0 = Some (p0, chunks0) ->
  process_categories ext cs h0 categories o env tpl outputname w
    = (w', Return tt) ->
  files w' !! h0 =
    Some (p0, (chunks0 ++
               ((fun c => "    list_of_" +:+ c +:+ "_modules" +:+ LF) <$> cs))%list) /\
  (forall h f, h <> h0 -> files w !! h = Some f -> files w' !! h = Some f) /\
  (forall c, c ∈ cs ->
     exists module_map dir h,
       categories !! c = Some module_map /\ output_dir o = Some dir /\
       files w' !! h =
         Some (join dir ("list_of_" +:+ c +:+ "_modules.rst"),
               listing_of ext o c module_map)).
Proof.
  revert w chunks0. induction cs as [|c cs IH]; intros w chunks0 Hh0 Hrun.
  { injection Hrun as <-. rewrite app_nil_r.
    split; [done |]. split; [done |]. by intros c ?%elem_of_nil. }
  cbn [process_categories] in Hrun. rewrite bind_write in Hrun.
  set (line := "    list_of_" +:+ c +:+ "_modules" +:+ LF) in *.
  set (w1 := written h0 line w) in Hrun.
  assert (Hh1 : files w1 !! h0 = Some (p0, (chunks0 ++ [line])%list))
    by by apply files_written.
  assert (Hkeep1 : forall h f, h <> h0 -> files w !! h = Some f ->
                               files w1 !! h = Some f).
  { intros h f Hne Hf. unfold w1, written. cbn [files].
    by rewrite list_lookup_alter_ne. }
  assert (Hlen1 : length (files w1) = length (files w))
    by (unfold w1, written; cbn [files]; apply length_alter).
  unfold bind at 1 in Hrun.
  destruct (categories !! c) as [module_map|] eqn:Hc.
  2: { unfold process_category, getitem, bind in Hrun. by rewrite Hc in Hrun. }
  pose proof (process_category_file ext o env tpl outputname c categories
                module_map Hc w1) as (Hext & Hfile).
  cbn zeta in *.
  destruct (process_category ext c categories o env tpl outputname w1)
    as [w2 [[]|code|e]]; try done. cbn [fst snd] in *.
  destruct Hfile as [[_ Hne]|(dir & n & Hdir & Hn & Hall)]; [done |].
  rewrite (Hall eq_refl), firstn_all in Hn. fold (listing_of ext o c module_map) in Hn.
  pose proof (extends_lookup _ _ _ _ Hext Hh1) as Hh2.
  destruct (IH w2 _ Hh2 Hrun) as (Hidx & Hkeep & Hlist).
  assert (Hlt : h0 < length (files w)) by by eapply lookup_lt_Some.
  split; [|split].
  - rewrite Hidx, fmap_cons. by rewrite <- app_assoc.
  - intros h f Hne Hf. apply Hkeep; [done |].
    eapply extends_lookup; [done |]. by apply Hkeep1.
  - intros c' [->|Hin]%elem_of_cons; [|by apply Hlist].
    exists module_map, dir, (length (files w1)).
    split; [done |]. split; [done |].
    apply Hkeep; [lia | done].
Qed.

End Categories.

(** *** The documents of a run *)

Section Documents.
Variable ext : externals.
Variable o : options.

(** A run that comes to a good end. *)
Lemma main_documents (w w' : world) :
  main ext o w = (w', Return tt) ->
  exists dir cats,
    output_dir o = Some dir /\
    list_modules ext (module_dir o) = Return cats /\
    files w' !! length (files w) =
      Some (join dir "modules_by_category.rst",
            ([ "Module Index" +:+ LF; "============" +:+ LF; LF +:+ LF;
               ".. toctree::" +:+ LF ] ++
             ((fun c => "    list_of_" +:+ c +:+ "_modules" +:+ LF) <$>
                sorted (map_to_list cats).*1))%list) /\
    forall c, c ∈ sorted (map_to_list cats).*1 ->
      exists module_map dir' h,
        cats !! c = Some module_map /\ output_dir o = Some dir' /\
        files w' !! h =
          Some (join dir' ("list_of_" +:+ c +:+ "_modules.rst"),
                listing_of ext o c module_map).
Proof.
  rewrite main_steps.
  pose proof (quiet_validate_options ext o w) as [Hf _].
  destruct (validate_options ext o w) as [w0 [[]|c|e]]; try done.
  cbn [fst] in Hf.
  destruct (String.eqb (type o) "rst"); [|done].
  destruct (get_template ext (template_dir o) "rst.j2") as [tpl|]; [|done].
  destruct (list_modules ext (module_dir o)) as [cats|c|e]; try done.
  unfold bind at 1, join_output_dir.
  destruct (output_dir o) as [dir|] eqn:Hdir; [|done]. cbn [ret].
  unfold bind at 1, open_w.
  set (p := join dir "modules_by_category.rst").
  destruct (can_open ext p); [|done].
  rewrite !bind_write.
  set (w4 := written _ _ (written _ _ (written _ _ (written _ _ _)))).
  intros Hrun.
  assert (Hh : files w4 !! length (files w0) =
               Some (p, [ "Module Index" +:+ LF; "============" +:+ LF;
                          LF +:+ LF; ".. toctree::" +:+ LF ])).
  { apply (files_written _ _ p [_; _; _]), (files_written _ _ p [_; _]),
      (files_written _ _ p [_]), (files_written _ _ p []).
    cbn [files opened]. by rewrite lookup_app_r, Nat.sub_diag. }
  destruct (process_categories_files ext o _ tpl _ cats _ _ w4 w' _ _ Hh Hrun)
    as (Hidx & _ & Hlist).
  exists dir, cats. rewrite <- Hf.
  split; [done |]. split; [done |]. split; [done |].
  intros c Hc. destruct (Hlist c Hc) as (mm & dir' & h & Hmm & Hd' & Hh').
  exists mm, dir', h. by rewrite <- Hdir.
Qed.

End Documents.

(** X16: a run of [main] that comes to a good end has opened, as its
    first file, the index of the categories in the output directory: four
    lines of heading, and then one line for every category that the module
    discoverer found, in the ascending order of the category names. *)
Theorem index_document (ext : externals) (o : options) (w w' : world) :
  main ext o w = (w', Return tt) ->
  exists dir cats (names : list string),
    output_dir o = Some dir /\
    list_modules ext (module_dir o) = Return cats /\
    names ≡ₚ (map_to_list cats).*1 /\ StronglySorted le names /\
    files w' !! length (files w) =
      Some (join dir "modules_by_category.rst",
            ([ "Module Index" +:+ LF; "============" +:+ LF; LF +:+ LF;
               ".. toctree::" +:+ LF ] ++
             ((fun c => "    list_of_" +:+ c +:+ "_modules" +:+ LF) <$> names))%list).
Proof.
  intros (dir & cats & Hdir & Hcats & Hidx & _)%main_documents.
  exists dir, cats, (sorted (map_to_list cats).*1).
  destruct (ContextSpec.sorted_spec (map_to_list cats).*1) as [Hp Hs].
  done.
Qed.

Lemma index_document_witness :
  exists dir cats (names : list string),
    output_dir Example.opts = Some dir /\
    list_modules Sample.shelf_ext (module_dir Example.opts) = Return cats /\
    names ≡ₚ (map_to_list cats).*1 /\ StronglySorted le names /\
    files (main Sample.shelf_ext Example.opts start).1 !! length (files start) =
      Some (join dir "modules_by_category.rst",
            ([ "Module Index" +:+ LF; "============" +:+ LF; LF +:+ LF;
               ".. toctree::" +:+ LF ] ++
             ((fun c => "    list_of_" +:+ c +:+ "_modules" +:+ LF) <$> names))%list).
Proof.
  apply (index_document Sample.shelf_ext Example.opts start). vm_compute. reflexivity.
Defined.

(** X17: a run of [main] that comes to a good end has written, for
    every category that the module discoverer found, the listing of that
    category in the output directory: the heading of the category and one
    line for each of its modules but the skipped ones, in the ascending
    order of the module names. *)
Theorem listing_documents (ext : externals) (o : options) (w w' : world) :
  main ext o w = (w', Return tt) ->
  exists dir cats,
    output_dir o = Some dir /\
    list_modules ext (module_dir o) = Return cats /\
    forall c module_map, cats !! c = Some module_map ->
      exists h (names : list string),
        names ≡ₚ (map_to_list module_map).*1 /\ StronglySorted le names /\
        files w' !! h =
          Some (join dir ("list_of_" +:+ c +:+ "_modules.rst"),
                (heading c ++
                 (toctree_entry <$>
                    filter (fun m => skipped ext o module_map m = false)
                      names))%list).
Proof.
  intros (dir & cats & Hdir & Hcats & _ & Hlist)%main_documents.
  exists dir, cats. split; [done |]. split; [done |].
  intros c module_map Hc.
  destruct (Hlist c) as (mm & dir' & h & Hmm & Hdir' & Hh).
  { unfold sorted. rewrite merge_sort_Permutation.
    apply list_elem_of_fmap. exists (c, module_map).
    split; [done |]. by apply elem_of_map_to_list. }
  assert (mm = module_map) as -> by congruence.
  assert (dir' = dir) as -> by congruence.
  exists h, (sorted (map_to_list module_map).*1).
  destruct (ContextSpec.sorted_spec (map_to_list module_map).*1) as [Hp Hs].
  done.
Qed.

Lemma listing_documents_witness :
  exists dir cats,
    output_dir Example.opts = Some dir /\
    list_modules Sample.shelf_ext (module_dir Example.opts) = Return cats /\
    forall c module_map, cats !! c = Some module_map ->
      exists h (names : list string),
        names ≡ₚ (map_to_list module_map).*1 /\ StronglySorted le names /\
        files (main Sample.shelf_ext Example.opts start).1 !! h =
          Some (join dir ("list_of_" +:+ c +:+ "_modules.rst"),
                (heading c ++
                 (toctree_entry <$>
                    filter (fun m => skipped Sample.shelf_ext Example.opts module_map m
                                     = false)
                      names))%list).
Proof.
  apply (listing_documents Sample.shelf_ext Example.opts start). vm_compute.
  reflexivity.
Defined.

End RunSpec.

(** ** The module discoverer on any system *)

Module DiscoverSpec.
Import Str StrFacts Py Formatter Discovery.

Section Discover.
Variable ext : externals.

Lemma index_files_sound (found : string -> Prop) (files2 : list string)
    (categories categories' : gmap string (gmap string string)) :
  (forall f, f ∈ files2 -> found f) ->
  sound found categories ->
  index_files files2 categories = Return categories' ->
  sound found categories'.
Proof.
  revert categories. induction files2 as [|f rest IH];
    intros categories Hfound Hsound; [by intros [= <-] |].
  cbn [index_files].
  destruct (from_end 0 (split "/" f)) as [module|] eqn:H0; [|done].
  destruct (from_end 1 (split "/" f)) as [category|] eqn:H1; [|done].
  apply IH; [intros f' Hf'; apply Hfound; by right |].
  intros category' module_map.
  destruct (decide (category' = category)) as [->|Hne].
  - rewrite lookup_insert_eq. intros [= <-].
    split; [apply insert_non_empty |].
    intros module' p. destruct (decide (module' = module)) as [->|Hm].
    + rewrite lookup_insert_eq. intros [= <-].
      repeat split; try done. apply Hfound. by left.
    + rewrite lookup_insert_ne by done.
      destruct (categories !! category) as [old|] eqn:Hold.
      * rewrite Hold. cbn [default]. by apply (Hsound category old).
      * by rewrite lookup_insert_eq.
  - rewrite lookup_insert_ne by done.
    destruct (categories !! category);
      [|rewrite lookup_insert_ne by done]; apply Hsound.
Qed.

Lemma index_dirs_sound (found : string -> Prop) (files : list string)
    (categories categories' : gmap string (gmap string string)) :
  (forall d f, d ∈ files -> isdir (system ext) d = true ->
               f ∈ glob (system ext) (d +:+ "/*") -> found f) ->
  sound found categories ->
  index_dirs ext files categories = Return categories' ->
  sound found categories'.
Proof.
  revert categories. induction files as [|d rest IH];
    intros categories Hfound Hsound; [by intros [= <-] |].
  cbn [index_dirs]. destruct (isdir (system ext) d) eqn:Hd.
  - destruct (index_files (glob (system ext) (d +:+ "/*")) categories)
      as [categories1|c|e] eqn:Hfiles; [|done ..].
    apply IH; [intros d' f Hd'; apply Hfound; by right |].
    eapply index_files_sound; [|done ..].
    intros f Hf. apply (Hfound d); [by left | done ..].
  - apply IH; [|done]. intros d' f Hd'. apply Hfound. by right.
Qed.

Lemma from_end_slash (f : string) :
  has "/" f = true ->
  is_Some (from_end 0 (split "/" f)) /\ is_Some (from_end 1 (split "/" f)).
Proof.
  intros (t0 & t1 & ts & ->)%split_present. unfold from_end.
  split; apply lookup_lt_is_Some; rewrite length_rev; simpl; lia.
Qed.

Lemma index_files_ends (files2 : list string)
    (categories : gmap string (gmap string string)) :
  (exists categories', index_files files2 categories = Return categories' /\
                       forall c, is_Some (categories !! c) ->
                                 is_Some (categories' !! c)) \/
  (index_files files2 categories = Raise IndexError /\
   exists f, f ∈ files2 /\ has "/" f = false).
Proof.
  revert categories. induction files2 as [|f rest IH]; intros categories.
  { left. by eexists. }
  cbn [index_files].
  destruct (has "/" f) eqn:Hf.
  - destruct (from_end_slash f Hf) as [[module ->] [category ->]].
    match goal with |- context [index_files rest ?cs] =>
      destruct (IH cs) as [(cs' & -> & Hkeep)|(-> & f' & Hin & Hf')] end.
    + left. eexists. split; [done |]. intros c Hc. apply Hkeep.
      destruct (decide (c = category)) as [->|Hne];
        [by rewrite lookup_insert_eq |].
      rewrite lookup_insert_ne by done.
      destruct (categories !! category); [done |].
      by rewrite lookup_insert_ne.
    + right. split; [done |]. exists f'. split; [by right | done].
  - right. rewrite (split_absent _ _ Hf). cbn.
    split; [done |]. exists f. split; [by left | done].
Qed.

Lemma index_dirs_ends (files : list string)
    (categories : gmap string (gmap string string)) :
  (exists categories', index_dirs ext files categories = Return categories') \/
  (index_dirs ext files categories = Raise IndexError /\
   exists d f, d ∈ files /\ isdir (system ext) d = true /\
               f ∈ glob (system ext) (d +:+ "/*") /\ has "/" f = false).
Proof.
  revert categories. induction files as [|d rest IH]; intros categories.
  { left. by eexists. }
  cbn [index_dirs]. destruct (isdir (system ext) d) eqn:Hd.
  - destruct (index_files_ends (glob (system ext) (d +:+ "/*")) categories)
      as [(cs' & -> & _)|(-> & f & Hin & Hf)].
    + destruct (IH cs') as [Hret|(-> & d' & f & Hd' & Hdir & Hin & Hf)];
        [by left |].
      right. split; [done |]. exists d', f. split; [by right | done].
    + right. split; [done |]. exists d, f. split; [by left | done].
  - destruct (IH categories) as [Hret|(-> & d' & f & Hd' & Hdir & Hin & Hf)];
      [by left |].
    right. split; [done |]. exists d', f. split; [by right | done].
Qed.

End Discover.

(** X18: on any system, whatever [glob] and [isdir] answer, the mapping
    that the discoverer returns is made of paths that [glob] listed in a
    directory listed in the module directory; the module name of a path is
    its last component and its category the component before, so that a
    path is recorded under the names it shows, and no category of the
    mapping is empty. *)
Theorem discovered_paths (ext : externals) (module_dir : string)
    (categories : gmap string (gmap string string)) :
  list_modules ext module_dir = Return categories ->
  forall category module_map,
    categories !! category = Some module_map ->
    module_map <> ∅ /\
    forall module p,
      module_map !! module = Some p ->
      from_end 0 (split "/" p) = Some module /\
      from_end 1 (split "/" p) = Some category /\
      exists d,
        d ∈ glob (system ext) (module_dir +:+ "/*") /\
        isdir (system ext) d = true /\
        p ∈ glob (system ext) (d +:+ "/*").
Proof.
  intros Hrun.
  apply (index_dirs_sound ext
           (fun p => exists d,
              d ∈ glob (system ext) (module_dir +:+ "/*") /\
              isdir (system ext) d = true /\
              p ∈ glob (system ext) (d +:+ "/*"))
           (glob (system ext) (module_dir +:+ "/*")) ∅ categories);
    [by eauto | | done].
  intros category module_map. by rewrite lookup_empty.
Qed.

Lemma discovered_paths_witness :
  from_end 0 (split "/" "lib/net/a") = Some "a" /\
  from_end 1 (split "/" "lib/net/a") = Some "net" /\
  exists d,
    d ∈ glob (system Example.ext) ("lib" +:+ "/*") /\
    isdir (system Example.ext) d = true /\
    "lib/net/a" ∈ glob (system Example.ext) (d +:+ "/*").
Proof.
  refine (proj2 (discovered_paths Example.ext "lib"
    {["net" := {["a" := "lib/net/a"; "b" := "lib/net/b"]};
      "db" := {["a" := "lib/db/a"; "b" := "lib/db/b"]}]} _
    "net" {["a" := "lib/net/a"; "b" := "lib/net/b"]} _) "a" "lib/net/a" _).
  - vm_compute. reflexivity.
  - vm_compute. reflexivity.
  - vm_compute. reflexivity.
Defined.

(** X19: the discoverer never ends the run by an exit code, and the only
    error that comes out of it is the [IndexError] of a listed path without
    a slash, which has no component before the last; when every path that
    [glob] lists in a directory of the module directory holds a slash, as the
    paths of the pattern [d/*] do, the discoverer returns. *)
Theorem discoverer_returns (ext : externals) (module_dir : string) :
  ((exists categories, list_modules ext module_dir = Return categories) \/
   list_modules ext module_dir = Raise IndexError) /\
  ((forall d f, d ∈ glob (system ext) (module_dir +:+ "/*") ->
                isdir (system ext) d = true ->
                f ∈ glob (system ext) (d +:+ "/*") -> has "/" f = true) ->
   exists categories, list_modules ext module_dir = Return categories).
Proof.
  unfold list_modules.
  destruct (index_dirs_ends ext (glob (system ext) (module_dir +:+ "/*")) ∅)
    as [Hret|(Hraise & d & f & Hd & Hdir & Hf & Hslash)].
  - split; [by left | done].
  - split; [by right |]. intros Hall.
    rewrite (Hall d f Hd Hdir Hf) in Hslash. done.
Qed.

Lemma discoverer_returns_witness :
  exists categories, list_modules Example.ext "lib" = Return categories.
Proof.
  refine (proj2 (discoverer_returns Example.ext "lib") _).
  intros d f Hd _ Hf. vm_compute in Hd.
  repeat (apply elem_of_cons in Hd as [->|Hd];
          [vm_compute in Hf;
           repeat (apply elem_of_cons in Hf as [->|Hf]; [reflexivity |]);
           by apply elem_of_nil in Hf |]).
  by apply elem_of_nil in Hd.
Defined.

End DiscoverSpec.
